(** * deepmd-jax: molecular-dynamics driver and neighbor-list engine

    A shallow embedding of [deepmd_jax/md.py] and [examples/simulate.py].

    Numbers.  The program computes with floating-point reals and with
    integer index arrays.  Real quantities are embedded as rationals [Q]
    (decimal literals are exact fractions, rounding is abstracted away);
    index arrays are lists of [Z] with Python's floor division and
    modulus, which [Z.div] and [Z.modulo] are for a positive divisor.

    External collaborators (the potential model, the jax_md integrators
    and its cell-list builder, device placement) appear as Section
    variables; device placement and sharding constraints do not change
    array values and are the identity here. *)

From Stdlib Require Import ZArith QArith Qround List Sorted Permutation Bool String Lia.
Import ListNotations.

Local Open Scope Z_scope.

(* ------------------------------------------------------------------ *)
(** ** Python exceptions and fallible results *)

Inductive exn : Type :=
| ValueError (msg : string)
| NotImplementedError (msg : string)
| AttributeError (attr : string)
| KeyError (key : string).

Inductive result (A : Type) : Type :=
| Ok (a : A)
| Raise (e : exn).

Arguments Ok {A} a.
Arguments Raise {A} e.

Definition bind {A B : Type} (r : result A) (k : A -> result B) : result B :=
  match r with
  | Ok a => k a
  | Raise e => Raise e
  end.

Notation "x <- c ;; k" := (bind c (fun x => k))
  (at level 61, c at next level, right associativity).

Definition is_ok {A : Type} (r : result A) : bool :=
  match r with Ok _ => true | Raise _ => false end.

(* ------------------------------------------------------------------ *)
(** ** Unit conversion constants *)

Module Units.

Local Open Scope Q_scope.

(** md.py, lines 9-11. *)
Definition mass_unit_convertion : Q := 1036427 # 10000.          (* 1.036427e2 *)
Definition temperature_unit_convertion : Q := 8617333 # 100000000000. (* 8.617333e-5 *)
Definition pressure_unit_convertion : Q := 6241509 # 10000000000000.  (* 6.241509e-7 *)

(** simulate.py, lines 34-35: the literals written at the use sites of the
    example script. *)
Definition simulate_temp_factor : Q := 861733 # 10000000000.     (* 8.61733e-5 *)
Definition simulate_mass_factor : Q := 1036427 # 10000.          (* 1.036427e2 *)

(** [temp = 350 * 8.61733e-5] *)
Definition simulate_temp : Q := 350 * simulate_temp_factor.

(** [mass = np.array([15.9994, 1.00784]) * 1.036427e2] *)
Definition simulate_mass : list Q :=
  map (fun m => m * simulate_mass_factor) [159994 # 10000; 100784 # 100000].

(** The conversions applied by [Simulation.__init__] (md.py, lines 96,
    105, 106, 115-117). *)
Definition kT_of_kelvin (t : Q) : Q := t * temperature_unit_convertion.
Definition pressure_of_bar (p : Q) : Q := p * pressure_unit_convertion.
Definition mass_of_amu (m : Q) : Q := m * mass_unit_convertion.

End Units.

(* ------------------------------------------------------------------ *)
(** ** Boxes and the choice of mode *)

(** A box is a scalar, a 3-vector of orthorhombic lengths, or a 3x3
    matrix given by its rows. *)
Definition vec3 : Type := (Q * Q * Q)%type.

Inductive Box : Type :=
| BoxScalar (a : Q)
| BoxVec (v : vec3)
| BoxMat (r0 r1 r2 : vec3).

(** [box.shape == (3,3)] *)
Definition shape_is_3x3 (b : Box) : bool :=
  match b with BoxMat _ _ _ => true | _ => false end.

(** md.py, lines 30-34. *)
Definition check_if_use_neighbor_list (box : Box) (rcut : Q) : bool :=
  if shape_is_3x3 box then false else false.

Definition Qzero (q : Q) : bool := Qeq_bool q 0%Q.

(** [(box == jnp.diag(jnp.diag(box))).all()] for a 3x3 box; a scalar and a
    3-vector are orthorhombic by their shape. *)
Definition is_orthorhombic (b : Box) : bool :=
  match b with
  | BoxScalar _ | BoxVec _ => true
  | BoxMat (_, a01, a02) (a10, _, a12) (a20, a21, _) =>
      Qzero a01 && Qzero a02 && Qzero a10 && Qzero a12 && Qzero a20 && Qzero a21
  end.

Definition box_lengths (b : Box) : vec3 :=
  match b with
  | BoxScalar a => (a, a, a)
  | BoxVec v => v
  | BoxMat (a00, _, _) (_, a11, _) (_, _, a22) => (a00, a11, a22)
  end.

Definition Qltb (a b : Q) : bool := negb (Qle_bool b a).

Definition Qmin2 (a b : Q) : Q := if Qle_bool a b then a else b.

Definition shortest (v : vec3) : Q :=
  let '(x, y, z) := v in Qmin2 x (Qmin2 y z).

(** The rule as the specification words it, for comparison with the code:
    the box is orthorhombic and twice the cutoff is less than the
    shortest box dimension. *)
Definition spec_use_neighbor_list (box : Box) (rcut : Q) : bool :=
  is_orthorhombic box && Qltb (2 * rcut)%Q (shortest (box_lengths box)).

(** Static arguments of a compiled chunk (the FrozenDict of md.py, lines
    23 and 27). *)
Record StaticArgs (Lattice : Type) : Type := mkStaticArgs {
  type_count : list Z;
  lattice : option Lattice;
  use_neighbor_list : bool
}.

Arguments mkStaticArgs {Lattice}.
Arguments type_count {Lattice}.
Arguments lattice {Lattice}.
Arguments use_neighbor_list {Lattice}.

Definition all_positive (v : vec3) : bool :=
  let '(x, y, z) := v in Qltb 0%Q x && Qltb 0%Q y && Qltb 0%Q z.

Section StaticArgs.

Variable Lattice : Type.

(** [compute_lattice_candidate] (module [data]) is not among the sources;
    it is taken as it comes, and it may raise. *)
Variable compute_lattice_candidate : Box -> Q -> result Lattice.

(** md.py, lines 20-28. *)
Definition get_static_args (rcut_maybe_with_buffer : Q) (tc : list Z) (box : Box)
  : result (StaticArgs Lattice) :=
  let use_nl := check_if_use_neighbor_list box rcut_maybe_with_buffer in
  if use_nl
  then Ok (mkStaticArgs tc None true)
  else
    lattice_args <- compute_lattice_candidate box rcut_maybe_with_buffer ;;
    Ok (mkStaticArgs tc (Some lattice_args) false).

End StaticArgs.

Arguments get_static_args {Lattice}.

(** Modelled from the spec: what [compute_lattice_candidate] does with a
    malformed box.  Section 4.1: a non-positive dimension is a fatal
    configuration error; otherwise the selector returns the set of image
    shifts, which stays abstract ([lattice_of]). *)
Definition spec_compute_lattice_candidate {Lattice : Type}
    (lattice_of : Box -> Q -> Lattice) (box : Box) (rcut : Q) : result Lattice :=
  if all_positive (box_lengths box)
  then Ok (lattice_of box rcut)
  else Raise (ValueError "non-positive box dimension").

(* ------------------------------------------------------------------ *)
(** ** Keyword dictionaries ([**routine_args]) *)

Definition dict : Type := list (string * Q).

Fixpoint dict_mem (k : string) (d : dict) : bool :=
  match d with
  | [] => false
  | (k', _) :: d' => if String.eqb k k' then true else dict_mem k d'
  end.

Fixpoint dict_get (k : string) (d : dict) : option Q :=
  match d with
  | [] => None
  | (k', v) :: d' => if String.eqb k k' then Some v else dict_get k d'
  end.

Fixpoint dict_remove (k : string) (d : dict) : dict :=
  match d with
  | [] => []
  | (k', v) :: d' =>
      if String.eqb k k' then dict_remove k d' else (k', v) :: dict_remove k d'
  end.

(** [d[k] = v] *)
Fixpoint dict_set (k : string) (v : Q) (d : dict) : dict :=
  match d with
  | [] => [(k, v)]
  | (k', v') :: d' =>
      if String.eqb k k' then (k, v) :: d' else (k', v') :: dict_set k v d'
  end.

(** [d.pop(k)] for a key that is present; the value and the remaining
    dictionary. *)
Definition dict_pop (k : string) (d : dict) : option (Q * dict) :=
  match dict_get k d with
  | Some v => Some (v, dict_remove k d)
  | None => None
  end.

(** ["NPT" in s] *)
Definition contains (sub s : string) : bool :=
  match String.index 0 sub s with Some _ => true | None => false end.

(** [jax.lax.scan(f, init, None, length)] for a step that may raise while
    it is traced.  Every call site passes a positive [length]. *)
Fixpoint scan {S O : Type} (f : S -> result (S * O)) (init : S) (length : nat)
  : result (S * list O) :=
  match length with
  | O => Ok (init, [])
  | Datatypes.S n =>
      r <- f init ;;
      rest <- scan f (fst r) n ;;
      Ok (fst rest, snd r :: snd rest)
  end.

(* ------------------------------------------------------------------ *)
(** ** class Simulation (md.py, lines 36-187) *)

Module Simulation.

(** Class attributes, lines 37-42. *)
Definition _step_chunk_size : Z := 10.
Definition report_interval : Z := 100.
Definition dr_buffer_neighbor : Q := 8 # 10.
Definition dr_buffer_lattice : Q := 1.
Definition neighbor_buffer_size : Q := 12 # 10.

(** Lines 66-70: [self.reference_box] is assigned for a scalar box and for
    a diagonal 3x3 box, and by no other statement. *)
Definition reference_box_of (box : Box) : option vec3 :=
  let after_scalar :=
    match box with
    | BoxScalar a => Some (a, a, a)
    | _ => None
    end in
  if shape_is_3x3 box && is_orthorhombic box
  then Some (box_lengths box)
  else after_scalar.

Definition get_reference_box (rb : option vec3) : result vec3 :=
  match rb with
  | Some b => Ok b
  | None => Raise (AttributeError "reference_box")
  end.

(** What the routine dispatch (lines 89-108) leaves behind. *)
Inductive routine_fn : Type := nve | nvt_nose_hoover | npt_nose_hoover.

Definition select_routine (routine : string) (routine_args : dict)
  : result (routine_fn * dict) :=
  if String.eqb routine "NVE" then Ok (nve, routine_args)
  else if String.eqb routine "NVT_Nose_Hoover" then
    if negb (dict_mem "temperature" routine_args) then
      Raise (ValueError
        "Please provide extra argument 'temperature' for routine 'NVT_Nose_Hoover' in Kelvin")
    else
      match dict_pop "temperature" routine_args with
      | None => Raise (KeyError "temperature")
      | Some (temperature, args) =>
          Ok (nvt_nose_hoover, dict_set "kT" (Units.kT_of_kelvin temperature) args)
      end
  else if String.eqb routine "NPT_Nose_Hoover" then
    if negb (dict_mem "temperature" routine_args) then
      Raise (ValueError
        "Please provide extra argument 'temperature' for routine 'NPT_Nose_Hoover' in Kelvin")
    else if negb (dict_mem "pressure" routine_args) then
      Raise (ValueError
        "Please provide extra argument 'pressure' for routine 'NPT_Nose_Hoover' in bar")
    else
      match dict_pop "temperature" routine_args with
      | None => Raise (KeyError "temperature")
      | Some (temperature, args1) =>
          match dict_pop "pressure" args1 with
          | None => Raise (KeyError "pressure")
          | Some (pressure, args2) =>
              Ok (npt_nose_hoover,
                  dict_set "pressure" (Units.pressure_of_bar pressure)
                    (dict_set "kT" (Units.kT_of_kelvin temperature) args2))
          end
      end
  else
    Raise (NotImplementedError
      "routine is currently limited to 'NVE', 'NVT_Nose_Hoover', 'NPT_Nose_Hoover'").

(** The fields a constructed simulation holds, as far as the checks and
    the unit conversions determine them. *)
Record t (Lattice : Type) : Type := mkSimulation {
  reference_box : vec3;
  static_args : StaticArgs Lattice;
  routine_of : routine_fn;
  routine_args_of : dict;
  init_mass : list Q;
  init_kT : Q
}.

Arguments mkSimulation {Lattice}.
Arguments reference_box {Lattice}.
Arguments static_args {Lattice}.
Arguments routine_of {Lattice}.
Arguments routine_args_of {Lattice}.
Arguments init_mass {Lattice}.
Arguments init_kT {Lattice}.

Section Init.

Variable Lattice : Type.
Variable compute_lattice_candidate : Box -> Q -> result Lattice.
Variable Velocity : Type.

(** [Simulation.__init__] (lines 43-123).  [rcut] is
    [model.params['rcut']]; [mass] is the per-atom mass in AMU of line 60;
    loading the model and the jax_md constructors are taken to succeed. *)
Definition init (type_count : list Z) (rcut : Q) (box : Box) (mass : list Q)
    (routine : string) (velocity : option Velocity) (init_temperature : option Q)
    (routine_args : dict) : result (t Lattice) :=
  match velocity, init_temperature with
  | None, None =>
      Raise (ValueError
        "Please either provide velocity or init_temperature to initialize velocity")
  | _, _ =>
      let rb := reference_box_of box in
      let rcut_lattice :=
        if contains "NPT" routine then (rcut + dr_buffer_lattice)%Q else rcut in
      refbox <- get_reference_box rb ;;
      sargs <- get_static_args compute_lattice_candidate rcut_lattice type_count
                 (BoxVec refbox) ;;
      _ <- (if use_neighbor_list sargs
            then Raise (AttributeError "position")
            else Ok tt) ;;
      sel <- select_routine routine routine_args ;;
      Ok (mkSimulation refbox sargs (fst sel) (snd sel)
            (map Units.mass_of_amu mass)
            (Units.kT_of_kelvin
               (match init_temperature with Some T => T | None => 0%Q end)))
  end.

End Init.

Arguments init {Lattice} compute_lattice_candidate {Velocity}.

(** Lines 125-140. *)
Definition check_lattice_overflow {Position : Type} (position : Position) (box : vec3)
  : bool := false.

Definition check_hard_overflow (box : option vec3) : bool :=
  match box with
  | None => false
  | Some _ => false
  end.

Definition check_soft_overflow {Position : Type}
    (position ref_position : Position) (box : vec3) : bool := false.

Section InnerStep.

Variables State Position Velocity NbrsNm Nbrs Lattice : Type.

(** The integrator state of jax_md. *)
Variable position : State -> Position.
Variable velocity : State -> Velocity.
Variable state_box : State -> vec3.

(** The neighbor-list object threaded through the scan. *)
Variable reference_position : Nbrs -> Position.
Variable nbrs_nm : Nbrs -> NbrsNm.
Variable did_buffer_overflow : Nbrs -> bool.
Variable update : Nbrs -> Position -> option vec3 -> Nbrs.

Variable apply_fn : State -> vec3 -> option NbrsNm -> StaticArgs Lattice -> State.

Variable routine : string.
Variable self_reference_box : vec3.
Variable self_static_args : StaticArgs Lattice.

Definition overflow_flags : Type := (bool * bool * bool)%type.
Definition carry : Type := (State * option Nbrs * overflow_flags)%type.

(** [inner_step] of [get_inner_step] (lines 143-164), together with the
    value of [soft_overflow] it branched on. *)
Definition inner_step_traced (states : carry)
  : result (carry * (Position * Velocity) * bool) :=
  let '(state, nbrs, overflow) := states in
  let npt_box := if contains "NPT" routine then Some (state_box state) else None in
  let current_box :=
    if contains "NPT" routine then state_box state else self_reference_box in
  nb <- match nbrs with
        | Some nb => Ok nb
        | None => Raise (AttributeError "reference_position")
        end ;;
  let soft_overflow :=
    check_soft_overflow (position state) (reference_position nb) current_box in
  let nb := if soft_overflow then update nb (position state) npt_box else nb in
  let state :=
    apply_fn state current_box
      (if use_neighbor_list self_static_args then Some (nbrs_nm nb) else None)
      self_static_args in
  let '(is_nbr_buffer_overflow, is_lattice_overflow, is_hard_overflow) := overflow in
  let overflow :=
    if use_neighbor_list self_static_args
    then (is_nbr_buffer_overflow || did_buffer_overflow nb,
          is_lattice_overflow,
          is_hard_overflow || check_hard_overflow npt_box)
    else (is_nbr_buffer_overflow,
          is_lattice_overflow || check_lattice_overflow (position state) current_box,
          is_hard_overflow) in
  Ok ((state, Some nb, overflow), (position state, velocity state), soft_overflow).

Definition inner_step (states : carry) : result (carry * (Position * Velocity)) :=
  r <- inner_step_traced states ;; Ok (fst r).

(** The chunk of line 176 and the same chunk with the branch taken at each
    step recorded.  [jax.lax.scan] calls its step with the carry and an
    element of the scanned sequence, [inner_step] takes the carry alone:
    the chunk is the scan of [inner_step] over the carry. *)
Definition run_chunk (states : carry) (next_chunk : nat)
  : result (carry * list (Position * Velocity)) :=
  scan inner_step states next_chunk.

Definition run_chunk_traced (states : carry) (next_chunk : nat)
  : result (carry * list (Position * Velocity * bool)) :=
  scan (fun s => r <- inner_step_traced s ;;
                 Ok (fst (fst r), (snd (fst r), snd r)))
       states next_chunk.

End InnerStep.

Arguments inner_step_traced {State Position Velocity NbrsNm Nbrs Lattice}.
Arguments inner_step {State Position Velocity NbrsNm Nbrs Lattice}.
Arguments run_chunk {State Position Velocity NbrsNm Nbrs Lattice}.
Arguments run_chunk_traced {State Position Velocity NbrsNm Nbrs Lattice}.

End Simulation.

(* ------------------------------------------------------------------ *)
(** ** Arithmetic on arrays *)

(** Python's [x % b] on reals, for a positive [b]. *)
Definition Qmod (x b : Q) : Q := (x - b * inject_Z (Qfloor (x / b)))%Q.

(** Python's [int(x)]: truncation toward zero. *)
Definition int_of_Q (x : Q) : Z := Z.quot (Qnum x) (Z.pos (Qden x)).

Definition vmap2 (f : Q -> Q -> Q) (u v : vec3) : vec3 :=
  let '(x, y, z) := u in
  let '(x', y', z') := v in (f x x', f y y', f z z').

Definition norm_sq (v : vec3) : Q :=
  let '(x, y, z) := v in (x * x + y * y + z * z)%Q.

(** [jnp.linalg.norm(v) > t].  The norm is a square root and not a
    rational; the comparison is decided exactly on the squares. *)
Definition norm_gt (v : vec3) (t : Q) : bool :=
  Qltb t 0%Q || Qltb (t * t)%Q (norm_sq v).

Definition table : Type := list (list Z).

Definition sum_list (l : list Z) : Z := fold_right Z.add 0 l.

(** [a.max()] of an integer array; numpy and jax refuse an empty one. *)
Definition amax (l : list Z) : result Z :=
  match l with
  | [] => Raise (ValueError "zero-size array to reduction operation maximum")
  | x :: r => Ok (fold_right Z.max x r)
  end.

(** Sequencing over a list of fallible computations. *)
Fixpoint mapM {A B : Type} (f : A -> result B) (l : list A) : result (list B) :=
  match l with
  | [] => Ok []
  | a :: r => b <- f a ;; bs <- mapM f r ;; Ok (b :: bs)
  end.

(** [np.cumsum] *)
Fixpoint cumsum_from (acc : Z) (l : list Z) : list Z :=
  match l with
  | [] => []
  | x :: r => (acc + x) :: cumsum_from (acc + x) r
  end.

Definition cumsum (l : list Z) : list Z := cumsum_from 0 l.

(** [lax.top_k(row, k)[0]]: the [k] largest entries, largest first. *)
Fixpoint insert_desc (x : Z) (l : list Z) : list Z :=
  match l with
  | [] => [x]
  | y :: r => if y <=? x then x :: y :: r else y :: insert_desc x r
  end.

Definition sort_desc (l : list Z) : list Z := fold_right insert_desc [] l.

Definition top_k (row : list Z) (k : Z) : result (list Z) :=
  if (k <? 0) || (Z.of_nat (List.length row) <? k)
  then Raise (ValueError "k argument to top_k must be no larger than the last dimension")
  else Ok (firstn (Z.to_nat k) (sort_desc row)).

(* ------------------------------------------------------------------ *)
(** ** Type and device masks (md.py, lines 192-214) *)

Section Masks.

(** [jax.device_count()] *)
Variable K : Z.

(** [get_mask_by_device(type_count)] is not among the sources: one flag
    per slot of the device-ordered atom array, false on padding slots. *)
Variable get_mask_by_device : list Z -> list bool.

(** [-(-type_count//K)] *)
Definition type_count_new (tc : list Z) : list Z :=
  map (fun c => - ((- c) / K)) tc.

Definition type_idx_filled_each (tc : list Z) : list Z :=
  cumsum (0 :: type_count_new tc).

Definition N_each (tc : list Z) : Z := last (type_idx_filled_each tc) 0.

(** The condition of lines 202-203 without its row factor [Kmask[:,None]]. *)
Definition type_cond (tc : list Z) (i : nat) (idx : Z) : bool :=
  let N := N_each tc in
  let filled := type_idx_filled_each tc in
  ((nth i filled 0 <=? idx mod N) && (idx mod N <? nth (S i) filled 0))
  && ((idx - nth i filled 0 - (idx / N) * (N - nth i (type_count_new tc) 0)
         <? nth i tc 0)
      && (idx <? N * K)).

(** [mask_fn] number [i] of [get_type_mask_fns]: lines 200-204.  The mask
    [Kmask] has one entry per row of the table. *)
Definition mask_fn (tc : list Z) (i : nat) (idx : table) : table :=
  let Kmask := get_mask_by_device tc in
  map (fun '(km, row) =>
         map (fun v => if km && type_cond tc i v then v else N_each tc * K) row)
      (combine Kmask idx).

Definition get_type_mask_fns (tc : list Z) : list (table -> table) :=
  map (fun i => mask_fn tc i) (seq 0 (List.length tc)).

(** [get_full_mask_fn]: lines 207-214. *)
Definition Kmask_idx (Kmask : list bool) : list Z :=
  map (fun p => Z.of_nat (fst p))
      (filter (fun p => negb (snd p)) (combine (seq 0 (List.length Kmask)) Kmask)).

Definition get_full_mask_fn (tc : list Z) (idx : table) : table :=
  let Kmask := get_mask_by_device tc in
  map (fun '(km, row) =>
         map (fun v =>
                if km && negb (existsb (Z.eqb v) (Kmask_idx Kmask))
                then v else Z.of_nat (List.length Kmask)) row)
      (combine Kmask idx).

(** Modelled from the spec: [reorder_by_device] (module [utils]) is not
    among the sources.  Section 4.3: device sharding splits the atom
    dimension into contiguous blocks with per-block offsets; within a
    block the types follow each other, each with [type_count_new] slots.
    Atom number [j] of type [i] then sits in block [j / n] at slot [j mod n]
    of its type, [n] being the slots of the type per block. *)
Definition device_index (tc : list Z) (i : nat) (j : Z) : Z :=
  let n := nth i (type_count_new tc) 0 in
  (j / n) * N_each tc + nth i (type_idx_filled_each tc) 0 + j mod n.

(** Lines 247-249 for one entry: the index within the type. *)
Definition remap_entry (tc : list Z) (i : nat) (v : Z) : Z :=
  let N := N_each tc in
  if v <? N * K
  then v - nth i (type_idx_filled_each tc) 0
       - (v / N) * (N - nth i (type_count_new tc) 0)
  else N * K.

End Masks.

(** Python zip over the unpacked list of lists: the transpose, cut at the
    shortest list. *)
Fixpoint heads {A : Type} (ls : list (list A)) : option (list A) :=
  match ls with
  | [] => Some []
  | [] :: _ => None
  | (x :: _) :: r =>
      match heads r with
      | Some hs => Some (x :: hs)
      | None => None
      end
  end.

Fixpoint zip_star_fuel {A : Type} (n : nat) (ls : list (list A)) : list (list A) :=
  match n with
  | O => []
  | S n' =>
      match heads ls with
      | Some hs => hs :: zip_star_fuel n' (map (@tl A) ls)
      | None => []
      end
  end.

Definition zip_star {A : Type} (ls : list (list A)) : list (list A) :=
  match ls with
  | [] => []
  | l :: _ => zip_star_fuel (List.length l) ls
  end.

(* ------------------------------------------------------------------ *)
(** ** class NeighborList (md.py, lines 215-251) *)

Module NeighborList.

(** The attributes of the object; [knbr] exists only once [allocate] has
    run. *)
Record t : Type := mk {
  type_count : list Z;
  box : vec3;
  rcut : Q;
  size : Q;
  knbr : option (list Z)
}.

(** [__init__], lines 216-220. *)
Definition new (box : vec3) (type_count : list Z) (rcut size : Q) : t :=
  mk type_count box rcut size None.

Definition get_knbr (self : t) : result (list Z) :=
  match knbr self with
  | Some k => Ok k
  | None => Raise (AttributeError "knbr")
  end.

(** Line 222, before the reordering by device. *)
Definition canonicalize_component (x b : Q) : Q :=
  (Qmod x b * (1 - (2 # 10000000)) + (1 # 10000000) * b)%Q.

(** Lines 237-239. *)
Definition wrap_component (d b : Q) : Q := (Qmod (d - b / 2) b - b / 2)%Q.

Definition displacement (self : t) (coord ref : vec3) : vec3 :=
  vmap2 wrap_component (vmap2 Qminus coord ref) (box self).

Definition check_dr_overflow (self : t) (coord ref : list vec3) (dr_buffer : Q) : bool :=
  existsb (fun '(c, r) =>
             norm_gt (displacement self c r) (dr_buffer / 2 - (1 # 100))%Q)
          (combine coord ref).

(** Line 230, for one type. *)
Definition padded_capacity (size : Q) (k : Z) : Z :=
  if k =? 0 then 1
  else k + 1 + Z.max (int_of_Q (20 * (size - (12 # 10)))%Q) 0.

(** [(row < len(coord)).sum()] *)
Definition count_below (bound : Z) (row : list Z) : Z :=
  Z.of_nat (List.length (filter (fun v => v <? bound) row)).

Section Engine.

Variable K : Z.
Variable get_mask_by_device : list Z -> list bool.

(** [reorder_by_device] and [split] of module [utils] are not among the
    sources; jax_md's cell list is an external collaborator.  md.py
    imports none of them, nor [get_mask_by_device] and [lax]: they are
    parameters here. *)
Variable reorder_by_device : list vec3 -> list Z -> list vec3.
Variable split : table -> list Z -> Z -> list table.

Variable JNbrs : Type.
Variable idx : JNbrs -> table.
Variable did_buffer_overflow : JNbrs -> bool.
Variable partition_allocate :
  vec3 -> Q -> Q -> (table -> table) -> list vec3 -> JNbrs.
Variable partition_update : JNbrs -> list vec3 -> JNbrs.

Definition mask_fns (self : t) : list (table -> table) :=
  get_type_mask_fns K get_mask_by_device (type_count self).

Definition full_mask_fn (self : t) : table -> table :=
  get_full_mask_fn get_mask_by_device (type_count self).

(** Lines 221-223. *)
Definition canonicalize (self : t) (coord : list vec3) : list vec3 :=
  reorder_by_device
    (map (fun c => vmap2 canonicalize_component c (box self)) coord)
    (type_count self).

(** Line 229 for one mask: [int((fn(idx) < n).sum(1).max() * size)]. *)
Definition measured (self : t) (test_idx : table) (len_coord : Z)
    (fn : table -> table) : result Z :=
  m <- amax (map (count_below len_coord) (fn test_idx)) ;;
  Ok (int_of_Q (inject_Z m * size self)%Q).

(** The per-type maximum of the neighbor counts, line 229 before the
    scaling by [size]. *)
Definition max_counts (self : t) (test_idx : table) (len_coord : Z) : result (list Z) :=
  mapM (fun fn => amax (map (count_below len_coord) (fn test_idx))) (mask_fns self).

(** Lines 229-230: the per-type row widths. *)
Definition measure_knbr (self : t) (test_idx : table) (len_coord : Z)
  : result (list Z) :=
  ks <- mapM (measured self test_idx len_coord) (mask_fns self) ;;
  Ok (map (padded_capacity (size self)) ks).

(** [test_nbr.idx.shape[1]] *)
Definition width (tb : table) : Z :=
  match tb with
  | [] => 0
  | row :: _ => Z.of_nat (List.length row)
  end.

(** [allocate], lines 224-234: the object with [knbr] assigned and the
    neighbor list that is returned. *)
Definition allocate (self : t) (coord : list vec3) : result (t * JNbrs) :=
  let coord := canonicalize self coord in
  let test_nbr :=
    partition_allocate (box self) (rcut self) 1%Q (full_mask_fn self) coord in
  ks <- measure_knbr self (idx test_nbr) (Z.of_nat (List.length coord)) ;;
  let buffer := (inject_Z (sum_list ks + 1) / inject_Z (width (idx test_nbr)))%Q in
  Ok (mk (type_count self) (box self) (rcut self) (size self) (Some ks),
      partition_allocate (box self) (rcut self) buffer (full_mask_fn self) coord).

(** [update], lines 235-236. *)
Definition update (self : t) (coord : list vec3) (nbrs : JNbrs) : JNbrs :=
  partition_update nbrs (canonicalize self coord).

(** Line 244: [-lax.top_k(-fn(nbr_idx), knbr[i])[0]], row by row. *)
Definition smallest_k (k : Z) (row : list Z) : result (list Z) :=
  r <- top_k (map Z.opp row) k ;; Ok (map Z.opp r).

Definition nbrs_idx_of (self : t) (ks : list Z) (nbr_idx : table) : result (list table) :=
  mapM (fun '(i, fn) => mapM (smallest_k (nth i ks 0)) (fn nbr_idx))
       (combine (seq 0 (List.length (mask_fns self))) (mask_fns self)).

(** Line 244 with the row widths of the object. *)
Definition nbrs_idx (self : t) (nbrs : JNbrs) : result (list table) :=
  ks <- get_knbr self ;; nbrs_idx_of self ks (idx nbrs).

(** Lines 247-249, before [split]. *)
Definition remap (self : t) (i : nat) (nbrs : table) : table :=
  map (map (remap_entry K (type_count self) i)) nbrs.

(** Line 250 for one type: [(idx.max(axis=1) < N*K).any()]. *)
Definition type_overflow (self : t) (rows : table) : result bool :=
  maxes <- mapM amax rows ;;
  Ok (existsb (fun m => m <? N_each K (type_count self) * K) maxes).

(** [get_nm], lines 240-251. *)
Definition get_nm (self : t) (nbrs : JNbrs) : result (list (list table) * bool) :=
  ks <- get_knbr self ;;
  nbrs_idx <- nbrs_idx_of self ks (idx nbrs) ;;
  let nbrs_nm :=
    zip_star
      (map (fun '(i, tb) =>
              split (remap self i tb) (type_count_new K (type_count self)) K)
           (combine (seq 0 (List.length nbrs_idx)) nbrs_idx)) in
  flags <- mapM (type_overflow self) nbrs_idx ;;
  Ok (nbrs_nm, existsb (fun b => b) flags || did_buffer_overflow nbrs).

End Engine.

Arguments allocate K get_mask_by_device reorder_by_device {JNbrs}.
Arguments update reorder_by_device {JNbrs}.
Arguments nbrs_idx K get_mask_by_device {JNbrs}.
Arguments get_nm K get_mask_by_device split {JNbrs}.

End NeighborList.

(* ------------------------------------------------------------------ *)
(** ** The example script (examples/simulate.py) *)

(** Scan with a step that cannot fail. *)
Fixpoint pscan {S O : Type} (f : S -> S * O) (init : S) (length : nat) : S * list O :=
  match length with
  | O => (init, [])
  | Datatypes.S n =>
      let '(s, o) := f init in
      let '(s', os) := pscan f s n in
      (s', o :: os)
  end.

(** [a[start::step]] with [k] entries still to skip; [a[s-1::s]] is
    [slice_step s (s - 1) a]. *)
Fixpoint slice_step {A : Type} (step k : nat) (a : list A) : list A :=
  match a with
  | [] => []
  | x :: r =>
      match k with
      | O => x :: slice_step step (step - 1) r
      | S k' => slice_step step k' r
      end
  end.

Module Driver.

Definition Frame : Type := list vec3.

(** Modelled from the spec: [NeighborListLoader] (module
    [deepmd_jax.simulation_utils]) is not among the sources.  Like
    [NeighborList] of md.py it is built from the box, the types, the
    cutoff with its buffer and the buffer-size factor (and the device
    count), keeps them, and allocates with the factor it was built with. *)
Record NeighborListLoader : Type := mkLoader {
  loader_box : vec3;
  loader_type_idx : list Z;
  loader_rcut : list Q;
  loader_size : Q;
  loader_K : Z
}.

(** The settings at the top of the script (lines 28-47, 87). *)
Record Config : Type := mkConfig {
  total_steps : Z;
  print_every : Z;
  save_every : Z;
  use_neighborlist : bool;
  use_model_devi : bool;
  type_idx : list Z;
  rcut_max : Q;
  rcut_buffer : list Q;
  rbuffer_array : list Q;
  box_diag : vec3;
  device_count : Z
}.

(** External collaborators: the integrator state and step of jax_md, the
    neighbor objects and the two operations of the loader, the model
    deviation. *)
Record World : Type := mkWorld {
  State : Type;
  Nbr : Type;
  position : State -> Frame;
  velocity : State -> Frame;
  apply_fn : State -> option (list Nbr) -> State;
  did_buffer_overflow : Nbr -> bool;
  loader_allocate : NeighborListLoader -> Frame -> list Nbr;
  loader_update : NeighborListLoader -> Frame -> list Nbr -> list Nbr;
  compute_model_devi : State -> option (list Nbr) -> Q
}.

(** What the script prints. *)
Inductive message : Type :=
| Report (i : Z)
| SecondOverflow (buffer_size : Q)
| RcutOverflowError
| RcutOverflowDecrease (update_every : Z).

(** What the script writes (lines 180-181). *)
Record Files : Type := mkFiles {
  pos_npy : list Frame;
  vel_npy : list Frame
}.

Inductive control : Type := Next | Break.

Section Loop.

Variable W : World.
Variable cfg : Config.

(** The variables the loop of lines 134-178 reads and assigns. *)
Record LoopState : Type := mkLoop {
  i : Z;
  state : State W;
  nbrs_list : list (Nbr W);
  NBRS_FLAG : bool;
  buffer_size : Q;
  update_every : Z;
  multi_steps : Z;                   (* [steps] captured by [multi_step_fn] *)
  neighborlist : NeighborListLoader;
  pos_traj : list (list Frame);
  vel_traj : list (list Frame);
  model_devi : Q;
  model_devi_traj : list Q;
  printed : list message
}.

Definition nbrs_arg (nl : list (Nbr W)) : option (list (Nbr W)) :=
  if use_neighborlist cfg then Some nl else None.

(** [x % jnp.diag(box)] *)
Definition mod_box (x : Frame) : Frame :=
  map (fun c => vmap2 Qmod c (box_diag cfg)) x.

(** Lines 117-120. *)
Definition step_fn (states : State W * option (list (Nbr W)))
  : (State W * option (list (Nbr W))) * (Frame * Frame) :=
  let '(state, nbrs_list) := states in
  let state := apply_fn W state nbrs_list in
  ((state, nbrs_list), (position W state, velocity W state)).

(** Line 126: the drift of atom [a] between [state.position] and one frame
    of [pos], against half its buffer radius. *)
Definition drift_component (d b : Q) : Q := (Qmod (d - b / 2) b - b / 2)%Q.

Definition frame_overflow (start frame : Frame) : bool :=
  existsb (fun '(s, p, rb) =>
             norm_gt (vmap2 drift_component (vmap2 Qminus s p) (box_diag cfg))
                     (rb / 2)%Q)
          (combine (combine start frame) (rbuffer_array cfg)).

(** Lines 122-127. *)
Definition multi_step_fn (nl : NeighborListLoader) (steps : Z)
    (states : State W * list (Nbr W))
  : (State W * list (Nbr W)) * (list Frame * list Frame * bool) :=
  let '(state, nbrs_list) := states in
  let nbrs_list := loader_update W nl (mod_box (position W state)) nbrs_list in
  let '((state_new, _), outs) :=
    pscan step_fn (state, Some nbrs_list) (Z.to_nat steps) in
  let pos := map fst outs in
  let vel := map snd outs in
  let rcut_overflow := existsb (frame_overflow (position W state)) pos in
  ((state_new, nbrs_list), (pos, vel, rcut_overflow)).

(** Lines 135-146. *)
Definition report (st : LoopState) : LoopState :=
  if i st mod print_every cfg
       <? (if use_neighborlist cfg then update_every st else 1)
  then
    let md :=
      if use_model_devi cfg
      then compute_model_devi W (state st) (nbrs_arg (nbrs_list st))
      else 0%Q in
    mkLoop (i st) (state st) (nbrs_list st) (NBRS_FLAG st) (buffer_size st)
      (update_every st) (multi_steps st) (neighborlist st)
      (pos_traj st) (vel_traj st) md (model_devi_traj st)
      (printed st ++ [Report (i st)])
  else st.

(** Lines 176-178. *)
Definition record_chunk (st : LoopState) (pos vel : list Frame) : LoopState :=
  let s := Z.to_nat (save_every cfg) in
  mkLoop (i st) (state st) (nbrs_list st) (NBRS_FLAG st) (buffer_size st)
    (update_every st) (multi_steps st) (neighborlist st)
    (pos_traj st ++ [slice_step s (s - 1) pos])
    (vel_traj st ++ [slice_step s (s - 1) pos])
    (model_devi st) (model_devi_traj st ++ [model_devi st])
    (printed st).

(** Lines 153-162: the list overflowed during the chunk. *)
Definition on_nbrs_overflow (st : LoopState) : LoopState :=
  let '(flag, bsize, out) :=
    if NBRS_FLAG st
    then
      let buffer_size := (buffer_size st + (5 # 100))%Q in
      let _ := mkLoader (box_diag cfg) (type_idx cfg)
                 (map (Qplus (rcut_max cfg)) (rcut_buffer cfg))
                 buffer_size (device_count cfg) in
      (false, buffer_size, printed st ++ [SecondOverflow buffer_size])
    else (true, buffer_size st, printed st) in
  mkLoop (i st) (state st)
    (loader_allocate W (neighborlist st) (mod_box (position W (state st))))
    flag bsize (update_every st) (multi_steps st) (neighborlist st)
    (pos_traj st) (vel_traj st) (model_devi st) (model_devi_traj st) out.

Definition clear_flag (st : LoopState) : LoopState :=
  mkLoop (i st) (state st) (nbrs_list st) false (buffer_size st)
    (update_every st) (multi_steps st) (neighborlist st)
    (pos_traj st) (vel_traj st) (model_devi st) (model_devi_traj st) (printed st).

(** Lines 164-172: some atom left its buffer during the chunk. *)
Definition on_rcut_overflow (st : LoopState) : LoopState * control :=
  if update_every st =? 1
  then
    (mkLoop (i st) (state st) (nbrs_list st) (NBRS_FLAG st) (buffer_size st)
       (update_every st) (multi_steps st) (neighborlist st)
       (pos_traj st) (vel_traj st) (model_devi st) (model_devi_traj st)
       (printed st ++ [RcutOverflowError]),
     Break)
  else
    let update_every := Z.max (update_every st / 2) 1 in
    (mkLoop (i st) (state st) (nbrs_list st) (NBRS_FLAG st) (buffer_size st)
       update_every update_every (neighborlist st)
       (pos_traj st) (vel_traj st) (model_devi st) (model_devi_traj st)
       (printed st ++ [RcutOverflowDecrease update_every]),
     Next).

(** Lines 173-175. *)
Definition accept_chunk (st : LoopState) (state_new : State W)
    (nbrs_list_new : list (Nbr W)) : LoopState :=
  mkLoop (i st + update_every st * (print_every cfg / update_every st))
    state_new nbrs_list_new (NBRS_FLAG st) (buffer_size st)
    (update_every st) (multi_steps st) (neighborlist st)
    (pos_traj st) (vel_traj st) (model_devi st) (model_devi_traj st) (printed st).

(** Line 152: the compiled chunk in neighbor-list mode. *)
Definition chunk (st : LoopState)
  : (State W * list (Nbr W)) * list (list Frame * list Frame * bool) :=
  pscan (multi_step_fn (neighborlist st) (multi_steps st))
        (state st, nbrs_list st)
        (Z.to_nat (print_every cfg / update_every st)).

(** One pass through the body of the [while] loop (lines 135-178); [Next]
    stands for both [continue] and falling off the end of the body. *)
Definition iteration (st0 : LoopState) : LoopState * control :=
  let st := report st0 in
  if negb (use_neighborlist cfg) then
    let '((state', _), outs) :=
      pscan step_fn (state st, None) (Z.to_nat (print_every cfg)) in
    let st :=
      mkLoop (i st + print_every cfg) state' (nbrs_list st) (NBRS_FLAG st)
        (buffer_size st) (update_every st) (multi_steps st) (neighborlist st)
        (pos_traj st) (vel_traj st) (model_devi st) (model_devi_traj st)
        (printed st) in
    (record_chunk st (map fst outs) (map snd outs), Next)
  else
    let '((state_new, nbrs_list_new), outs) := chunk st in
    let pos := map (fun o => fst (fst o)) outs in
    let vel := map (fun o => snd (fst o)) outs in
    let rcut_overflow := map snd outs in
    if existsb (did_buffer_overflow W) nbrs_list_new then
      (on_nbrs_overflow st, Next)
    else
      let st := clear_flag st in
      if existsb (fun b => b) rcut_overflow then
        on_rcut_overflow st
      else
        let st := accept_chunk st state_new nbrs_list_new in
        (record_chunk st (List.concat pos) (List.concat vel), Next).

(** The [while i < total_steps] loop; [None] when the fuel runs out. *)
Fixpoint loop (fuel : nat) (st : LoopState) : option LoopState :=
  match fuel with
  | O => None
  | S fuel' =>
      if i st <? total_steps cfg then
        match iteration st with
        | (st', Break) => Some st'
        | (st', Next) => loop fuel' st'
        end
      else Some st
  end.

(** Lines 179-181; [np.concatenate] refuses an empty list. *)
Definition save (st : LoopState) : result Files :=
  match pos_traj st with
  | [] => Raise (ValueError "need at least one array to concatenate")
  | _ => Ok (mkFiles (List.concat (pos_traj st)) (List.concat (vel_traj st)))
  end.

(** Lines 87-91, 129, 132-133: the state on entry to the loop. *)
Definition initial (state0 : State W) : LoopState :=
  let update_every := 5 in
  let buffer_size := (12 # 10)%Q in
  let neighborlist :=
    mkLoader (box_diag cfg) (type_idx cfg)
      (map (Qplus (rcut_max cfg)) (rcut_buffer cfg))
      buffer_size (device_count cfg) in
  let nbrs_list :=
    if use_neighborlist cfg
    then loader_allocate W neighborlist (mod_box (position W state0))
    else [] in
  mkLoop 0 state0 nbrs_list false buffer_size update_every update_every
    neighborlist [] [] 0%Q [] [].

Definition main (fuel : nat) (state0 : State W) : option (result Files) :=
  match loop fuel (initial state0) with
  | Some st => Some (save st)
  | None => None
  end.

(** What the host reads off a finished chunk (lines 153 and 164). *)
Definition nbrs_overflowed (st : LoopState) : bool :=
  existsb (did_buffer_overflow W) (snd (fst (chunk st))).

Definition rcut_overflowed (st : LoopState) : bool :=
  existsb (fun b => b) (map snd (snd (chunk st))).

Definition overflow_detected (st : LoopState) : bool :=
  use_neighborlist cfg && (nbrs_overflowed st || rcut_overflowed st).

(** The chunk left no trace in [st']. *)
Definition discarded (st st' : LoopState) : Prop :=
  i st' = i st /\ state st' = state st
  /\ pos_traj st' = pos_traj st /\ vel_traj st' = vel_traj st
  /\ model_devi_traj st' = model_devi_traj st.

End Loop.

Arguments i {W}.
Arguments state {W}.
Arguments nbrs_list {W}.
Arguments NBRS_FLAG {W}.
Arguments buffer_size {W}.
Arguments update_every {W}.
Arguments multi_steps {W}.
Arguments neighborlist {W}.
Arguments pos_traj {W}.
Arguments vel_traj {W}.
Arguments model_devi {W}.
Arguments model_devi_traj {W}.
Arguments printed {W}.
Arguments discarded {W}.

End Driver.

(* ------------------------------------------------------------------ *)
(** ** Statements about the constructor *)

Definition routine_supported (routine : string) : bool :=
  String.eqb routine "NVE" || String.eqb routine "NVT_Nose_Hoover"
  || String.eqb routine "NPT_Nose_Hoover".

Definition missing_parameter (routine : string) (routine_args : dict) : bool :=
  (String.eqb routine "NVT_Nose_Hoover" && negb (dict_mem "temperature" routine_args))
  || (String.eqb routine "NPT_Nose_Hoover"
      && (negb (dict_mem "temperature" routine_args)
          || negb (dict_mem "pressure" routine_args))).

Definition is_none {A : Type} (o : option A) : bool :=
  match o with None => true | Some _ => false end.

(** The cutoff handed to the lattice selector (lines 74 and 79). *)
Definition lattice_rcut (routine : string) (rcut : Q) : Q :=
  if contains "NPT" routine then (rcut + Simulation.dr_buffer_lattice)%Q else rcut.

(** The fatal cases as the specification lists them: a missing routine
    parameter, an unsupported routine, a non-positive box dimension, and
    anything but exactly one of velocity and initial temperature. *)
Definition spec_fatal {V : Type} (box : Box) (routine : string)
    (velocity : option V) (init_temperature : option Q) (routine_args : dict) : bool :=
  missing_parameter routine routine_args
  || negb (routine_supported routine)
  || negb (all_positive (box_lengths box))
  || negb (xorb (is_none velocity) (is_none init_temperature)).

(** The same list with the rule on velocity and initial temperature
    reduced to: neither of them is given. *)
Definition fatal_configuration {V : Type} (box : Box) (routine : string)
    (velocity : option V) (init_temperature : option Q) (routine_args : dict) : bool :=
  missing_parameter routine routine_args
  || negb (routine_supported routine)
  || negb (all_positive (box_lengths box))
  || (is_none velocity && is_none init_temperature).

(* ------------------------------------------------------------------ *)
(** ** Statements about the drift check *)

(** The minimum-image convention in an orthorhombic box: each component of
    a separation is replaced by its periodic image nearest to zero. *)
Definition nearest_image (d b : Q) : Q :=
  (d - b * inject_Z (Qfloor (d / b + (1 # 2))))%Q.

Definition min_image (box coord ref : vec3) : vec3 :=
  vmap2 nearest_image (vmap2 Qminus coord ref) box.

(** Equality of vectors up to the equality of fractions. *)
Definition veq (u v : vec3) : Prop :=
  let '(x, y, z) := u in
  let '(x', y', z') := v in (x == x' /\ y == y' /\ z == z')%Q.

(** The length of [v] is greater than [t]. *)
Definition longer_than (v : vec3) (t : Q) : Prop :=
  (t < 0 \/ t * t < norm_sq v)%Q.

(** The drift check as the specification words it: some atom's
    minimum-image displacement exceeds half the buffer. *)
Definition spec_dr_overflow (box : vec3) (coord ref : list vec3) (dr_buffer : Q) : bool :=
  existsb (fun '(c, r) => norm_gt (min_image box c r) (dr_buffer / 2)%Q)
          (combine coord ref).

(* ------------------------------------------------------------------ *)
(** ** A single-device stand-in for the external collaborators

    Concrete instances on which the statements below are exercised: one
    device, no padding slots, and a cell list that finds the neighbors of
    every atom by exhaustive search (rows padded with the atom count). *)

Module Toy.

Definition devices : Z := 1.

Definition all_real (tc : list Z) : list bool :=
  repeat true (Z.to_nat (sum_list tc)).

Definition keep_order (coord : list vec3) (tc : list Z) : list vec3 := coord.

Definition one_block (tb : table) (tcn : list Z) (K : Z) : list table := [tb].

Definition neighbors_of (box : vec3) (rcut : Q) (coord : list vec3)
    (i : nat) (ci : vec3) : list Z :=
  let n := List.length coord in
  let hits :=
    filter (fun '(j, cj) =>
              negb (Nat.eqb j i)
              && Qltb (norm_sq (min_image box ci cj)) (rcut * rcut)%Q)
           (combine (seq 0 n) coord) in
  map (fun h => Z.of_nat (fst h)) hits
  ++ repeat (Z.of_nat n) (n - List.length hits).

Definition cell_list (box : vec3) (rcut : Q) (capacity_multiplier : Q)
    (mask : table -> table) (coord : list vec3) : table :=
  mask (map (fun '(i, ci) => neighbors_of box rcut coord i ci)
            (combine (seq 0 (List.length coord)) coord)).

Definition never_overflows (nbrs : table) : bool := false.

Definition allocate :=
  NeighborList.allocate devices all_real keep_order (fun nbrs : table => nbrs) cell_list.

Definition get_nm :=
  NeighborList.get_nm devices all_real one_block (fun nbrs : table => nbrs)
    never_overflows.

Definition nbrs_idx :=
  NeighborList.nbrs_idx devices all_real (fun nbrs : table => nbrs).

(** Four atoms of one type in a box of side 10, cutoff 1.2, buffer factor
    1.2: a corner atom with three neighbors. *)
Definition fresh : NeighborList.t :=
  NeighborList.new (10, 10, 10)%Q [4] (12 # 10) (12 # 10).

Definition star : list vec3 :=
  [(1, 1, 1); (2, 1, 1); (1, 2, 1); (1, 1, 2)]%Q.

(** The table the cell list builds for that configuration. *)
Definition star_table : table :=
  [[1; 2; 3; 4]; [0; 4; 4; 4]; [0; 4; 4; 4]; [0; 4; 4; 4]].

(** The rows [get_nm] keeps of [star_table] at row width 2. *)
Definition star_table_kept : table := [[1; 2]; [0; 4]; [0; 4]; [0; 4]].

(** An object whose rows are two wide. *)
Definition narrow : NeighborList.t :=
  NeighborList.mk [4] (10, 10, 10)%Q (12 # 10) (12 # 10) (Some [2]).

(** A world for the example script: free flight with unit time step; a
    neighbor object remembers the buffer factor of the loader that
    allocated it, and overflows whenever the world is [crowded]. *)
Definition fly (s : Driver.Frame * Driver.Frame) (nbrs : option (list Q))
  : Driver.Frame * Driver.Frame :=
  (map (fun pv => vmap2 Qplus (fst pv) (snd pv)) (combine (fst s) (snd s)), snd s).

Definition world (crowded : bool) : Driver.World :=
  Driver.mkWorld (Driver.Frame * Driver.Frame) Q fst snd fly
    (fun _ => crowded)
    (fun loader _ => [Driver.loader_size loader])
    (fun _ _ nbrs => nbrs)
    (fun _ _ => 0%Q).

Definition settings (use_neighborlist : bool) : Driver.Config :=
  Driver.mkConfig 10 10 1 use_neighborlist false [0; 1] 6 [6 # 10] [6 # 10]
    (10, 10, 10)%Q 1.

Definition short_run : Driver.Config :=
  Driver.mkConfig 2 2 1 false false [0; 1] 6 [6 # 10] [6 # 10] (10, 10, 10)%Q 1.

Definition state0 : Driver.Frame * Driver.Frame :=
  ([(0, 0, 0)%Q], [(1, 0, 0)%Q]).

End Toy.

(** The order [top_k] returns its entries in. *)
Definition descending : Z -> Z -> Prop := fun a b => b <= a.

(* ------------------------------------------------------------------ *)
(** ** Keyword arguments on which the statements are exercised *)

Definition nvt_args : dict :=
  [("tau"%string, 480%Q); ("temperature"%string, 350%Q)].

Definition npt_args : dict :=
  [("pressure"%string, 1%Q); ("temperature"%string, 350%Q)].

(* ------------------------------------------------------------------ *)
(** ** States the loop of the script passes through *)

(** The loop variables after [n] passes through the body. *)
Definition after_iterations (W : Driver.World) (cfg : Driver.Config) (n : nat)
    (st : Driver.LoopState W) : Driver.LoopState W :=
  Nat.iter n (fun s => fst (Driver.iteration W cfg s)) st.

(** A slow atom: it leaves no buffer within a chunk. *)
Definition slow_state : Driver.Frame * Driver.Frame :=
  ([(0, 0, 0)%Q], [(1 # 100, 0, 0)%Q]).

(* ------------------------------------------------------------------ *)
(** ** The loop of the script on the neighbor list of md.py *)

Module EngineRun.

Definition Qmax2 (a b : Q) : Q := if Qle_bool a b then b else a.

(** [type_idx] of the script holds the offsets of the types (line 47):
    type [i] has [type_idx[i+1] - type_idx[i]] atoms. *)
Definition type_count_of (type_idx : list Z) : list Z :=
  map (fun p => snd p - fst p) (combine type_idx (tl type_idx)).

(** Modelled from the spec: [NeighborListLoader.allocate] and
    [NeighborListLoader.update] (module [deepmd_jax.simulation_utils]) are
    not among the sources.  Section 4.2 describes them as
    [NeighborList.allocate] and [NeighborList.update] of md.py perform
    them: allocation builds a trial table, measures the maximum neighbor
    count per type and sets the row widths from it; update refreshes the
    table without resizing.  The loader is taken to be that object, built
    from the loader's box, its per-type atom counts, the largest of its
    cutoffs and its buffer factor; an entry of [nbrs_list] is the allocated
    object (which holds the row widths) together with its table.  An
    allocation that raises ends the script: it leaves no list. *)
Definition object_of (nl : Driver.NeighborListLoader) : NeighborList.t :=
  NeighborList.new (Driver.loader_box nl)
    (type_count_of (Driver.loader_type_idx nl))
    (fold_right Qmax2 0%Q (Driver.loader_rcut nl))
    (Driver.loader_size nl).

Section World.

Variable get_mask_by_device : list Z -> list bool.
Variable reorder_by_device : list vec3 -> list Z -> list vec3.
Variable JNbrs : Type.
Variable idx : JNbrs -> table.
Variable did_buffer_overflow : JNbrs -> bool.
Variable partition_allocate :
  vec3 -> Q -> Q -> (table -> table) -> list vec3 -> JNbrs.
Variable partition_update : JNbrs -> list vec3 -> JNbrs.

Definition allocated : Type := (NeighborList.t * JNbrs)%type.

Variable State : Type.
Variable position : State -> Driver.Frame.
Variable velocity : State -> Driver.Frame.
Variable apply_fn : State -> option (list allocated) -> State.
Variable compute_model_devi : State -> option (list allocated) -> Q.

Definition allocate_at (nl : Driver.NeighborListLoader) (coord : Driver.Frame)
  : result allocated :=
  NeighborList.allocate (Driver.loader_K nl) get_mask_by_device reorder_by_device
    idx partition_allocate (object_of nl) coord.

Definition loader_allocate (nl : Driver.NeighborListLoader) (coord : Driver.Frame)
  : list allocated :=
  match allocate_at nl coord with
  | Ok a => [a]
  | Raise _ => []
  end.

Definition loader_update (nl : Driver.NeighborListLoader) (coord : Driver.Frame)
    (nbrs : list allocated) : list allocated :=
  map (fun a => (fst a,
                 NeighborList.update reorder_by_device partition_update
                   (fst a) coord (snd a)))
      nbrs.

Definition world : Driver.World :=
  Driver.mkWorld State allocated position velocity apply_fn
    (fun a => did_buffer_overflow (snd a))
    loader_allocate loader_update compute_model_devi.

(** The per-type row widths of the lists the loop holds. *)
Definition capacity (nbrs : list allocated) : list (option (list Z)) :=
  map (fun a => NeighborList.knbr (fst a)) nbrs.

(** The per-type maximum neighbor counts an allocation at [coord] measures
    on its trial table (md.py, lines 226-229). *)
Definition counts_at (nl : Driver.NeighborListLoader) (coord : Driver.Frame)
  : result (list Z) :=
  let self := object_of nl in
  let coord := NeighborList.canonicalize reorder_by_device self coord in
  NeighborList.max_counts (Driver.loader_K nl) get_mask_by_device self
    (idx (partition_allocate (NeighborList.box self) (NeighborList.rcut self) 1%Q
            (NeighborList.full_mask_fn get_mask_by_device self) coord))
    (Z.of_nat (List.length coord)).

End World.

End EngineRun.

(* ------------------------------------------------------------------ *)
(** ** Runs in which atoms gather

    A stand-in for the neighbor list of jax_md with rows of bounded width:
    the neighbors of every atom are found by exhaustive search, a row keeps
    the first [width] of them, and the list has overflowed once some atom
    has more neighbors than its row holds.  Allocation sets the width from
    the capacity multiplier; update keeps it. *)

Module Cluster.

Record bounded : Type := mkBounded {
  b_box : vec3;
  b_rcut : Q;
  b_mask : table -> table;
  b_width : nat;
  b_idx : table;
  b_overflow : bool
}.

(** Fractions are kept in lowest terms. *)
Definition red3 (v : vec3) : vec3 :=
  let '(x, y, z) := v in (Qred x, Qred y, Qred z).

Definition within (box : vec3) (rcut : Q) (ci cj : vec3) : bool :=
  Qltb (norm_sq (red3 (min_image box ci cj))) (rcut * rcut)%Q.

Definition neighbors_of (box : vec3) (rcut : Q) (coord : list vec3)
    (i : nat) (ci : vec3) : list Z :=
  let n := List.length coord in
  let hits :=
    filter (fun '(j, cj) => negb (Nat.eqb j i) && within box rcut ci cj)
           (combine (seq 0 n) coord) in
  map (fun h => Z.of_nat (fst h)) hits
  ++ repeat (Z.of_nat n) (n - List.length hits).

Definition search (box : vec3) (rcut : Q) (coord : list vec3) : table :=
  let coord := map red3 coord in
  map (fun '(i, ci) => neighbors_of box rcut coord i ci)
      (combine (seq 0 (List.length coord)) coord).

Definition build (box : vec3) (rcut : Q) (mask : table -> table) (width : nat)
    (overflowed : bool) (coord : list vec3) : bounded :=
  let n := Z.of_nat (List.length coord) in
  let full := search box rcut coord in
  mkBounded box rcut mask width
    (mask (map (fun row => firstn width (row ++ repeat n width)) full))
    (overflowed
     || existsb (fun row => Z.of_nat width <? NeighborList.count_below n row) full).

Definition allocate_bounded (box : vec3) (rcut capacity_multiplier : Q)
    (mask : table -> table) (coord : list vec3) : bounded :=
  build box rcut mask
    (Z.to_nat (int_of_Q (inject_Z (Z.of_nat (List.length coord))
                         * capacity_multiplier)%Q))
    false coord.

Definition update_bounded (nbrs : bounded) (coord : list vec3) : bounded :=
  build (b_box nbrs) (b_rcut nbrs) (b_mask nbrs) (b_width nbrs)
    (b_overflow nbrs) coord.

(** Free flight with unit time step. *)
Definition fly {N : Type} (s : Driver.Frame * Driver.Frame) (nbrs : option N)
  : Driver.Frame * Driver.Frame :=
  (map (fun pv => vmap2 Qplus (fst pv) (snd pv)) (combine (fst s) (snd s)), snd s).

Definition world : Driver.World :=
  EngineRun.world Toy.all_real Toy.keep_order bounded b_idx b_overflow
    allocate_bounded update_bounded
    (Driver.Frame * Driver.Frame) fst snd fly (fun _ _ => 0%Q).

(** Eight atoms of one type in a box of side 250, cutoff 13 with buffer
    12: one at rest in the middle, five at distance 37 from it that
    approach it by 1 per step, and two more at rest, [e1] and [e2]. *)
Definition atoms (e1 e2 : vec3) : Driver.Frame :=
  [(125, 125, 125); (162, 125, 125); (88, 125, 125); (125, 162, 125);
   (125, 88, 125); (125, 125, 162); e1; e2]%Q.

Definition velocities : Driver.Frame :=
  [(0, 0, 0); (-1, 0, 0); (1, 0, 0); (0, -1, 0);
   (0, 1, 0); (0, 0, -1); (0, 0, 0); (0, 0, 0)]%Q.

(** The two atoms at rest start next to the second atom, which leaves
    them. *)
Definition thinning : Driver.Frame * Driver.Frame :=
  (atoms (180, 125, 125)%Q (180, 131, 125)%Q, velocities).

(** The two atoms at rest lie where the second atom arrives. *)
Definition thickening : Driver.Frame * Driver.Frame :=
  (atoms (152, 125, 149)%Q (152, 131, 149)%Q, velocities).

Definition settings : Driver.Config :=
  Driver.mkConfig 100 10 1 true false [0; 8] 13 [12%Q] (repeat 12%Q 8)
    (250, 250, 250)%Q 1.

Definition counts_at :=
  EngineRun.counts_at Toy.all_real Toy.keep_order bounded b_idx allocate_bounded.

(** The overflow flag [get_nm] returns for an entry of [nbrs_list]. *)
Definition get_nm_flag (a : NeighborList.t * bounded) : result bool :=
  r <- NeighborList.get_nm Toy.devices Toy.all_real Toy.one_block b_idx b_overflow
         (fst a) (snd a) ;;
  Ok (snd r).

End Cluster.

(* ------------------------------------------------------------------ *)
(** ** A step counter for the inner step of class Simulation

    The integrator state is the number of steps taken, which is also its
    position and velocity; the neighbor object is its own overflow flag. *)

Module Ticker.

Definition static_args : StaticArgs unit := mkStaticArgs [1] None true.

Definition chunk :=
  Simulation.run_chunk (fun s : Z => s) (fun s : Z => s) (fun _ : Z => (1, 1, 1)%Q)
    (fun _ : bool => 0) (fun _ : bool => tt) (fun nb : bool => nb)
    (fun (nb : bool) (_ : Z) (_ : option vec3) => nb)
    (fun (s : Z) (_ : vec3) (_ : option unit) (_ : StaticArgs unit) => s + 1)
    "NVE" (1, 1, 1)%Q static_args.

End Ticker.

(* ================================================================== *)
(** * Properties *)

(* ------------------------------------------------------------------ *)
(** ** Unit conversion *)

Lemma mass_factor_agrees :
  (Units.simulate_mass_factor == Units.mass_unit_convertion)%Q.
Proof. reflexivity. Qed.

(** C8: the temperature factor written in the example script
    (8.61733e-5, simulate.py line 34) is not the constant of md.py
    (8.617333e-5); the 350 K of the script converts to a different value
    than md.py's conversion of 350 K.  The mass factor is the same at both
    sites. *)
Theorem temperature_factor_differs_between_sites :
  Qeq_bool Units.simulate_temp_factor Units.temperature_unit_convertion = false
  /\ Qeq_bool Units.simulate_temp (Units.kT_of_kelvin 350) = false
  /\ Qltb Units.simulate_temp (Units.kT_of_kelvin 350) = true
  /\ Qeq_bool Units.simulate_mass_factor Units.mass_unit_convertion = true.
Proof. cbv zeta. repeat apply conj; vm_compute; reflexivity. Qed.

(* ------------------------------------------------------------------ *)
(** ** Mode selection *)

Lemma check_if_use_neighbor_list_false (box : Box) (rcut : Q) :
  check_if_use_neighbor_list box rcut = false.
Proof. unfold check_if_use_neighbor_list. destruct (shape_is_3x3 box); reflexivity. Qed.

Lemma get_static_args_lattice_mode (Lattice : Type)
    (compute_lattice_candidate : Box -> Q -> result Lattice)
    (rcut : Q) (tc : list Z) (box : Box) (sa : StaticArgs Lattice) :
  get_static_args compute_lattice_candidate rcut tc box = Ok sa ->
  use_neighbor_list sa = false.
Proof.
  unfold get_static_args.
  rewrite check_if_use_neighbor_list_false.
  destruct (compute_lattice_candidate box rcut); simpl; intros H;
    inversion H; reflexivity.
Qed.

(** C2: the mode-selection function answers false for every box and
    cutoff.  For the orthorhombic box of side 10 and cutoff 2 the rule of
    the specification selects the neighbor list (2 * 2 < 10), the code
    selects lattice enumeration. *)
Theorem mode_selection_never_neighbor_list :
  (forall box rcut, check_if_use_neighbor_list box rcut = false)
  /\ spec_use_neighbor_list (BoxVec (10, 10, 10)%Q) 2 = true
  /\ check_if_use_neighbor_list (BoxVec (10, 10, 10)%Q) 2 = false
  /\ get_static_args (fun _ _ => Ok tt) 2 [4] (BoxVec (10, 10, 10)%Q)
     = Ok (mkStaticArgs [4] (Some tt) false).
Proof.
  split; [ exact check_if_use_neighbor_list_false | ].
  repeat split; reflexivity.
Qed.

(* ------------------------------------------------------------------ *)
(** ** The inner step of class Simulation *)

Lemma scan_succ {S O : Type} (f : S -> result (S * O)) (init : S) (n : nat) :
  scan f init (Datatypes.S n)
  = (r <- f init ;; rest <- scan f (fst r) n ;; Ok (fst rest, snd r :: snd rest)).
Proof. reflexivity. Qed.

(** A property of the carry that every successful step preserves holds
    after a successful scan. *)
Lemma scan_invariant {S O : Type} (f : S -> result (S * O)) (P : S -> Prop) :
  (forall s s' o, P s -> f s = Ok (s', o) -> P s') ->
  forall n init s outs, P init -> scan f init n = Ok (s, outs) -> P s.
Proof.
  intros Hstep. induction n as [| n IH]; intros init s outs Hinit H.
  - simpl in H. inversion H; subst; assumption.
  - rewrite scan_succ in H.
    destruct (f init) as [[s1 o1] |] eqn:E1; simpl in H; [ | discriminate ].
    destruct (scan f s1 n) as [[s2 os] |] eqn:E2; simpl in H; [ | discriminate ].
    inversion H; subst.
    eapply IH; [ eapply Hstep; eauto | eauto ].
Qed.

(** A scan whose step succeeds on every carry that satisfies an invariant
    succeeds, and its outputs satisfy what each step promises. *)
Lemma scan_total {S O : Type} (f : S -> result (S * O))
    (P : S -> Prop) (R : O -> Prop) :
  (forall s, P s -> exists s' o, f s = Ok (s', o) /\ P s' /\ R o) ->
  forall n init, P init ->
    exists s outs, scan f init n = Ok (s, outs) /\ P s
                   /\ List.length outs = n /\ Forall R outs.
Proof.
  intros Hstep. induction n as [| n IH]; intros init Hinit.
  - exists init, []. simpl. repeat split; auto.
  - destruct (Hstep init Hinit) as (s1 & o1 & E1 & P1 & R1).
    destruct (IH s1 P1) as (s2 & os & E2 & P2 & L & F).
    exists s2, (o1 :: os). rewrite scan_succ, E1. simpl. rewrite E2. simpl.
    repeat split; auto.
Qed.

Section InnerStepFacts.

Variables State Position Velocity NbrsNm Nbrs Lattice : Type.
Variable position : State -> Position.
Variable velocity : State -> Velocity.
Variable state_box : State -> vec3.
Variable reference_position : Nbrs -> Position.
Variable nbrs_nm : Nbrs -> NbrsNm.
Variable did_buffer_overflow : Nbrs -> bool.
Variable update : Nbrs -> Position -> option vec3 -> Nbrs.
Variable apply_fn : State -> vec3 -> option NbrsNm -> StaticArgs Lattice -> State.
Variable routine : string.
Variable self_reference_box : vec3.
Variable self_static_args : StaticArgs Lattice.

Let step := Simulation.inner_step position velocity state_box reference_position
              nbrs_nm did_buffer_overflow update apply_fn routine
              self_reference_box self_static_args.
Let step_traced := Simulation.inner_step_traced position velocity state_box
              reference_position nbrs_nm did_buffer_overflow update apply_fn
              routine self_reference_box self_static_args.
Let chunk := Simulation.run_chunk position velocity state_box reference_position
              nbrs_nm did_buffer_overflow update apply_fn routine
              self_reference_box self_static_args.
Let chunk_traced := Simulation.run_chunk_traced position velocity state_box
              reference_position nbrs_nm did_buffer_overflow update apply_fn
              routine self_reference_box self_static_args.

Lemma inner_step_traced_some st nb ov :
  exists st' ov' out,
    step_traced (st, Some nb, ov) = Ok ((st', Some nb, ov'), out, false).
Proof.
  unfold step_traced, Simulation.inner_step_traced. simpl.
  destruct ov as [[a b] c]. simpl.
  destruct (use_neighbor_list self_static_args); eauto.
Qed.

Lemma inner_step_traced_none st ov :
  step_traced (st, None, ov) = Raise (AttributeError "reference_position").
Proof. reflexivity. Qed.

Lemma inner_step_some st nb ov :
  exists st' ov' out, step (st, Some nb, ov) = Ok ((st', Some nb, ov'), out).
Proof.
  destruct (inner_step_traced_some st nb ov) as (st' & ov' & o & E).
  exists st', ov', o. unfold step, Simulation.inner_step.
  unfold step_traced in E. rewrite E. reflexivity.
Qed.

Lemma inner_step_keeps_table c c' out :
  step c = Ok (c', out) -> snd (fst c') = snd (fst c).
Proof.
  destruct c as [[st [nb |]] ov].
  - destruct (inner_step_some st nb ov) as (st' & ov' & o & E).
    rewrite E. intros H; inversion H; reflexivity.
  - unfold step, Simulation.inner_step.
    change (Simulation.inner_step_traced position velocity state_box
              reference_position nbrs_nm did_buffer_overflow update apply_fn
              routine self_reference_box self_static_args (st, None, ov))
      with (step_traced (st, None, ov)).
    rewrite inner_step_traced_none. simpl. discriminate.
Qed.

Lemma run_chunk_keeps_table n c c' outs :
  chunk c n = Ok (c', outs) -> snd (fst c') = snd (fst c).
Proof.
  unfold chunk, Simulation.run_chunk. fold step. intros H.
  apply (scan_invariant step (fun x => snd (fst x) = snd (fst c)))
    with (n := n) (init := c) (outs := outs); auto.
  intros s s' o Hs E. rewrite <- Hs. eapply inner_step_keeps_table; eauto.
Qed.

Lemma run_chunk_traced_some n st nb ov :
  exists st' ov' outs,
    chunk_traced (st, Some nb, ov) n = Ok ((st', Some nb, ov'), outs)
    /\ List.length outs = n
    /\ Forall (fun o => snd o = false) outs.
Proof.
  unfold chunk_traced, Simulation.run_chunk_traced. fold step_traced.
  destruct (scan_total
              (fun s => r <- step_traced s ;; Ok (fst (fst r), (snd (fst r), snd r)))
              (fun x => snd (fst x) = Some nb)
              (fun o => snd o = false)) with (n := n) (init := (st, Some nb, ov))
    as (s & outs & E & P & L & F).
  - intros [[st0 nb0] ov0] Hs. simpl in Hs. subst nb0.
    destruct (inner_step_traced_some st0 nb ov0) as (st1 & ov1 & o1 & E).
    rewrite E. simpl. eauto 6.
  - reflexivity.
  - destruct s as [[st' nb'] ov']. simpl in P. subst nb'.
    exists st', ov', outs. auto.
Qed.

Lemma run_chunk_some n st nb ov :
  exists st' ov' outs,
    chunk (st, Some nb, ov) n = Ok ((st', Some nb, ov'), outs)
    /\ List.length outs = n.
Proof.
  unfold chunk, Simulation.run_chunk. fold step.
  destruct (scan_total step (fun x => snd (fst x) = Some nb) (fun _ => True))
    with (n := n) (init := (st, Some nb, ov)) as (s & outs & E & P & L & F).
  - intros [[st0 nb0] ov0] Hs. simpl in Hs. subst nb0.
    destruct (inner_step_some st0 nb ov0) as (st1 & ov1 & o1 & E).
    rewrite E. simpl. eauto 6.
  - reflexivity.
  - destruct s as [[st' nb'] ov']. simpl in P. subst nb'.
    exists st', ov', outs. auto.
Qed.

(** C10: [check_soft_overflow] answers false on every input; a chunk of
    any length started with a neighbor list runs to its end with that same
    list in the carry, and the refresh branch is taken at none of its
    steps; whenever a chunk returns at all, the list in its carry is the
    one it was started with. *)
Theorem soft_overflow_never_refreshes :
  (forall (p r : Position) (b : vec3), Simulation.check_soft_overflow p r b = false)
  /\ (forall n st nb ov, exists st' ov' outs,
        chunk_traced (st, Some nb, ov) n = Ok ((st', Some nb, ov'), outs)
        /\ List.length outs = n
        /\ Forall (fun o => snd o = false) outs)
  /\ (forall n st nb ov, exists st' ov' outs,
        chunk (st, Some nb, ov) n = Ok ((st', Some nb, ov'), outs)
        /\ List.length outs = n)
  /\ (forall n c c' outs, chunk c n = Ok (c', outs) -> snd (fst c') = snd (fst c)).
Proof.
  split; [ reflexivity | ].
  split; [ intros; apply run_chunk_traced_some | ].
  split; [ intros; apply run_chunk_some | ].
  intros n c c' outs. apply run_chunk_keeps_table.
Qed.

End InnerStepFacts.

(* ------------------------------------------------------------------ *)
(** ** The constructor of class Simulation *)

Lemma dict_mem_get (k : string) (d : dict) :
  dict_mem k d = negb (is_none (dict_get k d)).
Proof.
  induction d as [| [k' v] d IH]; simpl; [ reflexivity | ].
  destruct (String.eqb k k'); [ reflexivity | exact IH ].
Qed.

Lemma dict_get_remove_other (k k' : string) (d : dict) :
  String.eqb k k' = false -> dict_get k (dict_remove k' d) = dict_get k d.
Proof.
  intros Hne. induction d as [| [k0 v] d IH]; simpl; [ reflexivity | ].
  destruct (String.eqb k' k0) eqn:E1.
  - apply String.eqb_eq in E1. subst k0. rewrite Hne. exact IH.
  - simpl. destruct (String.eqb k k0); [ reflexivity | exact IH ].
Qed.

Lemma dict_pop_mem (k : string) (d : dict) :
  dict_mem k d = true -> exists v, dict_pop k d = Some (v, dict_remove k d).
Proof.
  rewrite dict_mem_get. unfold dict_pop.
  destruct (dict_get k d) as [v |]; simpl; [ eauto | discriminate ].
Qed.

Lemma reference_box_of_lengths (box : Box) (rb : vec3) :
  Simulation.reference_box_of box = Some rb -> rb = box_lengths box.
Proof.
  unfold Simulation.reference_box_of.
  destruct box as [a | v | r0 r1 r2].
  - simpl. intros H; inversion H; reflexivity.
  - simpl. discriminate.
  - cbn [shape_is_3x3 andb].
    destruct (is_orthorhombic (BoxMat r0 r1 r2)); intros H;
      [ inversion H; reflexivity | discriminate ].
Qed.

Lemma select_routine_ok (routine : string) (routine_args : dict) :
  is_ok (Simulation.select_routine routine routine_args)
  = routine_supported routine && negb (missing_parameter routine routine_args).
Proof.
  unfold Simulation.select_routine, routine_supported, missing_parameter.
  destruct (String.eqb routine "NVE") eqn:E0.
  - apply String.eqb_eq in E0. subst routine. reflexivity.
  - destruct (String.eqb routine "NVT_Nose_Hoover") eqn:E1.
    + apply String.eqb_eq in E1. subst routine. simpl.
      destruct (dict_mem "temperature" routine_args) eqn:M; simpl; [ | reflexivity ].
      destruct (dict_pop_mem _ _ M) as (v & Hp). rewrite Hp. reflexivity.
    + destruct (String.eqb routine "NPT_Nose_Hoover") eqn:E2; [ | reflexivity ].
      simpl.
      destruct (dict_mem "temperature" routine_args) eqn:M; simpl; [ | reflexivity ].
      destruct (dict_mem "pressure" routine_args) eqn:M'; simpl; [ | reflexivity ].
      destruct (dict_pop_mem _ _ M) as (v & Hp). rewrite Hp.
      assert (M2 : dict_mem "pressure" (dict_remove "temperature" routine_args) = true).
      { rewrite dict_mem_get, dict_get_remove_other by reflexivity.
        rewrite <- dict_mem_get. exact M'. }
      destruct (dict_pop_mem _ _ M2) as (v' & Hp'). rewrite Hp'. reflexivity.
Qed.

(** The constructor succeeds exactly when something initialises the
    velocities, the lattice selector accepts the reference box, and the
    routine is known and has its parameters. *)
Lemma init_ok (Lattice : Type)
    (compute_lattice_candidate : Box -> Q -> result Lattice) (V : Type)
    (tc : list Z) (rcut : Q) (box : Box) (mass : list Q) (routine : string)
    (velocity : option V) (init_temperature : option Q) (routine_args : dict)
    (rb : vec3) :
  Simulation.reference_box_of box = Some rb ->
  is_ok (Simulation.init compute_lattice_candidate tc rcut box mass routine
           velocity init_temperature routine_args)
  = negb (is_none velocity && is_none init_temperature)
    && is_ok (compute_lattice_candidate (BoxVec rb) (lattice_rcut routine rcut))
    && routine_supported routine
    && negb (missing_parameter routine routine_args).
Proof.
  intros Erb.
  assert (Hgo :
    is_ok (refbox <- Simulation.get_reference_box (Some rb) ;;
           sargs <- get_static_args compute_lattice_candidate
                      (if contains "NPT" routine
                       then (rcut + Simulation.dr_buffer_lattice)%Q else rcut)
                      tc (BoxVec refbox) ;;
           _ <- (if use_neighbor_list sargs
                 then Raise (AttributeError "position") else Ok tt) ;;
           sel <- Simulation.select_routine routine routine_args ;;
           Ok (Simulation.mkSimulation refbox sargs (fst sel) (snd sel)
                 (map Units.mass_of_amu mass)
                 (Units.kT_of_kelvin
                    match init_temperature with Some T => T | None => 0%Q end)))
    = is_ok (compute_lattice_candidate (BoxVec rb) (lattice_rcut routine rcut))
      && routine_supported routine
      && negb (missing_parameter routine routine_args)).
  { simpl. unfold get_static_args, lattice_rcut.
    rewrite check_if_use_neighbor_list_false.
    destruct (compute_lattice_candidate (BoxVec rb) _); simpl; [ | reflexivity ].
    pose proof (select_routine_ok routine routine_args) as Hsel.
    destruct (Simulation.select_routine routine routine_args);
      destruct (routine_supported routine),
               (missing_parameter routine routine_args);
      simpl in *; congruence. }
  unfold Simulation.init. rewrite Erb.
  destruct velocity as [v |], init_temperature as [T |]; simpl is_none;
    simpl andb; simpl negb; try exact Hgo.
  reflexivity.
Qed.

(** C7, as the claim states it, fails: with both a velocity and an initial
    temperature supplied (and nothing else wrong) the constructor
    succeeds, although exactly one of the two is not what was given. *)
Lemma init_accepts_velocity_and_temperature :
  spec_fatal (BoxScalar 10) "NVE" (Some tt) (Some 300%Q) [] = true
  /\ is_ok (Simulation.init (spec_compute_lattice_candidate (fun _ _ => tt))
              [4] 6 (BoxScalar 10) [1; 1; 1; 1]%Q
              "NVE" (Some tt) (Some 300%Q) []) = true.
Proof. split; vm_compute; reflexivity. Qed.

(** C7, amended: for a box the constructor takes a reference box from (a
    scalar or a diagonal 3x3 matrix), construction raises exactly when a
    required routine parameter is missing, the routine is not one of the
    three, a box dimension is not positive, or neither a velocity nor an
    initial temperature is given. *)
Theorem init_raises_iff_fatal_configuration
    (Lattice : Type) (lattice_of : Box -> Q -> Lattice) (V : Type)
    (tc : list Z) (rcut : Q) (box : Box) (mass : list Q) (routine : string)
    (velocity : option V) (init_temperature : option Q) (routine_args : dict) :
  Simulation.reference_box_of box <> None ->
  (is_ok (Simulation.init (spec_compute_lattice_candidate lattice_of)
            tc rcut box mass routine velocity init_temperature routine_args) = false
   <-> fatal_configuration box routine velocity init_temperature routine_args = true).
Proof.
  intros Hbox.
  destruct (Simulation.reference_box_of box) as [rb |] eqn:Erb; [ | congruence ].
  rewrite (init_ok _ _ V tc rcut box mass routine velocity init_temperature
             routine_args rb Erb).
  unfold fatal_configuration, spec_compute_lattice_candidate.
  simpl box_lengths. rewrite <- (reference_box_of_lengths _ _ Erb).
  destruct (is_none velocity && is_none init_temperature),
           (all_positive rb),
           (routine_supported routine),
           (missing_parameter routine routine_args);
    simpl; split; congruence.
Qed.

Lemma init_raises_iff_fatal_configuration_witness :
  Simulation.reference_box_of (BoxScalar 10) <> None
  /\ (is_ok (Simulation.init (spec_compute_lattice_candidate (fun _ _ => tt))
               [4] 6 (BoxScalar 10) [1; 1; 1; 1]%Q
               "NVT_Nose_Hoover" (Some tt) None []) = false
      <-> fatal_configuration (BoxScalar 10) "NVT_Nose_Hoover" (Some tt) None [] = true).
Proof.
  split.
  - simpl. discriminate.
  - apply (init_raises_iff_fatal_configuration unit (fun _ _ => tt) unit
             [4] 6 (BoxScalar 10) [1; 1; 1; 1]%Q "NVT_Nose_Hoover" (Some tt) None []).
    simpl. discriminate.
Defined.

(* ------------------------------------------------------------------ *)
(** ** The drift check of the neighbor list *)

Lemma Qltb_lt (a b : Q) : Qltb a b = true <-> (a < b)%Q.
Proof.
  unfold Qltb. rewrite negb_true_iff. split.
  - intros H. apply Qnot_le_lt. intros Hle.
    apply Qle_bool_iff in Hle. congruence.
  - intros H. destruct (Qle_bool b a) eqn:E; [ | reflexivity ].
    apply Qle_bool_iff in E. exfalso. exact (Qlt_not_le _ _ H E).
Qed.

Lemma norm_gt_longer (v : vec3) (t : Q) :
  norm_gt v t = true <-> longer_than v t.
Proof.
  unfold norm_gt, longer_than. rewrite orb_true_iff, !Qltb_lt. reflexivity.
Qed.

Lemma Qfloor_unique (x : Q) (z : Z) :
  (inject_Z z <= x)%Q -> (x < inject_Z (z + 1))%Q -> Qfloor x = z.
Proof.
  intros Hle Hlt.
  assert (H1 : z <= Qfloor x).
  { rewrite <- (Qfloor_Z z). apply Qfloor_resp_le. exact Hle. }
  assert (H2 : Qfloor x < z + 1).
  { rewrite Zlt_Qlt. eapply Qle_lt_trans; [ apply Qfloor_le | exact Hlt ]. }
  lia.
Qed.

Lemma Qfloor_succ (x : Q) : Qfloor (x + 1) = Qfloor x + 1.
Proof.
  apply Qfloor_unique.
  - rewrite inject_Z_plus. apply Qplus_le_compat; [ apply Qfloor_le | apply Qle_refl ].
  - replace (Qfloor x + 1 + 1) with ((Qfloor x + 1) + 1) by lia.
    rewrite (inject_Z_plus (Qfloor x + 1) 1).
    apply Qplus_lt_le_compat; [ apply Qlt_floor | apply Qle_refl ].
Qed.

(** The expression of line 238 is the nearest periodic image. *)
Lemma wrap_component_nearest (d b : Q) :
  (0 < b)%Q -> (NeighborList.wrap_component d b == nearest_image d b)%Q.
Proof.
  intros Hb.
  assert (Hnz : ~ (b == 0)%Q).
  { intros E. rewrite E in Hb. exact (Qlt_irrefl _ Hb). }
  unfold NeighborList.wrap_component, nearest_image, Qmod.
  assert (E : ((d - b / 2) / b + 1 == d / b + (1 # 2))%Q) by (field; exact Hnz).
  rewrite <- (Qfloor_comp _ _ E), Qfloor_succ, inject_Z_plus.
  field.
Qed.

(** The nearest image lies within half a box length of zero. *)
Lemma nearest_image_range (d b : Q) :
  (0 < b)%Q -> (- (b / 2) <= nearest_image d b /\ nearest_image d b < b / 2)%Q.
Proof.
  intros Hb.
  assert (Hnz : ~ (b == 0)%Q).
  { intros E. rewrite E in Hb. exact (Qlt_irrefl _ Hb). }
  unfold nearest_image.
  set (n := inject_Z (Qfloor (d / b + (1 # 2)))).
  assert (H1 : (n <= d / b + (1 # 2))%Q) by apply Qfloor_le.
  assert (H2 : (d / b + (1 # 2) < n + 1)%Q).
  { unfold n. rewrite <- (inject_Z_plus _ 1). apply Qlt_floor. }
  assert (E1 : (b * (d / b + (1 # 2)) == d + b / 2)%Q) by (field; exact Hnz).
  split.
  - assert (H3 : (b * n <= b * (d / b + (1 # 2)))%Q).
    { rewrite !(Qmult_comm b). apply Qmult_le_compat_r; [ exact H1 | apply Qlt_le_weak; exact Hb ]. }
    rewrite E1 in H3.
    apply (Qplus_le_l _ _ (b * n + b / 2)).
    setoid_replace (- (b / 2) + (b * n + b / 2))%Q with (b * n)%Q by ring.
    setoid_replace (d - b * n + (b * n + b / 2))%Q with (d + b / 2)%Q by ring.
    exact H3.
  - assert (H3 : (b * (d / b + (1 # 2)) < b * (n + 1))%Q).
    { rewrite !(Qmult_comm b). apply Qmult_lt_compat_r; assumption. }
    rewrite E1 in H3.
    apply (Qplus_lt_l _ _ (b * n + b / 2)).
    setoid_replace (d - b * n + (b * n + b / 2))%Q with (d + b / 2)%Q by ring.
    setoid_replace (b / 2 + (b * n + b / 2))%Q with (b * (n + 1))%Q by field.
    exact H3.
Qed.

Lemma norm_sq_compat (u v : vec3) : veq u v -> (norm_sq u == norm_sq v)%Q.
Proof.
  destruct u as [[x y] z], v as [[x' y'] z']. simpl.
  intros (Hx & Hy & Hz). rewrite Hx, Hy, Hz. reflexivity.
Qed.

Lemma longer_than_compat (u v : vec3) (t : Q) :
  veq u v -> (longer_than u t <-> longer_than v t).
Proof.
  intros H. unfold longer_than. rewrite (norm_sq_compat _ _ H). reflexivity.
Qed.

Lemma displacement_min_image (self : NeighborList.t) (c r : vec3) :
  all_positive (NeighborList.box self) = true ->
  veq (NeighborList.displacement self c r) (min_image (NeighborList.box self) c r).
Proof.
  unfold NeighborList.displacement, min_image, all_positive.
  destruct (NeighborList.box self) as [[bx by_] bz].
  destruct c as [[cx cy] cz], r as [[rx ry] rz]. simpl.
  rewrite !andb_true_iff, !Qltb_lt. intros [[Hx Hy] Hz].
  repeat split; apply wrap_component_nearest; assumption.
Qed.

Lemma existsb_combine_nth_error {A B : Type} (f : A * B -> bool) :
  forall (l1 : list A) (l2 : list B),
    existsb f (combine l1 l2) = true
    <-> exists a x y, nth_error l1 a = Some x /\ nth_error l2 a = Some y
                      /\ f (x, y) = true.
Proof.
  induction l1 as [| x1 l1 IH]; intros l2.
  - simpl. split; [ discriminate | ].
    intros (a & x & y & H & _). destruct a; discriminate.
  - destruct l2 as [| y1 l2].
    + simpl. split; [ discriminate | ].
      intros (a & x & y & _ & H & _). destruct a; discriminate.
    + simpl. rewrite orb_true_iff, IH. split.
      * intros [H | (a & x & y & H1 & H2 & H3)].
        -- exists O, x1, y1. auto.
        -- exists (S a), x, y. auto.
      * intros (a & x & y & H1 & H2 & H3). destruct a as [| a]; simpl in *.
        -- inversion H1; inversion H2; subst. left; exact H3.
        -- right. exists a, x, y. auto.
Qed.

(** C6, as the claim states it, fails: in a box of side 10 with buffer 0.8
    an atom that moved 0.395 (less than half the buffer, 0.4) makes
    [check_dr_overflow] answer true. *)
Lemma check_dr_overflow_margin_counterexample :
  NeighborList.check_dr_overflow (NeighborList.new (10, 10, 10)%Q [1] 6 (12 # 10))
    [(395 # 1000, 0, 0)%Q] [(0, 0, 0)%Q] (8 # 10) = true
  /\ spec_dr_overflow (10, 10, 10)%Q [(395 # 1000, 0, 0)%Q] [(0, 0, 0)%Q] (8 # 10) = false.
Proof. split; vm_compute; reflexivity. Qed.

(** C6, amended: in a box with positive lengths, [check_dr_overflow]
    answers true exactly when the minimum-image displacement of some atom
    from its reference position is longer than half the buffer minus
    0.01. *)
Theorem check_dr_overflow_iff_margin
    (self : NeighborList.t) (coord ref : list vec3) (dr_buffer : Q) :
  all_positive (NeighborList.box self) = true ->
  (NeighborList.check_dr_overflow self coord ref dr_buffer = true
   <-> exists a c r,
         nth_error coord a = Some c /\ nth_error ref a = Some r
         /\ longer_than (min_image (NeighborList.box self) c r)
                        (dr_buffer / 2 - (1 # 100))%Q).
Proof.
  intros Hpos. unfold NeighborList.check_dr_overflow.
  rewrite existsb_combine_nth_error.
  split; intros (a & c & r & H1 & H2 & H3); exists a, c, r;
    (split; [ exact H1 | split; [ exact H2 | ] ]).
  - apply norm_gt_longer in H3.
    apply (longer_than_compat _ _ _ (displacement_min_image self c r Hpos)).
    exact H3.
  - apply norm_gt_longer.
    apply (longer_than_compat _ _ _ (displacement_min_image self c r Hpos)).
    exact H3.
Qed.

Lemma check_dr_overflow_iff_margin_witness :
  all_positive (10, 10, 10)%Q = true
  /\ (NeighborList.check_dr_overflow (NeighborList.new (10, 10, 10)%Q [1] 6 (12 # 10))
        [(395 # 1000, 0, 0)%Q] [(0, 0, 0)%Q] (8 # 10) = true
      <-> exists a c r,
            nth_error [(395 # 1000, 0, 0)%Q] a = Some c
            /\ nth_error [(0, 0, 0)%Q] a = Some r
            /\ longer_than (min_image (10, 10, 10)%Q c r)
                           ((8 # 10) / 2 - (1 # 100))%Q).
Proof.
  split.
  - reflexivity.
  - apply (check_dr_overflow_iff_margin
             (NeighborList.new (10, 10, 10)%Q [1] 6 (12 # 10))
             [(395 # 1000, 0, 0)%Q] [(0, 0, 0)%Q] (8 # 10)).
    reflexivity.
Defined.

(* ------------------------------------------------------------------ *)
(** ** Row capacity chosen by allocation *)

Lemma mapM_fuse {A B C : Type} (f : A -> result B) (g : B -> C) (l : list A) :
  mapM (fun a => b <- f a ;; Ok (g b)) l = (bs <- mapM f l ;; Ok (map g bs)).
Proof.
  induction l as [| a l IH]; simpl; [ reflexivity | ].
  destruct (f a) as [b |]; simpl; [ | reflexivity ].
  rewrite IH. destruct (mapM f l); reflexivity.
Qed.

Lemma mapM_Forall {A B : Type} (f : A -> result B) (P : B -> Prop) :
  (forall a b, f a = Ok b -> P b) ->
  forall l bs, mapM f l = Ok bs -> Forall P bs.
Proof.
  intros Hf. induction l as [| a l IH]; simpl; intros bs H.
  - inversion H. constructor.
  - destruct (f a) as [b |] eqn:E; simpl in H; [ | discriminate ].
    destruct (mapM f l) as [bs' |]; simpl in H; [ | discriminate ].
    inversion H; subst. constructor; eauto.
Qed.

Lemma fold_max_ge (x : Z) (r : list Z) : x <= fold_right Z.max x r.
Proof. induction r as [| y r IH]; simpl; lia. Qed.

Lemma fold_max_upper (x : Z) (r : list Z) (y : Z) :
  In y (x :: r) -> y <= fold_right Z.max x r.
Proof.
  induction r as [| z r IH]; simpl.
  - intros [-> | []]. lia.
  - intros [-> | [-> | H]].
    + pose proof (fold_max_ge y r). lia.
    + lia.
    + assert (y <= fold_right Z.max x r) by (apply IH; simpl; auto). lia.
Qed.

Lemma fold_max_in (x : Z) (r : list Z) : In (fold_right Z.max x r) (x :: r).
Proof.
  induction r as [| z r IH]; simpl; [ auto | ].
  destruct (Z.max_spec z (fold_right Z.max x r)) as [[_ E] | [_ E]]; rewrite E.
  - destruct IH as [H | H]; simpl; auto.
  - simpl; auto.
Qed.

Lemma amax_in (l : list Z) (m : Z) : amax l = Ok m -> In m l.
Proof.
  destruct l as [| x r]; simpl; [ discriminate | ].
  intros H; inversion H. apply fold_max_in.
Qed.

Lemma amax_upper (l : list Z) (m y : Z) : amax l = Ok m -> In y l -> y <= m.
Proof.
  destruct l as [| x r]; simpl; [ discriminate | ].
  intros H; inversion H. apply fold_max_upper.
Qed.

Lemma int_of_Q_floor (x : Q) : (0 <= x)%Q -> int_of_Q x = Qfloor x.
Proof.
  destruct x as [n d]. unfold Qle, int_of_Q, Qfloor. simpl. intros H.
  apply Z.quot_div_nonneg; lia.
Qed.

Lemma int_of_Q_mono (x y : Q) : (0 <= x)%Q -> (x <= y)%Q -> int_of_Q x <= int_of_Q y.
Proof.
  intros Hx Hxy.
  rewrite !int_of_Q_floor by (try assumption; eapply Qle_trans; eassumption).
  apply Qfloor_resp_le. exact Hxy.
Qed.

Lemma int_of_Q_nonneg (x : Q) : (0 <= x)%Q -> 0 <= int_of_Q x.
Proof.
  intros Hx. rewrite int_of_Q_floor by assumption.
  change 0 with (Qfloor 0). apply Qfloor_resp_le. exact Hx.
Qed.

Lemma padded_capacity_mono (size : Q) (k k' : Z) :
  0 <= k <= k' ->
  NeighborList.padded_capacity size k <= NeighborList.padded_capacity size k'.
Proof.
  unfold NeighborList.padded_capacity. intros H.
  destruct (Z.eqb_spec k 0), (Z.eqb_spec k' 0); lia.
Qed.

Lemma padded_capacity_positive (size : Q) (k : Z) :
  0 <= k -> 1 <= NeighborList.padded_capacity size k.
Proof.
  unfold NeighborList.padded_capacity. intros H.
  destruct (Z.eqb_spec k 0); lia.
Qed.

Lemma scaled_count_mono (size : Q) (m m' : Z) :
  (0 <= size)%Q -> 0 <= m <= m' ->
  0 <= int_of_Q (inject_Z m * size) <= int_of_Q (inject_Z m' * size).
Proof.
  intros Hs [H0 Hm].
  assert (Hm0 : (0 <= inject_Z m * size)%Q).
  { apply Qmult_le_0_compat; [ | exact Hs ].
    change 0%Q with (inject_Z 0). rewrite <- Zle_Qle. exact H0. }
  split; [ apply int_of_Q_nonneg; exact Hm0 | ].
  apply int_of_Q_mono; [ exact Hm0 | ].
  apply Qmult_le_compat_r; [ | exact Hs ].
  rewrite <- Zle_Qle. exact Hm.
Qed.

(** The padded width is monotone in the measured count. *)
Lemma padded_widths_mono (size : Q) (msA msB : list Z) :
  (0 <= size)%Q ->
  Forall (fun m => 0 <= m) msA ->
  Forall2 Z.le msA msB ->
  Forall2 Z.le
    (map (fun m => NeighborList.padded_capacity size (int_of_Q (inject_Z m * size)))
         msA)
    (map (fun m => NeighborList.padded_capacity size (int_of_Q (inject_Z m * size)))
         msB).
Proof.
  intros Hsize Hpos Hle.
  induction Hle as [| a b la lb Hab Hrest IH]; simpl.
  - constructor.
  - inversion Hpos; subst. constructor; [ | apply IH; assumption ].
    apply padded_capacity_mono.
    apply scaled_count_mono; [ exact Hsize | lia ].
Qed.

Section CapacityFacts.

Variable K : Z.
Variable get_mask_by_device : list Z -> list bool.

Let max_counts := NeighborList.max_counts K get_mask_by_device.
Let measure_knbr := NeighborList.measure_knbr K get_mask_by_device.

Lemma count_below_nonneg (bound : Z) (row : list Z) :
  0 <= NeighborList.count_below bound row.
Proof. unfold NeighborList.count_below. lia. Qed.

Lemma max_counts_nonneg self test len ms :
  max_counts self test len = Ok ms -> Forall (fun m => 0 <= m) ms.
Proof.
  unfold max_counts, NeighborList.max_counts.
  apply mapM_Forall. intros fn m H.
  apply amax_in in H. apply in_map_iff in H.
  destruct H as (row & <- & _). apply count_below_nonneg.
Qed.

(** The row widths are a function of the measured maxima. *)
Lemma measure_knbr_of_max_counts self test len :
  measure_knbr self test len
  = (ms <- max_counts self test len ;;
     Ok (map (fun m => NeighborList.padded_capacity (NeighborList.size self)
                         (int_of_Q (inject_Z m * NeighborList.size self)))
             ms)).
Proof.
  unfold measure_knbr, NeighborList.measure_knbr, max_counts,
    NeighborList.max_counts, NeighborList.measured.
  rewrite mapM_fuse.
  destruct (mapM _ _) as [ms |]; simpl; [ | reflexivity ].
  rewrite map_map. reflexivity.
Qed.

End CapacityFacts.

(* ------------------------------------------------------------------ *)
(** ** The overflow flag of the partitioner *)

Lemma insert_desc_in (x z : Z) (l : list Z) :
  In z (insert_desc x l) <-> z = x \/ In z l.
Proof.
  induction l as [| y r IH]; simpl.
  - intuition.
  - destruct (y <=? x); simpl; [ intuition | ].
    rewrite IH. intuition.
Qed.

Lemma sort_desc_in (z : Z) (l : list Z) : In z (sort_desc l) <-> In z l.
Proof.
  induction l as [| x l IH]; simpl; [ reflexivity | ].
  rewrite insert_desc_in, IH. intuition.
Qed.

Lemma insert_desc_length (x : Z) (l : list Z) :
  List.length (insert_desc x l) = S (List.length l).
Proof.
  induction l as [| y r IH]; simpl; [ reflexivity | ].
  destruct (y <=? x); simpl; [ reflexivity | ]. rewrite IH. reflexivity.
Qed.

Lemma sort_desc_length (l : list Z) : List.length (sort_desc l) = List.length l.
Proof.
  induction l as [| x l IH]; simpl; [ reflexivity | ].
  rewrite insert_desc_length, IH. reflexivity.
Qed.

Lemma insert_desc_sorted (x : Z) (l : list Z) :
  StronglySorted descending l -> StronglySorted descending (insert_desc x l).
Proof.
  induction l as [| y r IH]; simpl; intros H.
  - constructor; constructor.
  - inversion H as [| y' r' Hr Hy]; subst.
    destruct (Z.leb_spec y x).
    + constructor; [ exact H | ].
      constructor; [ exact H0 | ].
      eapply Forall_impl; [ | exact Hy ]. unfold descending. intros; lia.
    + constructor; [ apply IH; exact Hr | ].
      apply Forall_forall. intros z Hz. apply insert_desc_in in Hz.
      destruct Hz as [-> | Hz].
      * unfold descending. lia.
      * rewrite Forall_forall in Hy. apply Hy. exact Hz.
Qed.

Lemma sort_desc_sorted (l : list Z) : StronglySorted descending (sort_desc l).
Proof.
  induction l as [| x l IH]; simpl; [ constructor | ].
  apply insert_desc_sorted. exact IH.
Qed.

Lemma sorted_firstn_skipn (l : list Z) :
  StronglySorted descending l ->
  forall k x y, In x (firstn k l) -> In y (skipn k l) -> y <= x.
Proof.
  induction 1 as [| a l Hs IH Ha]; intros k x y Hx Hy.
  - destruct k; simpl in Hx; contradiction.
  - destruct k as [| k]; simpl in Hx, Hy; [ contradiction | ].
    destruct Hx as [-> | Hx].
    + rewrite Forall_forall in Ha. apply Ha.
      rewrite <- (firstn_skipn k l). apply in_or_app. right. exact Hy.
    + eapply IH; eauto.
Qed.

(** What [smallest_k] leaves out is no smaller than anything it keeps. *)
Lemma smallest_k_dropped (k : Z) (row out : list Z) (v : Z) :
  NeighborList.smallest_k k row = Ok out ->
  In v row -> ~ In v out -> forall o, In o out -> o <= v.
Proof.
  unfold NeighborList.smallest_k, top_k.
  destruct ((k <? 0) || (Z.of_nat (List.length (map Z.opp row)) <? k));
    simpl; [ discriminate | ].
  intros H Hin Hout o Ho. inversion H; subst out; clear H.
  set (s := sort_desc (map Z.opp row)) in *.
  assert (Hs : In (- v) s).
  { apply sort_desc_in. apply in_map. exact Hin. }
  rewrite <- (firstn_skipn (Z.to_nat k) s) in Hs.
  apply in_app_or in Hs. destruct Hs as [Hs | Hs].
  - exfalso. apply Hout. apply in_map_iff. exists (- v). split; [ lia | exact Hs ].
  - apply in_map_iff in Ho. destruct Ho as (e & <- & He).
    pose proof (sorted_firstn_skipn s (sort_desc_sorted _) _ _ _ He Hs). lia.
Qed.

Lemma mapM_nth_error {A B : Type} (f : A -> result B) :
  forall (l : list A) (bs : list B) (n : nat) (b : B),
    mapM f l = Ok bs -> nth_error bs n = Some b ->
    exists a, nth_error l n = Some a /\ f a = Ok b.
Proof.
  induction l as [| a l IH]; simpl; intros bs n b H Hn.
  - inversion H; subst. destruct n; discriminate.
  - destruct (f a) as [b0 |] eqn:E; simpl in H; [ | discriminate ].
    destruct (mapM f l) as [bs' |] eqn:E'; simpl in H; [ | discriminate ].
    inversion H; subst. destruct n as [| n]; simpl in Hn.
    + inversion Hn; subst. exists a. auto.
    + destruct (IH _ _ _ eq_refl Hn) as (a' & H1 & H2). exists a'. auto.
Qed.

Lemma mapM_nth_error_fwd {A B : Type} (f : A -> result B) :
  forall (l : list A) (bs : list B) (n : nat) (a : A),
    mapM f l = Ok bs -> nth_error l n = Some a ->
    exists b, nth_error bs n = Some b /\ f a = Ok b.
Proof.
  induction l as [| a0 l IH]; simpl; intros bs n a H Hn.
  - destruct n; discriminate.
  - destruct (f a0) as [b0 |] eqn:E; simpl in H; [ | discriminate ].
    destruct (mapM f l) as [bs' |] eqn:E'; simpl in H; [ | discriminate ].
    inversion H; subst. destruct n as [| n]; simpl in Hn.
    + inversion Hn; subst. exists b0. auto.
    + destruct (IH _ _ _ eq_refl Hn) as (b & H1 & H2). exists b. auto.
Qed.

Lemma nth_error_combine {A B : Type} :
  forall (l1 : list A) (l2 : list B) (n : nat),
    nth_error (combine l1 l2) n
    = match nth_error l1 n, nth_error l2 n with
      | Some a, Some b => Some (a, b)
      | _, _ => None
      end.
Proof.
  induction l1 as [| a l1 IH]; intros l2 n.
  - destruct n; reflexivity.
  - destruct l2 as [| b l2].
    + destruct n as [| n]; simpl; [ reflexivity | ].
      destruct (nth_error l1 n); reflexivity.
    + destruct n as [| n]; simpl; [ reflexivity | apply IH ].
Qed.

(* ------------------------------------------------------------------ *)
(** ** The type mask and the block layout *)

Section LayoutFacts.

Variable K : Z.
Hypothesis K_pos : 0 < K.

Lemma ceil_div_bounds (c : Z) :
  0 < c -> let t := - ((- c) / K) in 0 < t /\ c <= K * t < c + K.
Proof.
  intros Hc t. subst t.
  pose proof (Z_div_mod_eq_full (- c) K) as E.
  pose proof (Z.mod_pos_bound (- c) K K_pos) as B.
  nia.
Qed.

Lemma type_count_new_nth (tc : list Z) (i : nat) :
  nth i (type_count_new K tc) 0 = - ((- nth i tc 0) / K).
Proof.
  unfold type_count_new.
  change 0 with ((fun c => - (- c / K)) 0) at 1.
  apply (map_nth (fun c => - (- c / K))).
Qed.

Lemma type_count_new_nonneg (tc : list Z) :
  Forall (fun c => 0 <= c) tc -> Forall (fun c => 0 <= c) (type_count_new K tc).
Proof.
  unfold type_count_new. intros H. apply Forall_map.
  eapply Forall_impl; [ | exact H ]. simpl. intros c Hc.
  destruct (Z.eq_dec c 0) as [-> | Hne]; [ simpl; lia | ].
  pose proof (ceil_div_bounds c). simpl in H0. lia.
Qed.

Lemma cumsum_from_nth (l : list Z) :
  forall (a : Z) (i : nat),
    (i < List.length l)%nat ->
    nth i (cumsum_from a l) 0 = a + sum_list (firstn (S i) l).
Proof.
  induction l as [| x l IH]; intros a i Hi; simpl in Hi; [ lia | ].
  destruct i as [| i].
  - simpl. destruct l; simpl; lia.
  - change (nth (S i) (cumsum_from a (x :: l)) 0)
      with (nth i (cumsum_from (a + x) l) 0).
    rewrite IH by lia.
    change (firstn (S (S i)) (x :: l)) with (x :: firstn (S i) l).
    unfold sum_list. simpl. lia.
Qed.

Lemma cumsum_from_last (l : list Z) :
  forall a : Z, last (a :: cumsum_from a l) 0 = a + sum_list l.
Proof.
  induction l as [| x l IH]; intros a.
  - simpl. lia.
  - change (last (a :: cumsum_from a (x :: l)) 0)
      with (last ((a + x) :: cumsum_from (a + x) l) 0).
    rewrite IH. unfold sum_list. simpl. lia.
Qed.

Lemma sum_list_cons (x : Z) (l : list Z) : sum_list (x :: l) = x + sum_list l.
Proof. reflexivity. Qed.

Lemma sum_firstn_succ (l : list Z) :
  forall i : nat,
    (i < List.length l)%nat ->
    sum_list (firstn (S i) l) = sum_list (firstn i l) + nth i l 0.
Proof.
  induction l as [| x l IH]; intros i Hi; simpl in Hi; [ lia | ].
  destruct i as [| i].
  - unfold sum_list. simpl. lia.
  - change (firstn (S (S i)) (x :: l)) with (x :: firstn (S i) l).
    change (firstn (S i) (x :: l)) with (x :: firstn i l).
    change (nth (S i) (x :: l) 0) with (nth i l 0).
    rewrite !sum_list_cons, IH by lia. lia.
Qed.

Lemma sum_firstn_bounds (l : list Z) :
  Forall (fun c => 0 <= c) l ->
  forall i : nat, 0 <= sum_list (firstn i l) <= sum_list l.
Proof.
  induction 1 as [| x l Hx Hl IH]; intros i.
  - destruct i; unfold sum_list; simpl; lia.
  - destruct i as [| i].
    + specialize (IH O). rewrite sum_list_cons. simpl firstn in *.
      change (sum_list []) with 0 in *. lia.
    + change (firstn (S i) (x :: l)) with (x :: firstn i l).
      rewrite !sum_list_cons. specialize (IH i). lia.
Qed.

(** The offsets of the types within a block. *)
Lemma filled_offsets (tc : list Z) (i : nat) :
  Forall (fun c => 0 <= c) tc ->
  (i < List.length tc)%nat ->
  let off := nth i (type_idx_filled_each K tc) 0 in
  0 <= off
  /\ nth (S i) (type_idx_filled_each K tc) 0 = off + nth i (type_count_new K tc) 0
  /\ off + nth i (type_count_new K tc) 0 <= N_each K tc.
Proof.
  intros Hnn Hi off. subst off.
  pose proof (type_count_new_nonneg tc Hnn) as Ht.
  assert (Hlen : List.length (type_count_new K tc) = List.length tc)
    by (unfold type_count_new; apply length_map).
  unfold N_each, type_idx_filled_each, cumsum.
  change (cumsum_from 0 (0 :: type_count_new K tc))
    with (0 :: cumsum_from 0 (type_count_new K tc)).
  rewrite cumsum_from_last.
  change (nth (S i) (0 :: cumsum_from 0 (type_count_new K tc)) 0)
    with (nth i (cumsum_from 0 (type_count_new K tc)) 0).
  rewrite cumsum_from_nth by lia.
  assert (E : nth i (0 :: cumsum_from 0 (type_count_new K tc)) 0
              = sum_list (firstn i (type_count_new K tc))).
  { destruct i as [| i]; [ reflexivity | ].
    change (nth (S i) (0 :: cumsum_from 0 (type_count_new K tc)) 0)
      with (nth i (cumsum_from 0 (type_count_new K tc)) 0).
    rewrite cumsum_from_nth by lia. lia. }
  rewrite E, sum_firstn_succ by lia.
  pose proof (sum_firstn_bounds _ Ht i).
  pose proof (sum_firstn_bounds _ Ht (S i)) as H1.
  rewrite sum_firstn_succ in H1 by lia. lia.
Qed.

(** Every real atom of type [i] passes the mask of its type, and the
    remapping of [get_nm] returns its number within the type. *)
Lemma real_atom_passes_type_mask (tc : list Z) (i : nat) (j : Z) :
  Forall (fun c => 0 <= c) tc ->
  (i < List.length tc)%nat ->
  0 <= j < nth i tc 0 ->
  type_cond K tc i (device_index K tc i j) = true
  /\ remap_entry K tc i (device_index K tc i j) = j.
Proof.
  intros Hnn Hi Hj.
  destruct (filled_offsets tc i Hnn Hi) as (Hoff & Hnext & Htop).
  pose proof (type_count_new_nth tc i) as Etcn.
  assert (Hc : 0 < nth i tc 0) by lia.
  destruct (ceil_div_bounds _ Hc) as (Htpos & Hceil).
  rewrite <- Etcn in Htpos, Hceil.
  unfold type_cond, remap_entry, device_index.
  rewrite Hnext.
  set (n := nth i (type_count_new K tc) 0) in *.
  set (off := nth i (type_idx_filled_each K tc) 0) in *.
  set (N := N_each K tc) in *.
  pose proof (Z_div_mod_eq_full j n) as Ej.
  pose proof (Z.mod_pos_bound j n Htpos) as Bl.
  set (d := j / n) in *. set (l := j mod n) in *.
  assert (Hd : 0 <= d < K) by nia.
  assert (Emod : (d * N + off + l) mod N = off + l).
  { symmetry. apply (Z.mod_unique_pos _ _ d); lia. }
  assert (Ediv : (d * N + off + l) / N = d).
  { symmetry. apply (Z.div_unique_pos _ _ _ (off + l)); lia. }
  rewrite Emod, Ediv.
  assert (Hlt : d * N + off + l < N * K) by nia.
  assert (Eval : d * N + off + l - off - d * (N - n) = j) by nia.
  rewrite Eval.
  split.
  - rewrite !andb_true_iff, Z.leb_le, !Z.ltb_lt. lia.
  - apply Z.ltb_lt in Hlt. rewrite Hlt. reflexivity.
Qed.

End LayoutFacts.

Section PartitionFacts.

Variable K : Z.
Variable get_mask_by_device : list Z -> list bool.
Variable split : table -> list Z -> Z -> list table.
Variable JNbrs : Type.
Variable idx : JNbrs -> table.
Variable did_buffer_overflow : JNbrs -> bool.

Let get_nm := NeighborList.get_nm K get_mask_by_device split idx did_buffer_overflow.
Let nbrs_idx := NeighborList.nbrs_idx K get_mask_by_device idx.

(** Row [r] of the table masked for type [i], for a real atom [r]. *)
Lemma mask_fn_row (tc : list Z) (i r : nat) (tb : table) (row mrow : list Z) :
  nth_error tb r = Some row ->
  nth_error (get_mask_by_device tc) r = Some true ->
  nth_error (mask_fn K get_mask_by_device tc i tb) r = Some mrow ->
  mrow = map (fun v => if type_cond K tc i v then v else N_each K tc * K) row.
Proof.
  unfold mask_fn. intros Hrow Hmask.
  rewrite nth_error_map, nth_error_combine, Hmask, Hrow. simpl.
  intros H; inversion H. reflexivity.
Qed.

Lemma mask_fns_nth (self : NeighborList.t) (i : nat) (p : nat * (table -> table)) :
  nth_error (combine (seq 0 (List.length (NeighborList.mask_fns K get_mask_by_device self)))
                     (NeighborList.mask_fns K get_mask_by_device self)) i = Some p ->
  p = (i, mask_fn K get_mask_by_device (NeighborList.type_count self) i).
Proof.
  unfold NeighborList.mask_fns, get_type_mask_fns.
  rewrite length_map, length_seq, nth_error_combine, nth_error_map, !nth_error_seq.
  destruct (i <? List.length (NeighborList.type_count self))%nat; simpl;
    intros H; inversion H. reflexivity.
Qed.

Lemma type_cond_below (tc : list Z) (i : nat) (v : Z) :
  type_cond K tc i v = true -> v < N_each K tc * K.
Proof.
  unfold type_cond. rewrite !andb_true_iff. intros (_ & _ & H).
  apply Z.ltb_lt. exact H.
Qed.

Lemma get_nm_parts (self : NeighborList.t) (nbrs : JNbrs)
    (nm : list (list table)) (overflow : bool) :
  get_nm self nbrs = Ok (nm, overflow) ->
  exists kept flags,
    nbrs_idx self nbrs = Ok kept
    /\ mapM (NeighborList.type_overflow K self) kept = Ok flags
    /\ overflow = existsb (fun b => b) flags || did_buffer_overflow nbrs.
Proof.
  unfold get_nm, NeighborList.get_nm, nbrs_idx, NeighborList.nbrs_idx.
  destruct (NeighborList.get_knbr self) as [ks |]; simpl; [ | discriminate ].
  destruct (NeighborList.nbrs_idx_of K get_mask_by_device self ks (idx nbrs))
    as [kept |]; simpl; [ | discriminate ].
  destruct (mapM (NeighborList.type_overflow K self) kept) as [flags |] eqn:Ef;
    simpl; [ | discriminate ].
  intros H; inversion H. exists kept, flags. auto.
Qed.

(** An entry that the mask of type [i] lets through and that is missing
    from the kept row forces the flag. *)
Lemma missing_entry_sets_overflow
    (self : NeighborList.t) (nbrs : JNbrs) (nm : list (list table))
    (overflow : bool) (kept : list table) (i r : nat)
    (row out : list Z) (tb : table) (v : Z) :
  get_nm self nbrs = Ok (nm, overflow) ->
  nbrs_idx self nbrs = Ok kept ->
  nth_error (idx nbrs) r = Some row ->
  nth_error (get_mask_by_device (NeighborList.type_count self)) r = Some true ->
  In v row ->
  type_cond K (NeighborList.type_count self) i v = true ->
  nth_error kept i = Some tb ->
  nth_error tb r = Some out ->
  ~ In v out ->
  overflow = true.
Proof.
  intros Hnm Hkept Hrow Hreal Hv Hcond Hi Hr Hdrop.
  destruct (get_nm_parts _ _ _ _ Hnm) as (kept' & flags & Hk' & Hflags & ->).
  rewrite Hkept in Hk'. inversion Hk'; subst kept'; clear Hk'.
  apply orb_true_iff. left.
  (* the row kept for type [i] and atom [r] *)
  unfold nbrs_idx, NeighborList.nbrs_idx in Hkept.
  destruct (NeighborList.get_knbr self) as [ks |]; simpl in Hkept; [ | discriminate ].
  unfold NeighborList.nbrs_idx_of in Hkept.
  destruct (mapM_nth_error _ _ _ _ _ Hkept Hi) as (p & Hp & Htb).
  apply mask_fns_nth in Hp. subst p.
  destruct (mapM_nth_error _ _ _ _ _ Htb Hr) as (mrow & Hmrow & Hout).
  pose proof (mask_fn_row _ _ _ _ _ _ Hrow Hreal Hmrow) as Emrow.
  assert (Hvm : In v mrow).
  { subst mrow. apply in_map_iff. exists v. rewrite Hcond. auto. }
  pose proof (smallest_k_dropped _ _ _ _ Hout Hvm Hdrop) as Hle.
  (* its maximum is below the sentinel *)
  destruct (mapM_nth_error_fwd _ _ _ _ _ Hflags Hi) as (flag & Hflag & Hto).
  unfold NeighborList.type_overflow in Hto.
  destruct (mapM amax tb) as [maxes |] eqn:Emax; simpl in Hto; [ | discriminate ].
  inversion Hto as [Eflag]; clear Hto.
  destruct (mapM_nth_error_fwd _ _ _ _ _ Emax Hr) as (m & Hm & Ham).
  assert (Hmlt : (m <? N_each K (NeighborList.type_count self) * K) = true).
  { apply Z.ltb_lt. pose proof (type_cond_below _ _ _ Hcond).
    pose proof (Hle m (amax_in _ _ Ham)). lia. }
  assert (Hflag_true : flag = true).
  { rewrite <- Eflag. apply existsb_exists. exists m. split; [ | exact Hmlt ].
    eapply nth_error_In; eauto. }
  apply existsb_exists. exists flag. split; [ | exact Hflag_true ].
  eapply nth_error_In; eauto.
Qed.

(** C5: whenever [get_nm] returns, a real neighbor of type [i] listed for a
    real atom [r] that is missing from the row kept for that type forces
    the returned overflow flag to be true. *)
Theorem dropped_neighbor_sets_overflow
    (self : NeighborList.t) (nbrs : JNbrs) (nm : list (list table))
    (overflow : bool) (kept : list table) (i r : nat)
    (row out : list Z) (tb : table) (v : Z) :
  get_nm self nbrs = Ok (nm, overflow) ->
  nbrs_idx self nbrs = Ok kept ->
  nth_error (idx nbrs) r = Some row ->
  nth_error (get_mask_by_device (NeighborList.type_count self)) r = Some true ->
  In v row ->
  type_cond K (NeighborList.type_count self) i v = true ->
  nth_error kept i = Some tb ->
  nth_error tb r = Some out ->
  ~ In v out ->
  overflow = true.
Proof. apply missing_entry_sets_overflow. Qed.

(** The same for atom number [j] of type [i] at its place in the block
    layout: no real atom is lost to the mask itself, on whichever device
    block it sits. *)
Lemma dropped_real_atom_sets_overflow
    (self : NeighborList.t) (nbrs : JNbrs) (nm : list (list table))
    (overflow : bool) (kept : list table) (i r : nat)
    (row out : list Z) (tb : table) (j : Z) :
  0 < K ->
  Forall (fun c => 0 <= c) (NeighborList.type_count self) ->
  0 <= j < nth i (NeighborList.type_count self) 0 ->
  get_nm self nbrs = Ok (nm, overflow) ->
  nbrs_idx self nbrs = Ok kept ->
  nth_error (idx nbrs) r = Some row ->
  nth_error (get_mask_by_device (NeighborList.type_count self)) r = Some true ->
  In (device_index K (NeighborList.type_count self) i j) row ->
  nth_error kept i = Some tb ->
  nth_error tb r = Some out ->
  ~ In (device_index K (NeighborList.type_count self) i j) out ->
  overflow = true.
Proof.
  intros HK Hnn Hj Hnm Hkept Hrow Hreal Hin Hi Hr Hdrop.
  assert (Hlen : (i < List.length (NeighborList.type_count self))%nat).
  { destruct (Nat.lt_ge_cases i (List.length (NeighborList.type_count self)))
      as [H | H]; [ exact H | ].
    rewrite (nth_overflow _ _ H) in Hj. lia. }
  destruct (real_atom_passes_type_mask K HK _ i j Hnn Hlen Hj) as [Hcond _].
  eapply missing_entry_sets_overflow; eauto.
Qed.

End PartitionFacts.

Lemma dropped_neighbor_sets_overflow_witness :
  exists nm overflow,
    Toy.get_nm Toy.narrow Toy.star_table = Ok (nm, overflow)
    /\ Toy.nbrs_idx Toy.narrow Toy.star_table = Ok [Toy.star_table_kept]
    /\ nth_error Toy.star_table 0 = Some [1; 2; 3; 4]
    /\ nth_error (Toy.all_real [4]) 0 = Some true
    /\ In 3 [1; 2; 3; 4]
    /\ type_cond 1 [4] 0 3 = true
    /\ nth_error Toy.star_table_kept 0 = Some [1; 2]
    /\ ~ In 3 [1; 2]
    /\ overflow = true.
Proof.
  assert (Hnm : Toy.get_nm Toy.narrow Toy.star_table
                = Ok ([[Toy.star_table_kept]], true)) by reflexivity.
  assert (Hidx : Toy.nbrs_idx Toy.narrow Toy.star_table = Ok [Toy.star_table_kept])
    by reflexivity.
  assert (Hin : In 3 [1; 2; 3; 4]) by (simpl; auto).
  assert (Hout : ~ In 3 [1; 2]) by (simpl; intros [H | [H | []]]; discriminate).
  exists [[Toy.star_table_kept]], true.
  repeat (split; [ first [ assumption | reflexivity ] | ]).
  exact (dropped_neighbor_sets_overflow Toy.devices Toy.all_real Toy.one_block
           table (fun nbrs => nbrs) Toy.never_overflows
           Toy.narrow Toy.star_table [[Toy.star_table_kept]] true
           [Toy.star_table_kept] 0%nat 0%nat [1; 2; 3; 4] [1; 2]
           Toy.star_table_kept 3
           Hnm Hidx eq_refl eq_refl Hin eq_refl eq_refl eq_refl Hout).
Defined.

(* ------------------------------------------------------------------ *)
(** ** The loop of the example script *)

Section LoopFacts.

Variable W : Driver.World.
Variable cfg : Driver.Config.

Let LoopState := Driver.LoopState W.
Let iteration := Driver.iteration W cfg.
Let report := Driver.report W cfg.
Let chunk := Driver.chunk W cfg.
Let loop := Driver.loop W cfg.

Lemma report_keeps (st : LoopState) :
  Driver.i (report st) = Driver.i st
  /\ Driver.state (report st) = Driver.state st
  /\ Driver.nbrs_list (report st) = Driver.nbrs_list st
  /\ Driver.NBRS_FLAG (report st) = Driver.NBRS_FLAG st
  /\ Driver.buffer_size (report st) = Driver.buffer_size st
  /\ Driver.update_every (report st) = Driver.update_every st
  /\ Driver.multi_steps (report st) = Driver.multi_steps st
  /\ Driver.neighborlist (report st) = Driver.neighborlist st
  /\ Driver.pos_traj (report st) = Driver.pos_traj st
  /\ Driver.vel_traj (report st) = Driver.vel_traj st
  /\ Driver.model_devi_traj (report st) = Driver.model_devi_traj st.
Proof.
  unfold report, Driver.report.
  destruct (_ <? _); simpl; repeat split; reflexivity.
Qed.

Lemma chunk_report (st : LoopState) : chunk (report st) = chunk st.
Proof.
  unfold chunk, Driver.chunk.
  destruct (report_keeps st) as (_ & Hs & Hn & _ & _ & Hu & Hm & Hl & _).
  fold report. rewrite Hs, Hn, Hu, Hm, Hl. reflexivity.
Qed.

(** What an iteration does in neighbor-list mode, by the flags of its
    chunk. *)
Lemma iteration_nbrs_overflow (st : LoopState) :
  Driver.use_neighborlist cfg = true ->
  Driver.nbrs_overflowed W cfg st = true ->
  iteration st = (Driver.on_nbrs_overflow W cfg (report st), Driver.Next).
Proof.
  intros Hnl Hov. unfold iteration, Driver.iteration. rewrite Hnl. simpl negb. cbv iota.
  fold report. 
  unfold Driver.nbrs_overflowed in Hov. fold chunk in Hov.
  pose proof (chunk_report st) as Hc. unfold chunk in Hc.
  rewrite Hc. fold chunk.
  destruct (chunk st) as [[sn nn] outs]. simpl in Hov. rewrite Hov. reflexivity.
Qed.

Lemma iteration_rcut_overflow (st : LoopState) :
  Driver.use_neighborlist cfg = true ->
  Driver.nbrs_overflowed W cfg st = false ->
  Driver.rcut_overflowed W cfg st = true ->
  iteration st = Driver.on_rcut_overflow W (Driver.clear_flag W (report st)).
Proof.
  intros Hnl Hov Hrc. unfold iteration, Driver.iteration. rewrite Hnl. simpl negb. cbv iota.
  fold report.
  unfold Driver.nbrs_overflowed in Hov. unfold Driver.rcut_overflowed in Hrc.
  fold chunk in Hov, Hrc.
  pose proof (chunk_report st) as Hc. unfold chunk in Hc.
  rewrite Hc. fold chunk.
  destruct (chunk st) as [[sn nn] outs]. simpl in Hov, Hrc. rewrite Hov, Hrc.
  reflexivity.
Qed.

(** No iteration replaces the loader the loop allocates with. *)
Lemma iteration_keeps_loader (st : LoopState) :
  Driver.neighborlist (fst (iteration st)) = Driver.neighborlist st.
Proof.
  destruct (report_keeps st) as (_ & _ & _ & _ & _ & _ & _ & Hl & _).
  unfold iteration, Driver.iteration. fold report.
  destruct (negb (Driver.use_neighborlist cfg)).
  - destruct (pscan _ _ _) as [[s' n'] outs]. simpl. exact Hl.
  - destruct (Driver.chunk W cfg (report st)) as [[sn nn] outs].
    destruct (existsb _ nn).
    + simpl. unfold Driver.on_nbrs_overflow.
      destruct (Driver.NBRS_FLAG (report st)); simpl; exact Hl.
    + destruct (existsb _ (map snd outs)).
      * unfold Driver.on_rcut_overflow. simpl.
        destruct (_ =? 1); simpl; exact Hl.
      * simpl. exact Hl.
Qed.

(** The two trajectory lists receive the same entries. *)
Lemma iteration_vel_traj_pos_traj (st : LoopState) :
  Driver.vel_traj st = Driver.pos_traj st ->
  Driver.vel_traj (fst (iteration st)) = Driver.pos_traj (fst (iteration st)).
Proof.
  intros H.
  destruct (report_keeps st) as (_ & _ & _ & _ & _ & _ & _ & _ & Hp & Hv & _).
  unfold iteration, Driver.iteration. fold report.
  destruct (negb (Driver.use_neighborlist cfg)).
  - destruct (pscan _ _ _) as [[s' n'] outs]. simpl. congruence.
  - destruct (Driver.chunk W cfg (report st)) as [[sn nn] outs].
    destruct (existsb _ nn).
    + simpl. unfold Driver.on_nbrs_overflow.
      destruct (Driver.NBRS_FLAG (report st)); simpl; congruence.
    + destruct (existsb _ (map snd outs)).
      * unfold Driver.on_rcut_overflow. simpl.
        destruct (_ =? 1); simpl; congruence.
      * simpl. congruence.
Qed.

Lemma loop_vel_traj_pos_traj (fuel : nat) :
  forall st st' : LoopState,
    Driver.vel_traj st = Driver.pos_traj st ->
    loop fuel st = Some st' ->
    Driver.vel_traj st' = Driver.pos_traj st'.
Proof.
  unfold loop. induction fuel as [| fuel IH]; simpl; intros st st' H Hl.
  - discriminate.
  - destruct (Driver.i st <? Driver.total_steps cfg).
    + pose proof (iteration_vel_traj_pos_traj st H) as H'.
      unfold iteration in H'.
      destruct (Driver.iteration W cfg st) as [st1 c]. simpl in H'.
      destruct c.
      * eapply IH; eauto.
      * inversion Hl; subst. exact H'.
    + inversion Hl; subst. exact H.
Qed.

(** Whatever the run, the array saved as velocities is the array saved as
    positions. *)
Lemma saved_velocities_are_saved_positions (fuel : nat) (state0 : Driver.State W)
    (files : Driver.Files) :
  Driver.main W cfg fuel state0 = Some (Ok files) ->
  Driver.vel_npy files = Driver.pos_npy files.
Proof.
  unfold Driver.main.
  destruct (Driver.loop W cfg fuel (Driver.initial W cfg state0)) as [st |] eqn:E;
    [ | discriminate ].
  intros H. inversion H as [Hs]. clear H.
  assert (Hv : Driver.vel_traj st = Driver.pos_traj st).
  { apply (loop_vel_traj_pos_traj fuel (Driver.initial W cfg state0)); auto. }
  unfold Driver.save in Hs.
  destruct (Driver.pos_traj st) eqn:Ep; [ discriminate | ].
  inversion Hs; subst. simpl. rewrite Hv. reflexivity.
Qed.

End LoopFacts.

(** C1: a run of two steps of a free particle (position 0, velocity 1 along
    x, every frame saved).  The array written as velocities holds the
    positions of the two frames, (1,0,0) and (2,0,0); the velocities of
    those frames are (1,0,0) and (1,0,0). *)
Theorem vel_file_holds_positions :
  Driver.main (Toy.world false) Toy.short_run 5 Toy.state0
  = Some (Ok (Driver.mkFiles [[(1, 0, 0)%Q]; [(2, 0, 0)%Q]]
                             [[(1, 0, 0)%Q]; [(2, 0, 0)%Q]]))
  /\ map snd (snd (pscan (Driver.step_fn (Toy.world false)) (Toy.state0, None) 2))
     = [[(1, 0, 0)%Q]; [(1, 0, 0)%Q]].
Proof. split; vm_compute; reflexivity. Qed.

(** C3: two consecutive neighbor-buffer overflows from the start of a run.
    After the second one the flag is reset, [buffer_size] is 1.25 and the
    notice is printed, but the loader the loop allocates with still
    carries the factor 1.2 and the new neighbor list was allocated with
    1.2. *)
Theorem second_overflow_reallocates_with_old_factor :
  let W := Toy.world true in
  let cfg := Toy.settings true in
  let st0 := Driver.initial W cfg Toy.state0 in
  let st1 := fst (Driver.iteration W cfg st0) in
  let st2 := fst (Driver.iteration W cfg st1) in
  Driver.nbrs_overflowed W cfg st0 = true
  /\ Driver.nbrs_overflowed W cfg st1 = true
  /\ Driver.NBRS_FLAG st1 = true
  /\ Driver.NBRS_FLAG st2 = false
  /\ Qeq_bool (Driver.buffer_size st2) (125 # 100) = true
  /\ Driver.printed st2
     = [Driver.Report 0; Driver.Report 0; Driver.SecondOverflow (1250 # 1000)]
  /\ Driver.loader_size (Driver.neighborlist st2) = (12 # 10)%Q
  /\ Driver.nbrs_list st2
     = Driver.loader_allocate W (Driver.neighborlist st0)
         (Driver.mod_box cfg (Driver.position W (Driver.state st1)))
  /\ Driver.nbrs_list st2 = [(12 # 10)%Q].
Proof. cbv zeta. repeat apply conj; vm_compute; reflexivity. Qed.

(** In every world: the iteration that meets a second consecutive
    neighbor-buffer overflow raises [buffer_size] by 0.05 and reallocates
    with the loader it had, whose factor the loop never changes. *)
Lemma second_overflow_keeps_loader (W : Driver.World) (cfg : Driver.Config)
    (st : Driver.LoopState W) :
  Driver.use_neighborlist cfg = true ->
  Driver.nbrs_overflowed W cfg st = true ->
  Driver.NBRS_FLAG st = true ->
  let st' := fst (Driver.iteration W cfg st) in
  Driver.buffer_size st' = (Driver.buffer_size st + (5 # 100))%Q
  /\ Driver.NBRS_FLAG st' = false
  /\ Driver.neighborlist st' = Driver.neighborlist st
  /\ Driver.nbrs_list st'
     = Driver.loader_allocate W (Driver.neighborlist st)
         (Driver.mod_box cfg (Driver.position W (Driver.state st))).
Proof.
  intros Hnl Hov Hflag st'. subst st'.
  rewrite (iteration_nbrs_overflow W cfg st Hnl Hov). cbn [fst].
  destruct (report_keeps W cfg st)
    as (Hi & Hs & Hn & Hf & Hb & Hu & Hm & Hl & Hp & Hv & Hd).
  unfold Driver.on_nbrs_overflow. rewrite Hf, Hflag. simpl.
  rewrite Hb, Hl, Hs. repeat apply conj; reflexivity.
Qed.

(** The second half of C3 holds: a cutoff-buffer overflow when the update
    granularity is already 1 prints the error and leaves the loop. *)
Lemma rcut_overflow_at_granularity_one_aborts (W : Driver.World) (cfg : Driver.Config)
    (st : Driver.LoopState W) :
  Driver.use_neighborlist cfg = true ->
  Driver.nbrs_overflowed W cfg st = false ->
  Driver.rcut_overflowed W cfg st = true ->
  Driver.update_every st = 1 ->
  snd (Driver.iteration W cfg st) = Driver.Break
  /\ Driver.printed (fst (Driver.iteration W cfg st))
     = Driver.printed (Driver.report W cfg st) ++ [Driver.RcutOverflowError].
Proof.
  intros Hnl Hov Hrc Hue.
  rewrite (iteration_rcut_overflow W cfg st Hnl Hov Hrc).
  destruct (report_keeps W cfg st) as (_ & _ & _ & _ & _ & Hu & _).
  unfold Driver.on_rcut_overflow. simpl Driver.update_every.
  rewrite Hu, Hue. simpl. split; reflexivity.
Qed.

(** C4, as the claim states it, fails: in neighbor-list mode, with the
    update granularity already reduced to 1, a chunk in which an atom
    leaves its buffer is detected as overflowed and is not rerun; the loop
    ends there. *)
Lemma overflow_at_granularity_one_is_not_rerun :
  let W := Toy.world false in
  let cfg := Toy.settings true in
  let st0 := Driver.initial W cfg Toy.state0 in
  let st1 := fst (Driver.iteration W cfg st0) in
  let st2 := fst (Driver.iteration W cfg st1) in
  Driver.update_every st2 = 1
  /\ Driver.overflow_detected W cfg st2 = true
  /\ snd (Driver.iteration W cfg st2) = Driver.Break
  /\ Driver.loop W cfg 1 st2 = Some (fst (Driver.iteration W cfg st2)).
Proof. cbv zeta. repeat apply conj; vm_compute; reflexivity. Qed.

Lemma loop_next (W : Driver.World) (cfg : Driver.Config)
    (st st' : Driver.LoopState W) (fuel : nat) :
  Driver.i st < Driver.total_steps cfg ->
  Driver.iteration W cfg st = (st', Driver.Next) ->
  Driver.loop W cfg (S fuel) st = Driver.loop W cfg fuel st'.
Proof.
  intros Hlt Hit. simpl. apply Z.ltb_lt in Hlt. rewrite Hlt, Hit. reflexivity.
Qed.

(** C4, amended: when the chunk of an iteration is detected as overflowed,
    the iteration leaves the step counter, the state and the recorded
    trajectories as they were.  It leaves the loop exactly when the
    overflow is a cutoff-buffer overflow at update granularity 1;
    otherwise the loop goes on from the same step and state, with the
    neighbor list reallocated at the pre-chunk positions (neighbor-buffer
    overflow) or with the update granularity halved (cutoff-buffer
    overflow). *)
Theorem overflow_discards_chunk (W : Driver.World) (cfg : Driver.Config)
    (st : Driver.LoopState W) :
  Driver.overflow_detected W cfg st = true ->
  let st' := fst (Driver.iteration W cfg st) in
  let ctl := snd (Driver.iteration W cfg st) in
  Driver.discarded st st'
  /\ (ctl = Driver.Break
      <-> Driver.nbrs_overflowed W cfg st = false /\ Driver.update_every st = 1)
  /\ (Driver.nbrs_overflowed W cfg st = true ->
      Driver.nbrs_list st'
      = Driver.loader_allocate W (Driver.neighborlist st)
          (Driver.mod_box cfg (Driver.position W (Driver.state st)))
      /\ Driver.update_every st' = Driver.update_every st)
  /\ (Driver.nbrs_overflowed W cfg st = false ->
      Driver.update_every st <> 1 ->
      Driver.nbrs_list st' = Driver.nbrs_list st
      /\ Driver.update_every st' = Z.max (Driver.update_every st / 2) 1
      /\ Driver.multi_steps st' = Driver.update_every st')
  /\ (ctl = Driver.Next ->
      forall fuel, Driver.i st < Driver.total_steps cfg ->
        Driver.loop W cfg (S fuel) st = Driver.loop W cfg fuel st').
Proof.
  intros Hdet st' ctl. subst st' ctl.
  unfold Driver.overflow_detected in Hdet.
  apply andb_true_iff in Hdet. destruct Hdet as [Hnl Hany].
  destruct (report_keeps W cfg st)
    as (Hi & Hs & Hn & Hf & Hb & Hu & Hm & Hl & Hp & Hv & Hd).
  destruct (Driver.nbrs_overflowed W cfg st) eqn:Hov.
  - pose proof (iteration_nbrs_overflow W cfg st Hnl Hov) as Hit.
    rewrite Hit. cbn [fst snd].
    split; [ | split; [ | split; [ | split ] ] ].
    + unfold Driver.on_nbrs_overflow, Driver.discarded.
      destruct (Driver.NBRS_FLAG (Driver.report W cfg st)); simpl;
        rewrite Hi, Hs, Hp, Hv, Hd; repeat apply conj; reflexivity.
    + split; [ discriminate | intros [? _]; discriminate ].
    + intros _. unfold Driver.on_nbrs_overflow.
      destruct (Driver.NBRS_FLAG (Driver.report W cfg st)); simpl;
        rewrite Hs, Hl, Hu; split; reflexivity.
    + discriminate.
    + intros _ fuel Hlt. exact (loop_next W cfg st _ fuel Hlt Hit).
  - simpl in Hany.
    pose proof (iteration_rcut_overflow W cfg st Hnl Hov Hany) as Hit.
    unfold Driver.on_rcut_overflow in Hit.
    replace (Driver.update_every (Driver.clear_flag W (Driver.report W cfg st)))
      with (Driver.update_every st) in Hit by (symmetry; exact Hu).
    destruct (Z.eqb_spec (Driver.update_every st) 1) as [E1 | N1];
      rewrite Hit; cbn [fst snd];
      (split; [ unfold Driver.discarded; simpl;
                rewrite Hi, Hs, Hp, Hv, Hd; repeat apply conj; reflexivity | ]).
    + split; [ split; auto | ].
      split; [ discriminate | ].
      split; [ intros _ Hne; contradiction | ].
      discriminate.
    + split; [ split; [ discriminate | intros [_ ?]; contradiction ] | ].
      split; [ discriminate | ].
      split; [ intros _ _; simpl; rewrite Hn; repeat apply conj; reflexivity | ].
      intros _ fuel Hlt. exact (loop_next W cfg st _ fuel Hlt Hit).
Qed.

Lemma overflow_discards_chunk_witness :
  let W := Toy.world true in
  let cfg := Toy.settings true in
  let st := Driver.initial W cfg Toy.state0 in
  let st' := fst (Driver.iteration W cfg st) in
  let ctl := snd (Driver.iteration W cfg st) in
  Driver.overflow_detected W cfg st = true
  /\ Driver.discarded st st'
  /\ (ctl = Driver.Break
      <-> Driver.nbrs_overflowed W cfg st = false /\ Driver.update_every st = 1)
  /\ (Driver.nbrs_overflowed W cfg st = true ->
      Driver.nbrs_list st'
      = Driver.loader_allocate W (Driver.neighborlist st)
          (Driver.mod_box cfg (Driver.position W (Driver.state st)))
      /\ Driver.update_every st' = Driver.update_every st)
  /\ (Driver.nbrs_overflowed W cfg st = false ->
      Driver.update_every st <> 1 ->
      Driver.nbrs_list st' = Driver.nbrs_list st
      /\ Driver.update_every st' = Z.max (Driver.update_every st / 2) 1
      /\ Driver.multi_steps st' = Driver.update_every st')
  /\ (ctl = Driver.Next ->
      forall fuel, Driver.i st < Driver.total_steps cfg ->
        Driver.loop W cfg (S fuel) st = Driver.loop W cfg fuel st').
Proof.
  split.
  - reflexivity.
  - apply (overflow_discards_chunk (Toy.world true) (Toy.settings true)
             (Driver.initial (Toy.world true) (Toy.settings true) Toy.state0)).
    reflexivity.
Defined.

(* ------------------------------------------------------------------ *)
(** ** Reallocation in a run *)

Section ReallocationFacts.

Variable get_mask_by_device : list Z -> list bool.
Variable reorder_by_device : list vec3 -> list Z -> list vec3.
Variable JNbrs : Type.
Variable idx : JNbrs -> table.
Variable did_buffer_overflow : JNbrs -> bool.
Variable partition_allocate :
  vec3 -> Q -> Q -> (table -> table) -> list vec3 -> JNbrs.
Variable partition_update : JNbrs -> list vec3 -> JNbrs.
Variable State : Type.
Variable position : State -> Driver.Frame.
Variable velocity : State -> Driver.Frame.
Variable apply_fn : State -> option (list (EngineRun.allocated JNbrs)) -> State.
Variable compute_model_devi :
  State -> option (list (EngineRun.allocated JNbrs)) -> Q.
Variable cfg : Driver.Config.

Let W :=
  EngineRun.world get_mask_by_device reorder_by_device JNbrs idx
    did_buffer_overflow partition_allocate partition_update
    State position velocity apply_fn compute_model_devi.
Let allocate_at :=
  EngineRun.allocate_at get_mask_by_device reorder_by_device JNbrs idx
    partition_allocate.
Let loader_allocate :=
  EngineRun.loader_allocate get_mask_by_device reorder_by_device JNbrs idx
    partition_allocate.
Let counts_at :=
  EngineRun.counts_at get_mask_by_device reorder_by_device JNbrs idx
    partition_allocate.
Let capacity := EngineRun.capacity JNbrs.

(** An allocation returns when its counts can be measured, and leaves the
    padded widths of those counts in the object. *)
Lemma allocate_at_capacity (nl : Driver.NeighborListLoader) (coord : Driver.Frame)
    (ms : list Z) :
  counts_at nl coord = Ok ms ->
  exists a,
    allocate_at nl coord = Ok a
    /\ NeighborList.knbr (fst a)
       = Some (map (fun m =>
                      NeighborList.padded_capacity (Driver.loader_size nl)
                        (int_of_Q (inject_Z m * Driver.loader_size nl)))
                   ms).
Proof.
  unfold counts_at, EngineRun.counts_at, allocate_at, EngineRun.allocate_at,
    NeighborList.allocate.
  cbv zeta. intros H.
  rewrite measure_knbr_of_max_counts, H. simpl.
  eexists. split; reflexivity.
Qed.

Lemma counts_at_nonneg (nl : Driver.NeighborListLoader) (coord : Driver.Frame)
    (ms : list Z) :
  counts_at nl coord = Ok ms -> Forall (fun m => 0 <= m) ms.
Proof.
  unfold counts_at, EngineRun.counts_at. cbv zeta.
  apply max_counts_nonneg.
Qed.

(** C9, amended: when the chunk of an iteration overflows the neighbor
    buffer, the loop allocates anew with the loader it holds, at the
    positions before the discarded chunk.  The row widths after that
    reallocation are those of the counts measured there: when the list
    the chunk started with has the widths of an allocation at [coordA]
    and no type's measured maximum count is smaller now than it was at
    [coordA] (buffer factor not negative), no type's row width is smaller
    than before. *)
Theorem reallocation_capacity_monotone_in_counts
    (st : Driver.LoopState W) (coordA : Driver.Frame) (msA msB : list Z) :
  let nl := Driver.neighborlist st in
  let coordB := Driver.mod_box cfg (position (Driver.state st)) in
  let st' := fst (Driver.iteration W cfg st) in
  Driver.use_neighborlist cfg = true ->
  Driver.nbrs_overflowed W cfg st = true ->
  (0 <= Driver.loader_size nl)%Q ->
  capacity (Driver.nbrs_list st) = capacity (loader_allocate nl coordA) ->
  counts_at nl coordA = Ok msA ->
  counts_at nl coordB = Ok msB ->
  Forall2 Z.le msA msB ->
  Driver.neighborlist st' = nl
  /\ Driver.nbrs_list st' = loader_allocate nl coordB
  /\ exists ksA ksB,
       capacity (Driver.nbrs_list st) = [Some ksA]
       /\ capacity (Driver.nbrs_list st') = [Some ksB]
       /\ Forall2 Z.le ksA ksB.
Proof.
  intros nl coordB st' Hnl Hov Hsize Hcap HA HB Hle.
  assert (Hlist : Driver.neighborlist st' = nl
                  /\ Driver.nbrs_list st' = loader_allocate nl coordB).
  { unfold st'. rewrite (iteration_nbrs_overflow W cfg st Hnl Hov). cbn [fst].
    destruct (report_keeps W cfg st)
      as (_ & Hs & _ & _ & _ & _ & _ & Hl & _).
    unfold Driver.on_nbrs_overflow.
    destruct (Driver.NBRS_FLAG (Driver.report W cfg st)); simpl;
      rewrite Hs, Hl; split; reflexivity. }
  destruct Hlist as [Hloader Hnew].
  split; [ exact Hloader | ]. split; [ exact Hnew | ].
  destruct (allocate_at_capacity nl coordA msA HA) as (a & Ea & Ka).
  destruct (allocate_at_capacity nl coordB msB HB) as (b & Eb & Kb).
  unfold loader_allocate, EngineRun.loader_allocate in Hcap, Hnew.
  fold allocate_at in Hcap, Hnew. rewrite Ea in Hcap. rewrite Eb in Hnew.
  eexists. eexists.
  split; [ rewrite Hcap; simpl; rewrite Ka; reflexivity | ].
  split; [ rewrite Hnew; simpl; rewrite Kb; reflexivity | ].
  apply padded_widths_mono; [ exact Hsize | | exact Hle ].
  exact (counts_at_nonneg nl coordA msA HA).
Qed.

End ReallocationFacts.

(** C9, as the claim states it, fails.  Eight atoms of one type; at the
    start one atom has two neighbors and the list is allocated with rows
    of width 3.  The first chunk is accepted; by its end those neighbors
    have parted and no atom has more than one.  In the second chunk five
    atoms come within the cutoff of the atom in the middle: the list
    overflows (and [get_nm] raises its flag on it), the chunk is discarded
    and the loop reallocates at the positions before it, which gives rows
    of width 2. *)
Lemma overflow_reallocation_shrinks_capacity :
  let W := Cluster.world in
  let cfg := Cluster.settings in
  let st0 := Driver.initial W cfg Cluster.thinning in
  let st1 := fst (Driver.iteration W cfg st0) in
  let st2 := fst (Driver.iteration W cfg st1) in
  EngineRun.capacity Cluster.bounded (Driver.nbrs_list st0) = [Some [3]]
  /\ Driver.overflow_detected W cfg st0 = false
  /\ Driver.i st1 = 10
  /\ EngineRun.capacity Cluster.bounded (Driver.nbrs_list st1) = [Some [3]]
  /\ Driver.nbrs_overflowed W cfg st1 = true
  /\ map Cluster.get_nm_flag (snd (fst (Driver.chunk W cfg st1))) = [Ok true]
  /\ Driver.i st2 = 10
  /\ Driver.state st2 = Driver.state st1
  /\ EngineRun.capacity Cluster.bounded (Driver.nbrs_list st2) = [Some [2]].
Proof. cbv zeta. repeat apply conj; vm_compute; reflexivity. Qed.

Lemma reallocation_capacity_monotone_in_counts_witness :
  let W := Cluster.world in
  let cfg := Cluster.settings in
  let st0 := Driver.initial W cfg Cluster.thickening in
  let st := fst (Driver.iteration W cfg st0) in
  let st' := fst (Driver.iteration W cfg st) in
  let nl := Driver.neighborlist st in
  let coordA := Driver.mod_box cfg (fst Cluster.thickening) in
  let coordB := Driver.mod_box cfg (fst (Driver.state st)) in
  Driver.i st = 10
  /\ Driver.nbrs_overflowed W cfg st = true
  /\ Cluster.counts_at nl coordA = Ok [1]
  /\ Cluster.counts_at nl coordB = Ok [2]
  /\ Driver.neighborlist st' = nl
  /\ Driver.nbrs_list st' = Driver.loader_allocate W nl coordB
  /\ exists ksA ksB,
       EngineRun.capacity Cluster.bounded (Driver.nbrs_list st) = [Some ksA]
       /\ EngineRun.capacity Cluster.bounded (Driver.nbrs_list st') = [Some ksB]
       /\ Forall2 Z.le ksA ksB.
Proof.
  cbv zeta.
  pose proof (reallocation_capacity_monotone_in_counts
                Toy.all_real Toy.keep_order Cluster.bounded Cluster.b_idx
                Cluster.b_overflow Cluster.allocate_bounded Cluster.update_bounded
                (Driver.Frame * Driver.Frame)%type fst snd Cluster.fly
                (fun _ _ => 0%Q) Cluster.settings
                (fst (Driver.iteration Cluster.world Cluster.settings
                        (Driver.initial Cluster.world Cluster.settings
                           Cluster.thickening)))
                (Driver.mod_box Cluster.settings (fst Cluster.thickening))
                [1] [2]) as H.
  cbv zeta in H.
  match type of H with
  | ?A -> _ => assert (Hnl : A) by reflexivity; specialize (H Hnl)
  end.
  match type of H with
  | ?A -> _ => assert (Hov : A) by (vm_compute; reflexivity); specialize (H Hov)
  end.
  match type of H with
  | ?A -> _ => assert (Hsize : A) by (vm_compute; discriminate); specialize (H Hsize)
  end.
  match type of H with
  | ?A -> _ => assert (Hcap : A) by (vm_compute; reflexivity); specialize (H Hcap)
  end.
  match type of H with
  | ?A -> _ => assert (HA : A) by (vm_compute; reflexivity); specialize (H HA)
  end.
  match type of H with
  | ?A -> _ => assert (HB : A) by (vm_compute; reflexivity); specialize (H HB)
  end.
  match type of H with
  | ?A -> _ =>
      assert (Hle : A) by (constructor; [ lia | constructor ]); specialize (H Hle)
  end.
  split; [ vm_compute; reflexivity | ].
  split; [ exact Hov | ].
  split; [ exact HA | ].
  split; [ exact HB | ].
  exact H.
Defined.

(* ================================================================== *)
(** * Further properties of the code *)

(* ------------------------------------------------------------------ *)
(** ** What a constructed simulation holds *)

Lemma dict_get_set_same (k : string) (v : Q) (d : dict) :
  dict_get k (dict_set k v d) = Some v.
Proof.
  induction d as [| [k' v'] d IH]; simpl.
  - rewrite String.eqb_refl. reflexivity.
  - destruct (String.eqb k k') eqn:E; simpl.
    + rewrite String.eqb_refl. reflexivity.
    + rewrite E. exact IH.
Qed.

Lemma dict_get_set_other (k k' : string) (v : Q) (d : dict) :
  String.eqb k' k = false -> dict_get k' (dict_set k v d) = dict_get k' d.
Proof.
  intros Hne. induction d as [| [k0 v0] d IH]; simpl.
  - rewrite Hne. reflexivity.
  - destruct (String.eqb k k0) eqn:E; simpl.
    + apply String.eqb_eq in E. subst k0. rewrite Hne. reflexivity.
    + destruct (String.eqb k' k0); [ reflexivity | exact IH ].
Qed.

Lemma dict_get_remove_same (k : string) (d : dict) :
  dict_get k (dict_remove k d) = None.
Proof.
  induction d as [| [k' v'] d IH]; simpl; [ reflexivity | ].
  destruct (String.eqb k k') eqn:E; simpl; [ exact IH | ].
  rewrite E. exact IH.
Qed.

Lemma dict_pop_get (k : string) (d : dict) (v : Q) (d' : dict) :
  dict_pop k d = Some (v, d') -> dict_get k d = Some v /\ d' = dict_remove k d.
Proof.
  unfold dict_pop. destruct (dict_get k d); intros H; inversion H; auto.
Qed.

(** What a successful construction went through. *)
Lemma init_stages (Lattice : Type)
    (compute_lattice_candidate : Box -> Q -> result Lattice) (V : Type)
    (tc : list Z) (rcut : Q) (box : Box) (mass : list Q) (routine : string)
    (velocity : option V) (init_temperature : option Q) (routine_args : dict)
    (sim : Simulation.t Lattice) :
  Simulation.init compute_lattice_candidate tc rcut box mass routine velocity
    init_temperature routine_args = Ok sim ->
  exists rb l sel,
    Simulation.reference_box_of box = Some rb
    /\ compute_lattice_candidate (BoxVec rb) (lattice_rcut routine rcut) = Ok l
    /\ Simulation.select_routine routine routine_args = Ok sel
    /\ sim = Simulation.mkSimulation rb (mkStaticArgs tc (Some l) false)
               (fst sel) (snd sel) (map Units.mass_of_amu mass)
               (Units.kT_of_kelvin
                  match init_temperature with Some T => T | None => 0%Q end).
Proof.
  unfold Simulation.init, lattice_rcut.
  assert (Hgo : forall r : result (Simulation.t Lattice),
    r = (refbox <- Simulation.get_reference_box (Simulation.reference_box_of box) ;;
         sargs <- get_static_args compute_lattice_candidate
                    (if contains "NPT" routine
                     then (rcut + Simulation.dr_buffer_lattice)%Q else rcut)
                    tc (BoxVec refbox) ;;
         _ <- (if use_neighbor_list sargs
               then Raise (AttributeError "position") else Ok tt) ;;
         sel <- Simulation.select_routine routine routine_args ;;
         Ok (Simulation.mkSimulation refbox sargs (fst sel) (snd sel)
               (map Units.mass_of_amu mass)
               (Units.kT_of_kelvin
                  match init_temperature with Some T => T | None => 0%Q end))) ->
    r = Ok sim ->
    exists rb l sel,
      Simulation.reference_box_of box = Some rb
      /\ compute_lattice_candidate (BoxVec rb)
           (if contains "NPT" routine
            then (rcut + Simulation.dr_buffer_lattice)%Q else rcut) = Ok l
      /\ Simulation.select_routine routine routine_args = Ok sel
      /\ sim = Simulation.mkSimulation rb (mkStaticArgs tc (Some l) false)
                 (fst sel) (snd sel) (map Units.mass_of_amu mass)
                 (Units.kT_of_kelvin
                    match init_temperature with Some T => T | None => 0%Q end)).
  { intros r -> H.
    destruct (Simulation.reference_box_of box) as [rb |]; simpl in H;
      [ | discriminate ].
    unfold get_static_args in H. rewrite check_if_use_neighbor_list_false in H.
    destruct (compute_lattice_candidate (BoxVec rb) _) as [l |] eqn:El;
      simpl in H; [ | discriminate ].
    destruct (Simulation.select_routine routine routine_args) as [sel |] eqn:Es;
      simpl in H; [ | discriminate ].
    inversion H. exists rb, l, sel. auto. }
  destruct velocity as [v |], init_temperature as [T |];
    try (apply Hgo; reflexivity).
  discriminate.
Qed.

Lemma select_nvt (routine_args : dict) (sel : Simulation.routine_fn * dict) :
  Simulation.select_routine "NVT_Nose_Hoover" routine_args = Ok sel ->
  exists T,
    dict_get "temperature" routine_args = Some T
    /\ sel = (Simulation.nvt_nose_hoover,
              dict_set "kT" (Units.kT_of_kelvin T)
                (dict_remove "temperature" routine_args)).
Proof.
  unfold Simulation.select_routine. simpl.
  destruct (dict_mem "temperature" routine_args); simpl; [ | discriminate ].
  destruct (dict_pop "temperature" routine_args) as [[T d'] |] eqn:Ep;
    [ | discriminate ].
  apply dict_pop_get in Ep. destruct Ep as [Hg ->].
  intros H; inversion H. exists T. auto.
Qed.

Lemma select_npt (routine_args : dict) (sel : Simulation.routine_fn * dict) :
  Simulation.select_routine "NPT_Nose_Hoover" routine_args = Ok sel ->
  exists T P,
    dict_get "temperature" routine_args = Some T
    /\ dict_get "pressure" routine_args = Some P
    /\ sel = (Simulation.npt_nose_hoover,
              dict_set "pressure" (Units.pressure_of_bar P)
                (dict_set "kT" (Units.kT_of_kelvin T)
                   (dict_remove "pressure"
                      (dict_remove "temperature" routine_args)))).
Proof.
  unfold Simulation.select_routine. simpl.
  destruct (dict_mem "temperature" routine_args); simpl; [ | discriminate ].
  destruct (dict_mem "pressure" routine_args); simpl; [ | discriminate ].
  destruct (dict_pop "temperature" routine_args) as [[T d1] |] eqn:Ep;
    [ | discriminate ].
  apply dict_pop_get in Ep. destruct Ep as [Hg ->].
  destruct (dict_pop "pressure" (dict_remove "temperature" routine_args))
    as [[P d2] |] eqn:Ep2; [ | discriminate ].
  apply dict_pop_get in Ep2. destruct Ep2 as [Hg2 ->].
  rewrite dict_get_remove_other in Hg2 by reflexivity.
  intros H; inversion H. exists T, P. auto.
Qed.

(** A simulation constructed for NVT_Nose_Hoover hands the integrator the
    thermal energy [kT] = temperature x 8.617333e-5 in place of the
    temperature: the key [temperature] is gone, every other keyword is
    passed on as given. *)
Theorem nvt_arguments_converted (Lattice : Type)
    (compute_lattice_candidate : Box -> Q -> result Lattice) (V : Type)
    (tc : list Z) (rcut : Q) (box : Box) (mass : list Q)
    (velocity : option V) (init_temperature : option Q) (routine_args : dict)
    (sim : Simulation.t Lattice) :
  Simulation.init compute_lattice_candidate tc rcut box mass "NVT_Nose_Hoover"
    velocity init_temperature routine_args = Ok sim ->
  exists T,
    dict_get "temperature" routine_args = Some T
    /\ Simulation.routine_of sim = Simulation.nvt_nose_hoover
    /\ dict_get "kT" (Simulation.routine_args_of sim)
       = Some (T * (8617333 # 100000000000))%Q
    /\ dict_get "temperature" (Simulation.routine_args_of sim) = None
    /\ (forall k, String.eqb k "kT" = false ->
                  String.eqb k "temperature" = false ->
                  dict_get k (Simulation.routine_args_of sim)
                  = dict_get k routine_args).
Proof.
  intros H. apply init_stages in H.
  destruct H as (rb & l & sel & _ & _ & Hsel & ->).
  apply select_nvt in Hsel. destruct Hsel as (T & Hg & ->).
  exists T. simpl. split; [ exact Hg | ]. split; [ reflexivity | ].
  split; [ apply dict_get_set_same | ].
  split.
  - rewrite dict_get_set_other by reflexivity. apply dict_get_remove_same.
  - intros k Hk1 Hk2.
    rewrite dict_get_set_other by exact Hk1.
    apply dict_get_remove_other. exact Hk2.
Qed.

Lemma nvt_arguments_converted_witness :
  exists sim,
    Simulation.init (fun _ _ => Ok tt) [4] 6 (BoxScalar 10) [1; 1; 1; 1]%Q
      "NVT_Nose_Hoover" (Some tt) None nvt_args
    = Ok sim
    /\ exists T,
         dict_get "temperature" nvt_args = Some T
         /\ Simulation.routine_of sim = Simulation.nvt_nose_hoover
         /\ dict_get "kT" (Simulation.routine_args_of sim)
            = Some (T * (8617333 # 100000000000))%Q
         /\ dict_get "temperature" (Simulation.routine_args_of sim) = None
         /\ (forall k, String.eqb k "kT" = false ->
                       String.eqb k "temperature" = false ->
                       dict_get k (Simulation.routine_args_of sim)
                       = dict_get k nvt_args).
Proof.
  eexists. split.
  - reflexivity.
  - apply (nvt_arguments_converted unit (fun _ _ => Ok tt) unit [4] 6
             (BoxScalar 10) [1; 1; 1; 1]%Q (Some tt) None
             nvt_args).
    reflexivity.
Defined.

(** A simulation constructed for NPT_Nose_Hoover hands the integrator
    [kT] = temperature x 8.617333e-5 and [pressure] = pressure x
    6.241509e-7; the key [temperature] is gone, every other keyword is
    passed on as given. *)
Theorem npt_arguments_converted (Lattice : Type)
    (compute_lattice_candidate : Box -> Q -> result Lattice) (V : Type)
    (tc : list Z) (rcut : Q) (box : Box) (mass : list Q)
    (velocity : option V) (init_temperature : option Q) (routine_args : dict)
    (sim : Simulation.t Lattice) :
  Simulation.init compute_lattice_candidate tc rcut box mass "NPT_Nose_Hoover"
    velocity init_temperature routine_args = Ok sim ->
  exists T P,
    dict_get "temperature" routine_args = Some T
    /\ dict_get "pressure" routine_args = Some P
    /\ Simulation.routine_of sim = Simulation.npt_nose_hoover
    /\ dict_get "kT" (Simulation.routine_args_of sim)
       = Some (T * (8617333 # 100000000000))%Q
    /\ dict_get "pressure" (Simulation.routine_args_of sim)
       = Some (P * (6241509 # 10000000000000))%Q
    /\ dict_get "temperature" (Simulation.routine_args_of sim) = None
    /\ (forall k, String.eqb k "kT" = false ->
                  String.eqb k "pressure" = false ->
                  String.eqb k "temperature" = false ->
                  dict_get k (Simulation.routine_args_of sim)
                  = dict_get k routine_args).
Proof.
  intros H. apply init_stages in H.
  destruct H as (rb & l & sel & _ & _ & Hsel & ->).
  apply select_npt in Hsel. destruct Hsel as (T & P & Hg & Hg' & ->).
  exists T, P. simpl. split; [ exact Hg | ]. split; [ exact Hg' | ].
  split; [ reflexivity | ].
  split; [ rewrite dict_get_set_other by reflexivity; apply dict_get_set_same | ].
  split; [ apply dict_get_set_same | ].
  split.
  - rewrite !dict_get_set_other by reflexivity.
    rewrite dict_get_remove_other by reflexivity. apply dict_get_remove_same.
  - intros k Hk1 Hk2 Hk3.
    rewrite dict_get_set_other by exact Hk2.
    rewrite dict_get_set_other by exact Hk1.
    rewrite dict_get_remove_other by exact Hk2.
    apply dict_get_remove_other. exact Hk3.
Qed.

Lemma npt_arguments_converted_witness :
  exists sim,
    Simulation.init (fun _ _ => Ok tt) [4] 6 (BoxScalar 10) [1; 1; 1; 1]%Q
      "NPT_Nose_Hoover" (Some tt) None npt_args
    = Ok sim
    /\ exists T P,
         dict_get "temperature" npt_args = Some T
         /\ dict_get "pressure" npt_args = Some P
         /\ Simulation.routine_of sim = Simulation.npt_nose_hoover
         /\ dict_get "kT" (Simulation.routine_args_of sim)
            = Some (T * (8617333 # 100000000000))%Q
         /\ dict_get "pressure" (Simulation.routine_args_of sim)
            = Some (P * (6241509 # 10000000000000))%Q
         /\ dict_get "temperature" (Simulation.routine_args_of sim) = None
         /\ (forall k, String.eqb k "kT" = false ->
                       String.eqb k "pressure" = false ->
                       String.eqb k "temperature" = false ->
                       dict_get k (Simulation.routine_args_of sim)
                       = dict_get k npt_args).
Proof.
  eexists. split.
  - reflexivity.
  - apply (npt_arguments_converted unit (fun _ _ => Ok tt) unit [4] 6
             (BoxScalar 10) [1; 1; 1; 1]%Q (Some tt) None
             npt_args).
    reflexivity.
Defined.

(** Every simulation that is constructed runs in lattice mode: its static
    arguments carry the lattice the selector returned for the diagonal of
    the box and never ask for a neighbor list.  Its masses are the given
    ones times 103.6427 and its initial thermal energy is the initial
    temperature times 8.617333e-5, zero when only a velocity was given. *)
Theorem constructed_simulation_fields (Lattice : Type)
    (compute_lattice_candidate : Box -> Q -> result Lattice) (V : Type)
    (tc : list Z) (rcut : Q) (box : Box) (mass : list Q) (routine : string)
    (velocity : option V) (init_temperature : option Q) (routine_args : dict)
    (sim : Simulation.t Lattice) :
  Simulation.init compute_lattice_candidate tc rcut box mass routine velocity
    init_temperature routine_args = Ok sim ->
  Simulation.reference_box sim = box_lengths box
  /\ use_neighbor_list (Simulation.static_args sim) = false
  /\ type_count (Simulation.static_args sim) = tc
  /\ (exists l,
        compute_lattice_candidate (BoxVec (box_lengths box))
          (if contains "NPT" routine then (rcut + 1)%Q else rcut) = Ok l
        /\ lattice (Simulation.static_args sim) = Some l)
  /\ Simulation.init_mass sim = map (fun m => (m * (1036427 # 10000))%Q) mass
  /\ Simulation.init_kT sim
     = ((match init_temperature with Some T => T | None => 0 end)
        * (8617333 # 100000000000))%Q.
Proof.
  intros H. apply init_stages in H.
  destruct H as (rb & l & sel & Hrb & Hl & _ & ->).
  apply reference_box_of_lengths in Hrb. subst rb. simpl.
  repeat apply conj; try reflexivity.
  exists l. split; [ exact Hl | reflexivity ].
Qed.

Lemma constructed_simulation_fields_witness :
  exists sim,
    Simulation.init (fun _ _ => Ok tt) [4] 6 (BoxScalar 10) [16; 1; 1; 1]%Q
      "NVE" (Some tt) None [] = Ok sim
    /\ Simulation.reference_box sim = box_lengths (BoxScalar 10)
    /\ use_neighbor_list (Simulation.static_args sim) = false
    /\ type_count (Simulation.static_args sim) = [4]
    /\ (exists l,
          (fun (_ : Box) (_ : Q) => Ok tt) (BoxVec (box_lengths (BoxScalar 10)))
            (if contains "NPT" "NVE" then (6 + 1)%Q else 6%Q) = Ok l
          /\ lattice (Simulation.static_args sim) = Some l)
    /\ Simulation.init_mass sim
       = map (fun m => (m * (1036427 # 10000))%Q) [16; 1; 1; 1]%Q
    /\ Simulation.init_kT sim
       = ((match @None Q with Some T => T | None => 0 end)
          * (8617333 # 100000000000))%Q.
Proof.
  eexists. split.
  - reflexivity.
  - apply (constructed_simulation_fields unit (fun _ _ => Ok tt) unit [4] 6
             (BoxScalar 10) [16; 1; 1; 1]%Q "NVE" (Some tt) None []).
    reflexivity.
Defined.

(** A box given as a 3-vector, or as a 3x3 matrix with a non-zero
    off-diagonal entry, never gets a reference box: construction stops
    with an AttributeError as soon as something initialises the
    velocities, whatever the routine and its arguments. *)
Theorem unsupported_box_shape_raises (Lattice : Type)
    (compute_lattice_candidate : Box -> Q -> result Lattice) (V : Type)
    (tc : list Z) (rcut : Q) (box : Box) (mass : list Q) (routine : string)
    (velocity : option V) (init_temperature : option Q) (routine_args : dict) :
  (exists v, box = BoxVec v)
  \/ (shape_is_3x3 box = true /\ is_orthorhombic box = false) ->
  is_none velocity && is_none init_temperature = false ->
  Simulation.init compute_lattice_candidate tc rcut box mass routine velocity
    init_temperature routine_args = Raise (AttributeError "reference_box").
Proof.
  intros Hbox Hgiven.
  assert (Hrb : Simulation.reference_box_of box = None).
  { unfold Simulation.reference_box_of.
    destruct Hbox as [[v ->] | [H1 H2]]; [ reflexivity | ].
    rewrite H1, H2. destruct box; simpl in H1; try discriminate. reflexivity. }
  unfold Simulation.init. rewrite Hrb.
  destruct velocity, init_temperature; simpl in Hgiven; try discriminate;
    reflexivity.
Qed.

Lemma unsupported_box_shape_raises_witness :
  ((exists v, BoxVec (10, 10, 10)%Q = BoxVec v)
   \/ (shape_is_3x3 (BoxVec (10, 10, 10)%Q) = true
       /\ is_orthorhombic (BoxVec (10, 10, 10)%Q) = false))
  /\ is_none (Some tt) && is_none (@None Q) = false
  /\ Simulation.init (fun _ _ => Ok tt) [4] 6 (BoxVec (10, 10, 10)%Q)
       [1; 1; 1; 1]%Q "NVE" (Some tt) None []
     = Raise (AttributeError "reference_box").
Proof.
  assert (H : (exists v, BoxVec (10, 10, 10)%Q = BoxVec v)
              \/ (shape_is_3x3 (BoxVec (10, 10, 10)%Q) = true
                  /\ is_orthorhombic (BoxVec (10, 10, 10)%Q) = false)).
  { left. exists (10, 10, 10)%Q. reflexivity. }
  split; [ exact H | ]. split; [ reflexivity | ].
  exact (unsupported_box_shape_raises unit (fun _ _ => Ok tt) unit [4] 6
           (BoxVec (10, 10, 10)%Q) [1; 1; 1; 1]%Q "NVE" (Some tt) None []
           H eq_refl).
Defined.

(* ------------------------------------------------------------------ *)
(** ** The overflow flags a chunk of class Simulation accumulates *)

Section ChunkFlags.

Variables State Position Velocity NbrsNm Nbrs Lattice : Type.
Variable position : State -> Position.
Variable velocity : State -> Velocity.
Variable state_box : State -> vec3.
Variable reference_position : Nbrs -> Position.
Variable nbrs_nm : Nbrs -> NbrsNm.
Variable did_buffer_overflow : Nbrs -> bool.
Variable update : Nbrs -> Position -> option vec3 -> Nbrs.
Variable apply_fn : State -> vec3 -> option NbrsNm -> StaticArgs Lattice -> State.
Variable routine : string.
Variable self_reference_box : vec3.
Variable self_static_args : StaticArgs Lattice.

Let step := Simulation.inner_step position velocity state_box reference_position
              nbrs_nm did_buffer_overflow update apply_fn routine
              self_reference_box self_static_args.
Let chunk := Simulation.run_chunk position velocity state_box reference_position
              nbrs_nm did_buffer_overflow update apply_fn routine
              self_reference_box self_static_args.

Lemma inner_step_flags st nb a b c :
  exists st' out,
    step (st, Some nb, (a, b, c))
    = Ok ((st', Some nb,
           (a || (use_neighbor_list self_static_args && did_buffer_overflow nb),
            b, c)), out).
Proof.
  unfold step, Simulation.inner_step, Simulation.inner_step_traced,
    Simulation.check_hard_overflow, Simulation.check_lattice_overflow,
    Simulation.check_soft_overflow.
  destruct (contains "NPT" routine), (use_neighbor_list self_static_args);
    simpl; rewrite ?orb_false_r; eauto.
Qed.

Lemma run_chunk_flags (n : nat) (st : State) (nb : Nbrs) (a b c : bool) :
  exists st' outs,
    chunk (st, Some nb, (a, b, c)) n
    = Ok ((st', Some nb,
           (a || (use_neighbor_list self_static_args && did_buffer_overflow nb
                  && negb (Nat.eqb n 0)),
            b, c)), outs).
Proof.
  unfold chunk, Simulation.run_chunk. fold step.
  revert st a. induction n as [| n IH]; intros st a.
  - exists st, []. simpl. rewrite andb_false_r, orb_false_r. reflexivity.
  - destruct (inner_step_flags st nb a b c) as (st1 & o1 & E1).
    destruct (IH st1 (a || (use_neighbor_list self_static_args
                            && did_buffer_overflow nb)))
      as (st2 & outs & E2).
    exists st2, (o1 :: outs).
    rewrite scan_succ, E1. simpl. rewrite E2. simpl.
    do 3 f_equal.
    destruct a, (use_neighbor_list self_static_args), (did_buffer_overflow nb),
             n; reflexivity.
Qed.

(** Whenever a chunk started with the flags [(a, b, c)] returns, the
    lattice flag and the hard flag are [b] and [c] as they were (neither
    is ever raised) and the neighbor list in the carry is the one the
    chunk started with.  The neighbor-buffer flag has been raised exactly
    when the simulation is in neighbor-list mode, that list had
    overflowed, and the chunk has at least one step. *)
Theorem chunk_overflow_flags (n : nat) (st st' : State) (nbrs nbrs' : option Nbrs)
    (a b c a' b' c' : bool) (outs : list (Position * Velocity)) :
  chunk (st, nbrs, (a, b, c)) n = Ok ((st', nbrs', (a', b', c')), outs) ->
  b' = b /\ c' = c /\ nbrs' = nbrs
  /\ a' = a || (use_neighbor_list self_static_args
               && match nbrs with
                  | Some nb => did_buffer_overflow nb
                  | None => false
                  end
               && negb (Nat.eqb n 0)).
Proof.
  intros H. destruct nbrs as [nb |].
  - destruct (run_chunk_flags n st nb a b c) as (st2 & outs2 & E).
    rewrite E in H. inversion H; subst. repeat split; reflexivity.
  - unfold chunk, Simulation.run_chunk in H. destruct n as [| n].
    + simpl in H. inversion H; subst.
      rewrite andb_false_r, orb_false_r. repeat split; reflexivity.
    + rewrite scan_succ in H. simpl in H. discriminate.
Qed.

End ChunkFlags.

Lemma chunk_overflow_flags_witness :
  Ticker.chunk (0, Some true, (false, false, false)) 2
  = Ok ((2, Some true, (true, false, false)), [(1, 1); (2, 2)])
  /\ (false = false /\ false = false /\ Some true = Some true
      /\ true = false || (use_neighbor_list Ticker.static_args
                          && true && negb (Nat.eqb 2 0))).
Proof.
  assert (H : Ticker.chunk (0, Some true, (false, false, false)) 2
              = Ok ((2, Some true, (true, false, false)), [(1, 1); (2, 2)]))
    by reflexivity.
  split; [ exact H | ].
  exact (chunk_overflow_flags Z Z Z unit bool unit
           (fun s => s) (fun s => s) (fun _ => (1, 1, 1)%Q)
           (fun _ => 0) (fun _ => tt) (fun nb => nb) (fun nb _ _ => nb)
           (fun s _ _ _ => s + 1) "NVE" (1, 1, 1)%Q Ticker.static_args
           2 0 2 (Some true) (Some true) false false false true false false
           [(1, 1); (2, 2)] H).
Defined.

(* ------------------------------------------------------------------ *)
(** ** The masks and the padded layout *)

Lemma sum_firstn_mono (l : list Z) :
  Forall (fun c => 0 <= c) l ->
  forall a b : nat, (a <= b)%nat -> sum_list (firstn a l) <= sum_list (firstn b l).
Proof.
  induction 1 as [| x l Hx Hl IH]; intros a b Hab.
  - rewrite !firstn_nil. lia.
  - destruct a as [| a].
    + simpl firstn at 1. change (sum_list []) with 0.
      apply (sum_firstn_bounds (x :: l)). constructor; assumption.
    + destruct b as [| b]; [ lia | ].
      change (firstn (S a) (x :: l)) with (x :: firstn a l).
      change (firstn (S b) (x :: l)) with (x :: firstn b l).
      rewrite !sum_list_cons. specialize (IH a b). lia.
Qed.

Lemma filled_nth (K : Z) (tc : list Z) (i : nat) :
  (i <= List.length tc)%nat ->
  nth i (type_idx_filled_each K tc) 0 = sum_list (firstn i (type_count_new K tc)).
Proof.
  intros Hi.
  assert (Hlen : List.length (type_count_new K tc) = List.length tc)
    by (unfold type_count_new; apply length_map).
  unfold type_idx_filled_each, cumsum.
  change (cumsum_from 0 (0 :: type_count_new K tc))
    with (0 :: cumsum_from 0 (type_count_new K tc)).
  destruct i as [| i]; [ reflexivity | ].
  change (nth (S i) (0 :: cumsum_from 0 (type_count_new K tc)) 0)
    with (nth i (cumsum_from 0 (type_count_new K tc)) 0).
  rewrite cumsum_from_nth by lia. lia.
Qed.

Lemma N_each_sum (K : Z) (tc : list Z) :
  N_each K tc = sum_list (type_count_new K tc).
Proof.
  unfold N_each, type_idx_filled_each, cumsum.
  change (cumsum_from 0 (0 :: type_count_new K tc))
    with (0 :: cumsum_from 0 (type_count_new K tc)).
  rewrite cumsum_from_last. lia.
Qed.

(** The range of slots of type [i] within a block. *)
Lemma type_cond_slot (K : Z) (tc : list Z) (i : nat) (v : Z) :
  (i < List.length tc)%nat ->
  type_cond K tc i v = true ->
  sum_list (firstn i (type_count_new K tc)) <= v mod N_each K tc
  /\ v mod N_each K tc < sum_list (firstn (S i) (type_count_new K tc)).
Proof.
  intros Hi. unfold type_cond.
  rewrite !andb_true_iff, Z.leb_le, !Z.ltb_lt.
  rewrite !filled_nth by lia. tauto.
Qed.

(** No index passes the masks of two different types: the per-type tables
    built from one neighbor table never share an entry other than the
    sentinel. *)
Theorem type_masks_exclusive (K : Z) (tc : list Z) (i i' : nat) (v : Z) :
  0 < K ->
  Forall (fun c => 0 <= c) tc ->
  (i < List.length tc)%nat ->
  (i' < List.length tc)%nat ->
  type_cond K tc i v = true ->
  type_cond K tc i' v = true ->
  i = i'.
Proof.
  intros HK Hnn Hi Hi' Hc Hc'.
  pose proof (type_count_new_nonneg K HK tc Hnn) as Ht.
  destruct (type_cond_slot K tc i v Hi Hc) as [L U].
  destruct (type_cond_slot K tc i' v Hi' Hc') as [L' U'].
  destruct (Nat.lt_trichotomy i i') as [Hlt | [Heq | Hgt]]; [ | exact Heq | ].
  - pose proof (sum_firstn_mono _ Ht (S i) i'). lia.
  - pose proof (sum_firstn_mono _ Ht (S i') i). lia.
Qed.

Lemma type_masks_exclusive_witness :
  0 < 2
  /\ Forall (fun c => 0 <= c) [3; 5]
  /\ (1 < List.length [3; 5])%nat
  /\ type_cond 2 [3; 5] 1 8 = true
  /\ 1%nat = 1%nat.
Proof.
  assert (Hnn : Forall (fun c => 0 <= c) [3; 5])
    by (repeat constructor; lia).
  assert (Hl : (1 < List.length [3; 5])%nat) by (simpl; lia).
  split; [ lia | ]. split; [ exact Hnn | ]. split; [ exact Hl | ].
  split; [ reflexivity | ].
  exact (type_masks_exclusive 2 [3; 5] 1 1 8 ltac:(lia) Hnn Hl Hl eq_refl eq_refl).
Defined.

(** Every index the mask of type [i] keeps is remapped by [get_nm] to a
    number within the type: at least 0 and below [type_count[i]]. *)
Theorem kept_index_remaps_within_type (K : Z) (tc : list Z) (i : nat) (v : Z) :
  0 < K ->
  Forall (fun c => 0 <= c) tc ->
  (i < List.length tc)%nat ->
  0 <= v ->
  type_cond K tc i v = true ->
  0 <= remap_entry K tc i v < nth i tc 0.
Proof.
  intros HK Hnn Hi Hv Hc.
  pose proof (type_count_new_nonneg K HK tc Hnn) as Ht.
  assert (Htcn : 0 <= nth i (type_count_new K tc) 0).
  { rewrite Forall_forall in Ht. apply Ht. apply nth_In.
    unfold type_count_new. rewrite length_map. exact Hi. }
  unfold remap_entry.
  unfold type_cond in Hc.
  rewrite !andb_true_iff, Z.leb_le, !Z.ltb_lt in Hc.
  destruct Hc as [[L U] [R B]].
  set (N := N_each K tc) in *.
  set (off := nth i (type_idx_filled_each K tc) 0) in *.
  set (n := nth i (type_count_new K tc) 0) in *.
  assert (HN : 0 < N) by nia.
  apply Z.ltb_lt in B. rewrite B.
  pose proof (Z_div_mod_eq_full v N) as E.
  assert (Hq : 0 <= v / N) by (apply Z.div_pos; lia).
  split; [ nia | lia ].
Qed.

Lemma kept_index_remaps_within_type_witness :
  0 < 2
  /\ Forall (fun c => 0 <= c) [3; 5]
  /\ (1 < List.length [3; 5])%nat
  /\ 0 <= 8
  /\ type_cond 2 [3; 5] 1 8 = true
  /\ 0 <= remap_entry 2 [3; 5] 1 8 < nth 1 [3; 5] 0.
Proof.
  assert (Hnn : Forall (fun c => 0 <= c) [3; 5])
    by (repeat constructor; lia).
  assert (Hl : (1 < List.length [3; 5])%nat) by (simpl; lia).
  split; [ lia | ]. split; [ exact Hnn | ]. split; [ exact Hl | ].
  split; [ lia | ]. split; [ reflexivity | ].
  exact (kept_index_remaps_within_type 2 [3; 5] 1 8 ltac:(lia) Hnn Hl
           ltac:(lia) eq_refl).
Defined.

(** The padded layout has a slot for every atom, and pads each type by
    fewer than [K] slots: the slots of all blocks together number at
    least the atoms and at most the atoms plus [K - 1] per type. *)
Theorem padded_layout_size (K : Z) (tc : list Z) :
  0 < K ->
  Forall (fun c => 0 <= c) tc ->
  sum_list tc <= N_each K tc * K
  /\ N_each K tc * K <= sum_list tc + (K - 1) * Z.of_nat (List.length tc).
Proof.
  intros HK Hnn. rewrite N_each_sum.
  induction Hnn as [| c tc Hc Hnn IH].
  - simpl. change (sum_list []) with 0. lia.
  - change (type_count_new K (c :: tc))
      with ((- (- c / K)) :: type_count_new K tc).
    rewrite !sum_list_cons.
    change (List.length (c :: tc)) with (S (List.length tc)).
    rewrite Nat2Z.inj_succ.
    assert (Hb : c <= K * - (- c / K) <= c + (K - 1)).
    { pose proof (Z_div_mod_eq_full (- c) K) as E.
      pose proof (Z.mod_pos_bound (- c) K HK) as B.
      destruct (Z.eq_dec ((- c) mod K) 0) as [Ez | Enz]; nia. }
    nia.
Qed.

Lemma padded_layout_size_witness :
  0 < 2
  /\ Forall (fun c => 0 <= c) [3; 5]
  /\ sum_list [3; 5] <= N_each 2 [3; 5] * 2
  /\ N_each 2 [3; 5] * 2 <= sum_list [3; 5] + (2 - 1) * Z.of_nat (List.length [3; 5]).
Proof.
  assert (Hnn : Forall (fun c => 0 <= c) [3; 5])
    by (repeat constructor; lia).
  split; [ lia | ]. split; [ exact Hnn | ].
  exact (padded_layout_size 2 [3; 5] ltac:(lia) Hnn).
Defined.

Lemma existsb_eqb_In (v : Z) (l : list Z) : existsb (Z.eqb v) l = true <-> In v l.
Proof.
  rewrite existsb_exists. split.
  - intros (x & Hx & E). apply Z.eqb_eq in E. subst x. exact Hx.
  - intros H. exists v. split; [ exact H | apply Z.eqb_refl ].
Qed.

Lemma Kmask_idx_In (Kmask : list bool) (p : nat) :
  In (Z.of_nat p) (Kmask_idx Kmask) <-> nth_error Kmask p = Some false.
Proof.
  unfold Kmask_idx. rewrite in_map_iff. split.
  - intros ([q b] & E & Hin). simpl in E. apply Nat2Z.inj in E. subst q.
    apply filter_In in Hin. destruct Hin as [Hin Hb]. simpl in Hb.
    apply In_nth_error in Hin. destruct Hin as (n & Hn).
    rewrite nth_error_combine, nth_error_seq in Hn.
    destruct (n <? List.length Kmask)%nat; [ | discriminate ].
    destruct (nth_error Kmask n) as [b' |] eqn:En; [ | discriminate ].
    simpl in Hn. injection Hn as E1 E2. rewrite <- E1, En, E2.
    destruct b; [ discriminate | reflexivity ].
  - intros Hp. exists (p, false). split; [ reflexivity | ].
    apply filter_In. split; [ | reflexivity ].
    apply (nth_error_In _ p).
    rewrite nth_error_combine, nth_error_seq, Hp.
    assert (Hlt : (p < List.length Kmask)%nat)
      by (apply nth_error_Some; congruence).
    apply Nat.ltb_lt in Hlt. rewrite Hlt. reflexivity.
Qed.

(** In the table the full mask returns, an entry other than the sentinel
    [len(Kmask)] stands in the row of a real atom, was in that row of the
    input, and is not the index of a padding slot. *)
Theorem full_mask_keeps_no_padding (get_mask_by_device : list Z -> list bool)
    (tc : list Z) (idx : table) (r : nat) (orow : list Z) (w : Z) :
  nth_error (get_full_mask_fn get_mask_by_device tc idx) r = Some orow ->
  In w orow ->
  w <> Z.of_nat (List.length (get_mask_by_device tc)) ->
  nth_error (get_mask_by_device tc) r = Some true
  /\ (exists row, nth_error idx r = Some row /\ In w row)
  /\ (forall p : nat, w = Z.of_nat p ->
        nth_error (get_mask_by_device tc) p <> Some false).
Proof.
  unfold get_full_mask_fn. intros Hr Hw Hne.
  rewrite nth_error_map, nth_error_combine in Hr.
  destruct (nth_error (get_mask_by_device tc) r) as [km |] eqn:Ek;
    [ | discriminate ].
  destruct (nth_error idx r) as [row |] eqn:Er; [ | discriminate ].
  simpl in Hr. inversion Hr; subst orow; clear Hr.
  apply in_map_iff in Hw. destruct Hw as (v & Ev & Hv).
  destruct km; simpl in Ev.
  - destruct (existsb (Z.eqb v) (Kmask_idx (get_mask_by_device tc))) eqn:Ex;
      simpl in Ev; [ congruence | ].
    subst w. split; [ reflexivity | ]. split; [ eauto | ].
    intros p -> Hp. apply Kmask_idx_In in Hp.
    apply existsb_eqb_In in Hp. congruence.
  - congruence.
Qed.

Lemma full_mask_keeps_no_padding_witness :
  nth_error (get_full_mask_fn (fun _ => [true; true; false]) [2]
               [[1; 2; 3]; [0; 2; 3]; [0; 1; 3]]) 0 = Some [1; 3; 3]
  /\ In 1 [1; 3; 3]
  /\ 1 <> Z.of_nat (List.length [true; true; false])
  /\ nth_error [true; true; false] 0 = Some true
  /\ (exists row, nth_error [[1; 2; 3]; [0; 2; 3]; [0; 1; 3]] 0 = Some row
                  /\ In 1 row)
  /\ (forall p : nat, 1 = Z.of_nat p ->
        nth_error [true; true; false] p <> Some false).
Proof.
  assert (H1 : nth_error (get_full_mask_fn (fun _ => [true; true; false]) [2]
                            [[1; 2; 3]; [0; 2; 3]; [0; 1; 3]]) 0
               = Some [1; 3; 3]) by reflexivity.
  assert (H2 : In 1 [1; 3; 3]) by (simpl; auto).
  assert (H3 : 1 <> Z.of_nat (List.length [true; true; false]))
    by (simpl; lia).
  split; [ exact H1 | ]. split; [ exact H2 | ]. split; [ exact H3 | ].
  exact (full_mask_keeps_no_padding (fun _ => [true; true; false]) [2]
           [[1; 2; 3]; [0; 2; 3]; [0; 1; 3]] 0 [1; 3; 3] 1 H1 H2 H3).
Defined.

(* ------------------------------------------------------------------ *)
(** ** What the rows of get_nm keep and when they raise the flag *)

Lemma insert_desc_perm (x : Z) (l : list Z) : Permutation (insert_desc x l) (x :: l).
Proof.
  induction l as [| y r IH]; simpl; [ reflexivity | ].
  destruct (y <=? x); [ reflexivity | ].
  rewrite IH. apply perm_swap.
Qed.

Lemma sort_desc_perm (l : list Z) : Permutation (sort_desc l) l.
Proof.
  induction l as [| x l IH]; simpl; [ reflexivity | ].
  rewrite insert_desc_perm. constructor. exact IH.
Qed.

Lemma count_below_cons (bound x : Z) (l : list Z) :
  NeighborList.count_below bound (x :: l)
  = (if x <? bound then 1 else 0) + NeighborList.count_below bound l.
Proof.
  unfold NeighborList.count_below. simpl.
  destruct (x <? bound); simpl List.length; lia.
Qed.

Lemma count_below_perm (bound : Z) (l l' : list Z) :
  Permutation l l' ->
  NeighborList.count_below bound l = NeighborList.count_below bound l'.
Proof.
  induction 1 as [| x l l' _ IH | x y l | l l' l'' _ IH1 _ IH2].
  - reflexivity.
  - rewrite !count_below_cons, IH. reflexivity.
  - rewrite !count_below_cons. lia.
  - congruence.
Qed.

Lemma count_below_app (bound : Z) (l l' : list Z) :
  NeighborList.count_below bound (l ++ l')
  = NeighborList.count_below bound l + NeighborList.count_below bound l'.
Proof.
  induction l as [| x l IH]; simpl app.
  - unfold NeighborList.count_below at 2. simpl. lia.
  - rewrite !count_below_cons, IH. lia.
Qed.

Lemma count_below_all (bound : Z) (l : list Z) :
  (forall o, In o l -> o < bound) ->
  NeighborList.count_below bound l = Z.of_nat (List.length l).
Proof.
  induction l as [| x l IH]; intros H; [ reflexivity | ].
  rewrite count_below_cons, IH by (intros; apply H; simpl; auto).
  assert (Hx : x < bound) by (apply H; simpl; auto).
  apply Z.ltb_lt in Hx. rewrite Hx. simpl List.length. lia.
Qed.

Lemma count_below_none (bound : Z) (l : list Z) :
  (forall o, In o l -> bound <= o) -> NeighborList.count_below bound l = 0.
Proof.
  induction l as [| x l IH]; intros H; [ reflexivity | ].
  rewrite count_below_cons, IH by (intros; apply H; simpl; auto).
  assert (Hx : bound <= x) by (apply H; simpl; auto).
  apply Z.ltb_ge in Hx. rewrite Hx. reflexivity.
Qed.

Lemma count_below_upper (bound : Z) (l : list Z) :
  0 <= NeighborList.count_below bound l <= Z.of_nat (List.length l).
Proof.
  induction l as [| x l IH]; [ unfold NeighborList.count_below; simpl; lia | ].
  rewrite count_below_cons. simpl List.length.
  destruct (x <? bound); lia.
Qed.

Lemma count_below_member (bound : Z) (l : list Z) (m : Z) :
  In m l -> bound <= m ->
  NeighborList.count_below bound l < Z.of_nat (List.length l).
Proof.
  induction l as [| x l IH]; intros Hin Hm; [ contradiction | ].
  rewrite count_below_cons. simpl List.length.
  pose proof (count_below_upper bound l).
  destruct Hin as [-> | Hin].
  - apply Z.ltb_ge in Hm. rewrite Hm. lia.
  - specialize (IH Hin Hm). destruct (x <? bound); lia.
Qed.

Lemma count_below_positive (bound : Z) (l : list Z) (v : Z) :
  In v l -> v < bound -> 1 <= NeighborList.count_below bound l.
Proof.
  induction l as [| x l IH]; intros Hin Hv; [ contradiction | ].
  rewrite count_below_cons.
  pose proof (count_below_upper bound l).
  destruct Hin as [-> | Hin].
  - apply Z.ltb_lt in Hv. rewrite Hv. lia.
  - specialize (IH Hin Hv). destruct (x <? bound); lia.
Qed.

(** A row of line 244 and what it leaves out. *)
Lemma smallest_k_parts (k : Z) (row out : list Z) :
  NeighborList.smallest_k k row = Ok out ->
  exists rest,
    Permutation row (out ++ rest)
    /\ Z.of_nat (List.length out) = k
    /\ (forall o r, In o out -> In r rest -> o <= r).
Proof.
  unfold NeighborList.smallest_k, top_k.
  destruct ((k <? 0) || (Z.of_nat (List.length (map Z.opp row)) <? k)) eqn:Eg;
    simpl; [ discriminate | ].
  apply orb_false_iff in Eg. destruct Eg as [Hk0 Hkl].
  apply Z.ltb_ge in Hk0. apply Z.ltb_ge in Hkl.
  intros H. inversion H; subst out; clear H.
  set (s := sort_desc (map Z.opp row)) in *.
  exists (map Z.opp (skipn (Z.to_nat k) s)).
  split; [ | split ].
  - rewrite <- map_app, firstn_skipn. unfold s.
    rewrite sort_desc_perm, map_map.
    rewrite (map_ext _ (fun x => x)) by (intros; apply Z.opp_involutive).
    rewrite map_id. reflexivity.
  - rewrite length_map, firstn_length_le.
    + lia.
    + unfold s. rewrite sort_desc_length. lia.
  - intros o r Ho Hr.
    apply in_map_iff in Ho. destruct Ho as (e & <- & He).
    apply in_map_iff in Hr. destruct Hr as (f & <- & Hf).
    pose proof (sorted_firstn_skipn s (sort_desc_sorted _) _ _ _ He Hf). lia.
Qed.

(** When a masked row has no more real entries than the row width, the
    kept row has every one of them: nothing is dropped within capacity. *)
Theorem no_drop_within_capacity (k bound : Z) (row out : list Z) (v : Z) :
  NeighborList.smallest_k k row = Ok out ->
  NeighborList.count_below bound row <= k ->
  In v row -> v < bound ->
  In v out.
Proof.
  intros Hs Hcount Hin Hv.
  destruct (smallest_k_parts _ _ _ Hs) as (rest & Hp & Hlen & Hord).
  destruct (in_dec Z.eq_dec v out) as [Hyes | Hno]; [ exact Hyes | exfalso ].
  assert (Hrest : In v rest).
  { apply (Permutation_in _ Hp) in Hin. apply in_app_or in Hin. tauto. }
  rewrite (count_below_perm _ _ _ Hp), count_below_app in Hcount.
  rewrite (count_below_all bound out) in Hcount
    by (intros o Ho; specialize (Hord o v Ho Hrest); lia).
  pose proof (count_below_positive bound rest v Hrest Hv). lia.
Qed.

Lemma no_drop_within_capacity_witness :
  NeighborList.smallest_k 2 [4; 1; 4; 0] = Ok [0; 1]
  /\ NeighborList.count_below 4 [4; 1; 4; 0] <= 2
  /\ In 1 [4; 1; 4; 0] /\ 1 < 4
  /\ In 1 [0; 1].
Proof.
  assert (H1 : NeighborList.smallest_k 2 [4; 1; 4; 0] = Ok [0; 1]) by reflexivity.
  assert (H2 : NeighborList.count_below 4 [4; 1; 4; 0] <= 2)
    by (vm_compute; discriminate).
  assert (H3 : In 1 [4; 1; 4; 0]) by (simpl; auto).
  split; [ exact H1 | ]. split; [ exact H2 | ]. split; [ exact H3 | ].
  split; [ lia | ].
  exact (no_drop_within_capacity 2 4 [4; 1; 4; 0] [0; 1] 1 H1 H2 H3 ltac:(lia)).
Defined.

Lemma kept_row_below_bound (k bound : Z) (row out : list Z) (m : Z) :
  NeighborList.smallest_k k row = Ok out ->
  amax out = Ok m ->
  (m < bound <-> k <= NeighborList.count_below bound row).
Proof.
  intros Hs Hm.
  destruct (smallest_k_parts _ _ _ Hs) as (rest & Hp & Hlen & Hord).
  rewrite (count_below_perm _ _ _ Hp), count_below_app.
  pose proof (count_below_upper bound rest) as Hr.
  split.
  - intros Hlt.
    rewrite (count_below_all bound out)
      by (intros o Ho; pose proof (amax_upper _ _ _ Hm Ho); lia).
    lia.
  - intros Hk. destruct (Z.lt_ge_cases m bound) as [H | H]; [ exact H | exfalso ].
    pose proof (amax_in _ _ Hm) as Hin.
    pose proof (count_below_member bound out m Hin H).
    rewrite (count_below_none bound rest) in Hk
      by (intros r Hr'; specialize (Hord m r Hin Hr'); lia).
    lia.
Qed.

(** The flag of one type (line 250): it is raised exactly when some masked
    row holds at least [knbr[i]] real entries, so also when a row is
    exactly full and nothing was dropped. *)
Theorem type_overflow_iff_row_full (K : Z) (self : NeighborList.t) (k : Z)
    (masked kept : table) (flag : bool) :
  mapM (NeighborList.smallest_k k) masked = Ok kept ->
  NeighborList.type_overflow K self kept = Ok flag ->
  (flag = true
   <-> exists row,
         In row masked
         /\ k <= NeighborList.count_below
                   (N_each K (NeighborList.type_count self) * K) row).
Proof.
  intros Hkept Hflag. unfold NeighborList.type_overflow in Hflag.
  destruct (mapM amax kept) as [maxes |] eqn:Emax; simpl in Hflag;
    [ | discriminate ].
  inversion Hflag as [Ef]; clear Hflag.
  rewrite existsb_exists. split.
  - intros (m & Hm & Hlt). apply Z.ltb_lt in Hlt.
    apply In_nth_error in Hm. destruct Hm as (r & Hr).
    destruct (mapM_nth_error _ _ _ _ _ Emax Hr) as (out & Hout & Ham).
    destruct (mapM_nth_error _ _ _ _ _ Hkept Hout) as (row & Hrow & Hs).
    exists row. split; [ eapply nth_error_In; eauto | ].
    apply (kept_row_below_bound _ _ _ _ _ Hs Ham). exact Hlt.
  - intros (row & Hrow & Hk).
    apply In_nth_error in Hrow. destruct Hrow as (r & Hr).
    destruct (mapM_nth_error_fwd _ _ _ _ _ Hkept Hr) as (out & Hout & Hs).
    destruct (mapM_nth_error_fwd _ _ _ _ _ Emax Hout) as (m & Hm & Ham).
    exists m. split; [ eapply nth_error_In; eauto | ].
    apply Z.ltb_lt. apply (kept_row_below_bound _ _ _ _ _ Hs Ham). exact Hk.
Qed.

Lemma type_overflow_iff_row_full_witness :
  mapM (NeighborList.smallest_k 2) [[1; 2; 4; 4]; [0; 4; 4; 4]]
  = Ok [[1; 2]; [0; 4]]
  /\ NeighborList.type_overflow 1 Toy.narrow [[1; 2]; [0; 4]] = Ok true
  /\ (true = true
      <-> exists row,
            In row [[1; 2; 4; 4]; [0; 4; 4; 4]]
            /\ 2 <= NeighborList.count_below
                      (N_each 1 (NeighborList.type_count Toy.narrow) * 1) row).
Proof.
  assert (H1 : mapM (NeighborList.smallest_k 2) [[1; 2; 4; 4]; [0; 4; 4; 4]]
               = Ok [[1; 2]; [0; 4]]) by reflexivity.
  assert (H2 : NeighborList.type_overflow 1 Toy.narrow [[1; 2]; [0; 4]] = Ok true)
    by reflexivity.
  split; [ exact H1 | ]. split; [ exact H2 | ].
  exact (type_overflow_iff_row_full 1 Toy.narrow 2
           [[1; 2; 4; 4]; [0; 4; 4; 4]] [[1; 2]; [0; 4]] true H1 H2).
Defined.

(* ------------------------------------------------------------------ *)
(** ** The row widths allocate leaves in the object *)

Lemma mapM_length {A B : Type} (f : A -> result B) :
  forall (l : list A) (bs : list B),
    mapM f l = Ok bs -> List.length bs = List.length l.
Proof.
  induction l as [| a l IH]; simpl; intros bs H.
  - inversion H. reflexivity.
  - destruct (f a); simpl in H; [ | discriminate ].
    destruct (mapM f l) as [bs' |]; simpl in H; [ | discriminate ].
    inversion H. simpl. f_equal. apply IH. reflexivity.
Qed.

Lemma scaled_count_at_least (size : Q) (m : Z) :
  (1 <= size)%Q -> 0 <= m -> m <= int_of_Q (inject_Z m * size).
Proof.
  intros Hs Hm.
  assert (H0 : (0 <= inject_Z m)%Q).
  { change 0%Q with (inject_Z 0). rewrite <- Zle_Qle. exact Hm. }
  assert (Hle : (inject_Z m <= inject_Z m * size)%Q).
  { setoid_replace (inject_Z m) with (inject_Z m * 1)%Q at 1 by ring.
    rewrite !(Qmult_comm (inject_Z m)).
    apply Qmult_le_compat_r; assumption. }
  rewrite int_of_Q_floor by (eapply Qle_trans; eassumption).
  rewrite <- (Qfloor_Z m) at 1. apply Qfloor_resp_le. exact Hle.
Qed.

Lemma padded_capacity_above (size : Q) (k : Z) :
  0 <= k -> k < NeighborList.padded_capacity size k.
Proof.
  unfold NeighborList.padded_capacity. intros H.
  destruct (Z.eqb_spec k 0); lia.
Qed.

Section AllocateFacts.

Variable K : Z.
Variable get_mask_by_device : list Z -> list bool.
Variable reorder_by_device : list vec3 -> list Z -> list vec3.
Variable JNbrs : Type.
Variable idx : JNbrs -> table.
Variable partition_allocate :
  vec3 -> Q -> Q -> (table -> table) -> list vec3 -> JNbrs.

Let allocate :=
  NeighborList.allocate K get_mask_by_device reorder_by_device idx partition_allocate.

(** The trial table of line 227 and the atom count its entries are
    compared with. *)
Let test_idx (self : NeighborList.t) (coord : list vec3) : table :=
  idx (partition_allocate (NeighborList.box self) (NeighborList.rcut self) 1%Q
         (NeighborList.full_mask_fn get_mask_by_device self)
         (NeighborList.canonicalize reorder_by_device self coord)).
Let len_coord (self : NeighborList.t) (coord : list vec3) : Z :=
  Z.of_nat (List.length (NeighborList.canonicalize reorder_by_device self coord)).

Lemma allocate_parts (self self' : NeighborList.t) (coord : list vec3) (nbrs : JNbrs) :
  allocate self coord = Ok (self', nbrs) ->
  exists ms,
    NeighborList.max_counts K get_mask_by_device self
      (test_idx self coord) (len_coord self coord) = Ok ms
    /\ self' = NeighborList.mk (NeighborList.type_count self)
                 (NeighborList.box self) (NeighborList.rcut self)
                 (NeighborList.size self)
                 (Some (map (fun m =>
                               NeighborList.padded_capacity (NeighborList.size self)
                                 (int_of_Q (inject_Z m * NeighborList.size self)))
                            ms)).
Proof.
  unfold allocate, NeighborList.allocate.
  fold (test_idx self coord). fold (len_coord self coord).
  rewrite measure_knbr_of_max_counts.
  destruct (NeighborList.max_counts K get_mask_by_device self _ _) as [ms |];
    simpl; [ | discriminate ].
  intros H. inversion H. exists ms. auto.
Qed.

(** After a successful allocation with a non-negative buffer factor the
    object is the same but for [knbr], which has one width per type, each
    at least 1; with a factor of at least 1 each width exceeds the largest
    neighbor count measured for its type, so every row of the trial table
    fits with a slot to spare. *)
Theorem allocate_row_widths (self self' : NeighborList.t) (coord : list vec3)
    (nbrs : JNbrs) :
  (0 <= NeighborList.size self)%Q ->
  allocate self coord = Ok (self', nbrs) ->
  NeighborList.type_count self' = NeighborList.type_count self
  /\ NeighborList.box self' = NeighborList.box self
  /\ NeighborList.rcut self' = NeighborList.rcut self
  /\ NeighborList.size self' = NeighborList.size self
  /\ exists ks ms,
       NeighborList.knbr self' = Some ks
       /\ NeighborList.max_counts K get_mask_by_device self
            (test_idx self coord) (len_coord self coord) = Ok ms
       /\ List.length ks = List.length (NeighborList.type_count self)
       /\ Forall (fun k => 1 <= k) ks
       /\ ((1 <= NeighborList.size self)%Q -> Forall2 Z.lt ms ks).
Proof.
  intros Hsize H. apply allocate_parts in H. destruct H as (ms & Hms & ->).
  simpl. repeat (split; [ reflexivity | ]).
  eexists; exists ms. split; [ reflexivity | ]. split; [ exact Hms | ].
  pose proof (max_counts_nonneg K get_mask_by_device _ _ _ _ Hms) as Hpos.
  split; [ | split ].
  - rewrite length_map.
    unfold NeighborList.max_counts in Hms. apply mapM_length in Hms.
    rewrite Hms. unfold NeighborList.mask_fns, get_type_mask_fns.
    rewrite length_map, length_seq. reflexivity.
  - apply Forall_map. eapply Forall_impl; [ | exact Hpos ].
    intros m Hm. simpl in Hm |- *. apply padded_capacity_positive.
    assert (Hmm : 0 <= m <= m) by lia.
    destruct (scaled_count_mono _ m m Hsize Hmm) as [H0 _]. exact H0.
  - intros Hone. clear Hms. induction Hpos as [| m ms Hm Hpos IH]; simpl.
    + constructor.
    + constructor; [ | exact IH ].
      pose proof (scaled_count_at_least _ m Hone Hm).
      pose proof (padded_capacity_above (NeighborList.size self)
                    (int_of_Q (inject_Z m * NeighborList.size self))).
      lia.
Qed.

End AllocateFacts.

Lemma allocate_row_widths_witness :
  (0 <= NeighborList.size Toy.fresh)%Q
  /\ exists self' nbrs,
       Toy.allocate Toy.fresh Toy.star = Ok (self', nbrs)
       /\ NeighborList.type_count self' = NeighborList.type_count Toy.fresh
       /\ exists ks,
            NeighborList.knbr self' = Some ks
            /\ List.length ks = List.length (NeighborList.type_count Toy.fresh)
            /\ Forall (fun k => 1 <= k) ks.
Proof.
  assert (Hsize : (0 <= NeighborList.size Toy.fresh)%Q)
    by (unfold Qle; simpl; lia).
  split; [ exact Hsize | ].
  eexists. eexists.
  assert (Hrun : Toy.allocate Toy.fresh Toy.star
                 = Ok (NeighborList.mk [4] (10, 10, 10)%Q (12 # 10) (12 # 10)
                         (Some [4]),
                       Toy.star_table)) by (vm_compute; reflexivity).
  split; [ exact Hrun | ].
  destruct (allocate_row_widths Toy.devices Toy.all_real Toy.keep_order table
              (fun nbrs => nbrs) Toy.cell_list Toy.fresh _ Toy.star _ Hsize Hrun)
    as (Htc & _ & _ & _ & ks & ms & Hk & _ & Hlen & Hpos & _).
  split; [ exact Htc | ].
  exists ks. split; [ exact Hk | ]. split; [ exact Hlen | exact Hpos ].
Defined.

(* ------------------------------------------------------------------ *)
(** ** Wrapping coordinates into the box *)

Lemma Qmod_range (x b : Q) : (0 < b)%Q -> (0 <= Qmod x b /\ Qmod x b < b)%Q.
Proof.
  intros Hb.
  assert (Hnz : ~ (b == 0)%Q).
  { intros E. rewrite E in Hb. exact (Qlt_irrefl _ Hb). }
  unfold Qmod.
  set (n := inject_Z (Qfloor (x / b))).
  assert (H1 : (n <= x / b)%Q) by apply Qfloor_le.
  assert (H2 : (x / b < n + 1)%Q).
  { unfold n. rewrite <- (inject_Z_plus _ 1). apply Qlt_floor. }
  assert (E1 : (b * (x / b) == x)%Q) by (field; exact Hnz).
  split.
  - assert (H3 : (b * n <= b * (x / b))%Q).
    { rewrite !(Qmult_comm b).
      apply Qmult_le_compat_r; [ exact H1 | apply Qlt_le_weak; exact Hb ]. }
    rewrite E1 in H3.
    apply (Qplus_le_l _ _ (b * n)).
    setoid_replace (0 + b * n)%Q with (b * n)%Q by ring.
    setoid_replace (x - b * n + b * n)%Q with x by ring.
    exact H3.
  - assert (H3 : (b * (x / b) < b * (n + 1))%Q).
    { rewrite !(Qmult_comm b). apply Qmult_lt_compat_r; assumption. }
    rewrite E1 in H3.
    apply (Qplus_lt_l _ _ (b * n)).
    setoid_replace (x - b * n + b * n)%Q with x by ring.
    setoid_replace (b + b * n)%Q with (b * (n + 1))%Q by ring.
    exact H3.
Qed.

Lemma Qmod_period (x b : Q) : (0 < b)%Q -> (Qmod (x + b) b == Qmod x b)%Q.
Proof.
  intros Hb.
  assert (Hnz : ~ (b == 0)%Q).
  { intros E. rewrite E in Hb. exact (Qlt_irrefl _ Hb). }
  unfold Qmod.
  assert (E : ((x + b) / b == x / b + 1)%Q) by (field; exact Hnz).
  rewrite (Qfloor_comp _ _ E), Qfloor_succ, inject_Z_plus.
  ring.
Qed.

(** Line 222 puts every coordinate strictly inside the box, at least one
    ten-millionth of the box length away from either face, and gives
    periodic images of a coordinate the same place. *)
Theorem canonicalize_component_inside (x b : Q) :
  (0 < b)%Q ->
  ((1 # 10000000) * b <= NeighborList.canonicalize_component x b
   /\ NeighborList.canonicalize_component x b <= b - (1 # 10000000) * b
   /\ 0 < NeighborList.canonicalize_component x b
   /\ NeighborList.canonicalize_component x b < b
   /\ NeighborList.canonicalize_component (x + b) b
      == NeighborList.canonicalize_component x b)%Q.
Proof.
  intros Hb. unfold NeighborList.canonicalize_component.
  destruct (Qmod_range x b Hb) as [Hlo Hhi].
  set (m := Qmod x b) in *.
  assert (Heps : (0 < (1 # 10000000) * b)%Q).
  { apply Qmult_lt_0_compat; [ reflexivity | exact Hb ]. }
  assert (Hscale : (0 <= 1 - (2 # 10000000))%Q) by (unfold Qle; simpl; lia).
  assert (Hm1 : (0 <= m * (1 - (2 # 10000000)))%Q)
    by (apply Qmult_le_0_compat; assumption).
  assert (Hm2 : (m * (1 - (2 # 10000000)) <= b * (1 - (2 # 10000000)))%Q).
  { apply Qmult_le_compat_r; [ apply Qlt_le_weak; exact Hhi | exact Hscale ]. }
  assert (L : ((1 # 10000000) * b
               <= m * (1 - (2 # 10000000)) + (1 # 10000000) * b)%Q).
  { setoid_replace ((1 # 10000000) * b)%Q
      with (0 + (1 # 10000000) * b)%Q at 1 by ring.
    apply Qplus_le_compat; [ exact Hm1 | apply Qle_refl ]. }
  assert (U : (m * (1 - (2 # 10000000)) + (1 # 10000000) * b
               <= b - (1 # 10000000) * b)%Q).
  { setoid_replace (b - (1 # 10000000) * b)%Q
      with (b * (1 - (2 # 10000000)) + (1 # 10000000) * b)%Q by ring.
    apply Qplus_le_compat; [ exact Hm2 | apply Qle_refl ]. }
  split; [ exact L | ]. split; [ exact U | ].
  split; [ eapply Qlt_le_trans; eassumption | ].
  split.
  - eapply Qle_lt_trans; [ exact U | ].
    apply (Qplus_lt_l _ _ ((1 # 10000000) * b)).
    setoid_replace (b - (1 # 10000000) * b + (1 # 10000000) * b)%Q with (b + 0)%Q
      by ring.
    apply Qplus_lt_r. exact Heps.
  - rewrite (Qmod_period x b Hb). reflexivity.
Qed.

Lemma canonicalize_component_inside_witness :
  (0 < 10
   /\ (1 # 10000000) * 10 <= NeighborList.canonicalize_component (-3) 10
   /\ NeighborList.canonicalize_component (-3) 10 <= 10 - (1 # 10000000) * 10
   /\ 0 < NeighborList.canonicalize_component (-3) 10
   /\ NeighborList.canonicalize_component (-3) 10 < 10
   /\ NeighborList.canonicalize_component (-3 + 10) 10
      == NeighborList.canonicalize_component (-3) 10)%Q.
Proof.
  assert (Hb : (0 < 10)%Q) by reflexivity.
  split; [ exact Hb | ].
  exact (canonicalize_component_inside (-3) 10 Hb).
Defined.

(* ------------------------------------------------------------------ *)
(** ** More on the drift check *)

Lemma Qltb_comp (a a' b b' : Q) :
  (a == a')%Q -> (b == b')%Q -> Qltb a b = Qltb a' b'.
Proof. intros Ha Hb. unfold Qltb. rewrite Ha, Hb. reflexivity. Qed.

Lemma norm_gt_comp (u v : vec3) (t : Q) : veq u v -> norm_gt u t = norm_gt v t.
Proof.
  intros H. unfold norm_gt.
  rewrite (Qltb_comp (t * t) (t * t) (norm_sq u) (norm_sq v));
    [ reflexivity | reflexivity | apply norm_sq_compat; exact H ].
Qed.

Lemma Qsquare_le (a b : Q) : (0 <= a)%Q -> (a <= b)%Q -> (a * a <= b * b)%Q.
Proof.
  intros Ha Hab.
  apply Qle_trans with (a * b)%Q.
  - setoid_replace (a * b)%Q with (b * a)%Q by ring.
    apply Qmult_le_compat_r; assumption.
  - apply Qmult_le_compat_r; [ exact Hab | eapply Qle_trans; eassumption ].
Qed.

Lemma longer_than_mono (v : vec3) (t t' : Q) :
  (t <= t')%Q -> longer_than v t' -> longer_than v t.
Proof.
  unfold longer_than. intros Hle [Hneg | Hsq].
  - left. eapply Qle_lt_trans; eassumption.
  - destruct (Qlt_le_dec t 0) as [Ht | Ht]; [ left; exact Ht | right ].
    eapply Qle_lt_trans; [ apply Qsquare_le; eassumption | exact Hsq ].
Qed.

Lemma existsb_impl {A : Type} (f g : A -> bool) (l : list A) :
  (forall a, f a = true -> g a = true) -> existsb f l = true -> existsb g l = true.
Proof.
  intros H. rewrite !existsb_exists. intros (a & Ha & Hf). exists a. auto.
Qed.

(** A wider buffer never makes the drift check fire where a narrower one
    does not. *)
Theorem check_dr_overflow_monotone (self : NeighborList.t)
    (coord ref : list vec3) (dr dr' : Q) :
  (dr <= dr')%Q ->
  NeighborList.check_dr_overflow self coord ref dr' = true ->
  NeighborList.check_dr_overflow self coord ref dr = true.
Proof.
  intros Hle. unfold NeighborList.check_dr_overflow.
  apply existsb_impl. intros [c r] H.
  apply norm_gt_longer. apply norm_gt_longer in H.
  revert H. apply longer_than_mono.
  unfold Qminus. apply Qplus_le_l. unfold Qdiv.
  apply Qmult_le_compat_r; [ exact Hle | unfold Qle; simpl; lia ].
Qed.

Lemma check_dr_overflow_monotone_witness :
  ((5 # 10) <= (8 # 10))%Q
  /\ NeighborList.check_dr_overflow (NeighborList.new (10, 10, 10)%Q [1] 6 (12 # 10))
       [(1, 0, 0)%Q] [(0, 0, 0)%Q] (8 # 10) = true
  /\ NeighborList.check_dr_overflow (NeighborList.new (10, 10, 10)%Q [1] 6 (12 # 10))
       [(1, 0, 0)%Q] [(0, 0, 0)%Q] (5 # 10) = true.
Proof.
  assert (H1 : ((5 # 10) <= (8 # 10))%Q) by (unfold Qle; simpl; lia).
  assert (H2 : NeighborList.check_dr_overflow
                 (NeighborList.new (10, 10, 10)%Q [1] 6 (12 # 10))
                 [(1, 0, 0)%Q] [(0, 0, 0)%Q] (8 # 10) = true) by reflexivity.
  split; [ exact H1 | ]. split; [ exact H2 | ].
  exact (check_dr_overflow_monotone _ _ _ _ _ H1 H2).
Defined.

Lemma wrap_component_zero (d b : Q) :
  (0 < b)%Q -> (d == 0)%Q -> (NeighborList.wrap_component d b == 0)%Q.
Proof.
  intros Hb Hd. rewrite (wrap_component_nearest d b Hb).
  unfold nearest_image.
  assert (E : (d / b + (1 # 2) == 1 # 2)%Q).
  { rewrite Hd. unfold Qdiv. ring. }
  rewrite (Qfloor_comp _ _ E). change (Qfloor (1 # 2)) with 0%Z.
  rewrite Hd. ring.
Qed.

Lemma displacement_self (self : NeighborList.t) (c : vec3) :
  all_positive (NeighborList.box self) = true ->
  veq (NeighborList.displacement self c c) (0, 0, 0)%Q.
Proof.
  unfold NeighborList.displacement, all_positive.
  destruct (NeighborList.box self) as [[bx by_] bz], c as [[cx cy] cz]. simpl.
  rewrite !andb_true_iff, !Qltb_lt. intros [[Hx Hy] Hz].
  repeat split; apply wrap_component_zero; try assumption; ring.
Qed.

(** Checked against itself, a configuration drifts nowhere: the check
    answers false, unless the buffer is below 0.02, where the margin of
    0.01 makes it fire for every non-empty configuration. *)
Theorem check_dr_overflow_stationary (self : NeighborList.t)
    (coord : list vec3) (dr_buffer : Q) :
  all_positive (NeighborList.box self) = true ->
  NeighborList.check_dr_overflow self coord coord dr_buffer
  = match coord with
    | [] => false
    | _ :: _ => Qltb dr_buffer (2 # 100)
    end.
Proof.
  intros Hpos. unfold NeighborList.check_dr_overflow.
  assert (Hone : forall c,
            norm_gt (NeighborList.displacement self c c)
                    (dr_buffer / 2 - (1 # 100))%Q
            = Qltb dr_buffer (2 # 100)).
  { intros c. rewrite (norm_gt_comp _ _ _ (displacement_self self c Hpos)).
    unfold norm_gt. simpl norm_sq.
    assert (Hsq : Qltb ((dr_buffer / 2 - (1 # 100)) * (dr_buffer / 2 - (1 # 100)))
                       (0 * 0 + 0 * 0 + 0 * 0)%Q = false).
    { destruct (Qltb _ _) eqn:E; [ | reflexivity ].
      apply Qltb_lt in E. exfalso.
      apply (Qlt_not_le _ _ E).
      setoid_replace (0 * 0 + 0 * 0 + 0 * 0)%Q with 0%Q by ring.
      set (t := (dr_buffer / 2 - (1 # 100))%Q).
      destruct (Qlt_le_dec t 0) as [Ht | Ht].
      - setoid_replace (t * t)%Q with ((- t) * (- t))%Q by ring.
        apply Qmult_le_0_compat;
          (apply Qlt_le_weak; apply (Qplus_lt_l _ _ t);
           setoid_replace (- t + t)%Q with 0%Q by ring;
           setoid_replace (0 + t)%Q with t by ring; exact Ht).
      - apply Qmult_le_0_compat; exact Ht. }
    rewrite Hsq, orb_false_r.
    apply eq_true_iff_eq. rewrite !Qltb_lt. split; intros H.
    - apply (Qplus_lt_l _ _ (- (1 # 100))).
      apply (Qmult_lt_r _ _ (1 # 2)); [ reflexivity | ].
      setoid_replace ((dr_buffer + - (1 # 100)) * (1 # 2))%Q
        with (dr_buffer / 2 - (1 # 100) + (1 # 200))%Q by field.
      setoid_replace (((2 # 100) + - (1 # 100)) * (1 # 2))%Q
        with (0 + (1 # 200))%Q by field.
      apply Qplus_lt_l. exact H.
    - apply (Qplus_lt_l _ _ (1 # 200)).
      setoid_replace (dr_buffer / 2 - (1 # 100) + (1 # 200))%Q
        with ((dr_buffer + - (1 # 100)) * (1 # 2))%Q by field.
      setoid_replace (0 + (1 # 200))%Q
        with (((2 # 100) + - (1 # 100)) * (1 # 2))%Q by field.
      apply Qmult_lt_r; [ reflexivity | ].
      apply Qplus_lt_l. exact H. }
  destruct coord as [| c coord]; [ reflexivity | ].
  simpl. rewrite Hone.
  destruct (Qltb dr_buffer (2 # 100)); [ reflexivity | ].
  simpl. induction coord as [| c' coord IH]; [ reflexivity | ].
  simpl. rewrite Hone. exact IH.
Qed.

Lemma check_dr_overflow_stationary_witness :
  all_positive (10, 10, 10)%Q = true
  /\ NeighborList.check_dr_overflow (NeighborList.new (10, 10, 10)%Q [1] 6 (12 # 10))
       [(1, 2, 3)%Q] [(1, 2, 3)%Q] (1 # 100)
     = Qltb (1 # 100) (2 # 100).
Proof.
  split; [ reflexivity | ].
  exact (check_dr_overflow_stationary
           (NeighborList.new (10, 10, 10)%Q [1] 6 (12 # 10))
           [(1, 2, 3)%Q] (1 # 100) eq_refl).
Defined.

Lemma Qmod_comp (x x' b : Q) : (x == x')%Q -> (Qmod x b == Qmod x' b)%Q.
Proof.
  intros E. unfold Qmod.
  assert (E' : (x / b == x' / b)%Q) by (rewrite E; reflexivity).
  rewrite (Qfloor_comp _ _ E'), E. reflexivity.
Qed.

Lemma wrap_component_period (d b : Q) :
  (0 < b)%Q ->
  (NeighborList.wrap_component (d + b) b == NeighborList.wrap_component d b)%Q.
Proof.
  intros Hb. unfold NeighborList.wrap_component.
  assert (E : (d + b - b / 2 == d - b / 2 + b)%Q) by ring.
  rewrite (Qmod_comp _ _ b E), (Qmod_period _ b Hb). reflexivity.
Qed.

Lemma wrap_component_comp (d d' b : Q) :
  (d == d')%Q ->
  (NeighborList.wrap_component d b == NeighborList.wrap_component d' b)%Q.
Proof.
  intros E. unfold NeighborList.wrap_component.
  assert (E' : (d - b / 2 == d' - b / 2)%Q) by (rewrite E; reflexivity).
  rewrite (Qmod_comp _ _ b E'). reflexivity.
Qed.

Lemma displacement_shifted (self : NeighborList.t) (c r : vec3) :
  all_positive (NeighborList.box self) = true ->
  veq (NeighborList.displacement self (vmap2 Qplus c (NeighborList.box self)) r)
      (NeighborList.displacement self c r).
Proof.
  unfold NeighborList.displacement, all_positive.
  destruct (NeighborList.box self) as [[bx by_] bz].
  destruct c as [[cx cy] cz], r as [[rx ry] rz]. simpl.
  rewrite !andb_true_iff, !Qltb_lt. intros [[Hx Hy] Hz].
  repeat split.
  - rewrite <- (wrap_component_period (cx - rx) bx Hx).
    apply wrap_component_comp. ring.
  - rewrite <- (wrap_component_period (cy - ry) by_ Hy).
    apply wrap_component_comp. ring.
  - rewrite <- (wrap_component_period (cz - rz) bz Hz).
    apply wrap_component_comp. ring.
Qed.

(** The drift check does not see whole box lengths: moving every atom by
    the box vector leaves its answer as it was. *)
Theorem check_dr_overflow_periodic (self : NeighborList.t)
    (coord ref : list vec3) (dr_buffer : Q) :
  all_positive (NeighborList.box self) = true ->
  NeighborList.check_dr_overflow self
    (map (fun c => vmap2 Qplus c (NeighborList.box self)) coord) ref dr_buffer
  = NeighborList.check_dr_overflow self coord ref dr_buffer.
Proof.
  intros Hpos. unfold NeighborList.check_dr_overflow.
  revert ref. induction coord as [| c coord IH]; intros ref; [ reflexivity | ].
  destruct ref as [| r ref]; [ reflexivity | ].
  simpl. rewrite IH.
  rewrite (norm_gt_comp _ _ _ (displacement_shifted self c r Hpos)).
  reflexivity.
Qed.

Lemma check_dr_overflow_periodic_witness :
  all_positive (10, 10, 10)%Q = true
  /\ NeighborList.check_dr_overflow (NeighborList.new (10, 10, 10)%Q [1] 6 (12 # 10))
       (map (fun c => vmap2 Qplus c (10, 10, 10)%Q) [(1, 2, 3)%Q])
       [(1, 2, 3)%Q] (8 # 10)
     = NeighborList.check_dr_overflow (NeighborList.new (10, 10, 10)%Q [1] 6 (12 # 10))
         [(1, 2, 3)%Q] [(1, 2, 3)%Q] (8 # 10).
Proof.
  split; [ reflexivity | ].
  exact (check_dr_overflow_periodic
           (NeighborList.new (10, 10, 10)%Q [1] 6 (12 # 10))
           [(1, 2, 3)%Q] [(1, 2, 3)%Q] (8 # 10) eq_refl).
Defined.

(* ------------------------------------------------------------------ *)
(** ** Which frames of a chunk are saved *)

Lemma slice_step_nth_error {A : Type} (s : nat) (l : list A) :
  (1 <= s)%nat ->
  forall j k : nat,
    (j < s)%nat ->
    nth_error (slice_step s j l) k = nth_error l (j + k * s).
Proof.
  intros Hs. induction l as [| x l IH]; intros j k Hj.
  - simpl. destruct k, (j + _)%nat; reflexivity.
  - destruct j as [| j]; simpl slice_step.
    + destruct k as [| k]; [ reflexivity | ].
      simpl nth_error at 1. rewrite IH by lia.
      replace (0 + S k * s)%nat with (S (s - 1 + k * s)) by lia.
      reflexivity.
    + rewrite IH by lia. reflexivity.
Qed.

Lemma slice_step_length {A : Type} (s : nat) (l : list A) :
  (1 <= s)%nat ->
  forall j : nat,
    (j < s)%nat ->
    List.length (slice_step s j l) = ((List.length l + (s - 1 - j)) / s)%nat.
Proof.
  intros Hs. induction l as [| x l IH]; intros j Hj.
  - simpl. symmetry. apply Nat.div_small. lia.
  - destruct j as [| j]; simpl slice_step; simpl List.length.
    + rewrite IH by lia.
      replace (s - 1 - (s - 1))%nat with 0%nat by lia.
      replace (S (List.length l) + (s - 1 - 0))%nat
        with (List.length l + 0 + 1 * s)%nat by lia.
      rewrite Nat.div_add by lia. lia.
    + rewrite IH by lia. f_equal. lia.
Qed.

(** The slice [a[s-1::s]] of lines 176-177 keeps every [s]-th frame of a
    chunk, ending each stride: entry number [k] (from 0) is frame number
    [s * (k + 1) - 1], and a chunk of [n] frames leaves [n / s] of them,
    so the frames after the last full stride are not saved. *)
Theorem saved_frames_of_chunk {A : Type} (s : nat) (chunk : list A) :
  (1 <= s)%nat ->
  List.length (slice_step s (s - 1) chunk) = (List.length chunk / s)%nat
  /\ forall k, nth_error (slice_step s (s - 1) chunk) k
               = nth_error chunk (s * (k + 1) - 1).
Proof.
  intros Hs. split.
  - rewrite slice_step_length by lia.
    replace (s - 1 - (s - 1))%nat with 0%nat by lia.
    rewrite Nat.add_0_r. reflexivity.
  - intros k. rewrite slice_step_nth_error by lia. f_equal. nia.
Qed.

Lemma saved_frames_of_chunk_witness :
  (1 <= 2)%nat
  /\ List.length (slice_step 2 (2 - 1) [10; 11; 12; 13; 14])
     = (List.length [10; 11; 12; 13; 14] / 2)%nat
  /\ forall k, nth_error (slice_step 2 (2 - 1) [10; 11; 12; 13; 14]) k
               = nth_error [10; 11; 12; 13; 14] (2 * (k + 1) - 1).
Proof.
  assert (H : (1 <= 2)%nat) by lia.
  split; [ exact H | ].
  exact (saved_frames_of_chunk 2 [10; 11; 12; 13; 14] H).
Defined.

(* ------------------------------------------------------------------ *)
(** ** A run of the script without neighbor list *)

Lemma pscan_length {S O : Type} (f : S -> S * O) (n : nat) :
  forall init, List.length (snd (pscan f init n)) = n.
Proof.
  induction n as [| n IH]; intros init; [ reflexivity | ].
  simpl. destruct (f init) as [s o]. specialize (IH s).
  destruct (pscan f s n) as [s' os]. simpl in *. congruence.
Qed.

Lemma loop_fuel_zero (W : Driver.World) (cfg : Driver.Config)
    (st : Driver.LoopState W) (fuel : nat) :
  Driver.total_steps cfg <= Driver.i st ->
  Driver.loop W cfg (S fuel) st = Some st.
Proof.
  intros H. simpl. apply Z.ltb_ge in H. rewrite H. reflexivity.
Qed.

Lemma length_concat_uniform {A : Type} (n : nat) (ls : list (list A)) :
  Forall (fun l => List.length l = n) ls ->
  List.length (List.concat ls) = (List.length ls * n)%nat.
Proof.
  induction 1 as [| l ls Hl _ IH]; [ reflexivity | ].
  simpl. rewrite length_app, IH, Hl. reflexivity.
Qed.

Section LatticeRun.

Variable W : Driver.World.
Variable cfg : Driver.Config.
Hypothesis lattice_mode : Driver.use_neighborlist cfg = false.
Hypothesis print_every_pos : 0 < Driver.print_every cfg.
Hypothesis save_every_pos : 0 < Driver.save_every cfg.

Let per_chunk : nat :=
  (Z.to_nat (Driver.print_every cfg) / Z.to_nat (Driver.save_every cfg))%nat.

Lemma iteration_lattice_mode (st : Driver.LoopState W) :
  exists st' chunk,
    Driver.iteration W cfg st = (st', Driver.Next)
    /\ Driver.i st' = Driver.i st + Driver.print_every cfg
    /\ Driver.pos_traj st' = Driver.pos_traj st ++ [chunk]
    /\ List.length chunk = per_chunk.
Proof.
  destruct (report_keeps W cfg st)
    as (Hi & _ & _ & _ & _ & _ & _ & _ & Hp & _).
  unfold Driver.iteration. rewrite lattice_mode. simpl negb. cbv iota.
  pose proof (pscan_length (Driver.step_fn W)
                (Z.to_nat (Driver.print_every cfg))
                (Driver.state (Driver.report W cfg st), None)) as Hlen.
  destruct (pscan (Driver.step_fn W)
              (Driver.state (Driver.report W cfg st), None)
              (Z.to_nat (Driver.print_every cfg))) as [[s' n'] outs].
  simpl in Hlen.
  eexists. eexists. split; [ reflexivity | ].
  unfold Driver.record_chunk. simpl.
  split; [ rewrite Hi; reflexivity | ].
  split; [ rewrite Hp; reflexivity | ].
  rewrite slice_step_length by lia.
  replace (Z.to_nat (Driver.save_every cfg) - 1
           - (Z.to_nat (Driver.save_every cfg) - 1))%nat with 0%nat by lia.
  rewrite Nat.add_0_r, length_map, Hlen. reflexivity.
Qed.

Lemma loop_lattice_mode (m : nat) :
  forall (st : Driver.LoopState W) (fuel : nat),
    Driver.total_steps cfg <= Driver.i st + Driver.print_every cfg * Z.of_nat m ->
    (m = 0%nat
     \/ Driver.i st + Driver.print_every cfg * (Z.of_nat m - 1)
        < Driver.total_steps cfg) ->
    (m < fuel)%nat ->
    exists st' chunks,
      Driver.loop W cfg fuel st = Some st'
      /\ Driver.i st' = Driver.i st + Driver.print_every cfg * Z.of_nat m
      /\ Driver.pos_traj st' = Driver.pos_traj st ++ chunks
      /\ List.length chunks = m
      /\ Forall (fun c => List.length c = per_chunk) chunks.
Proof.
  induction m as [| m IH]; intros st fuel Hge Hlt Hfuel.
  - destruct fuel as [| fuel]; [ lia | ].
    exists st, []. rewrite loop_fuel_zero by lia.
    rewrite app_nil_r. repeat split; [ lia | constructor ].
  - destruct fuel as [| fuel]; [ lia | ].
    destruct Hlt as [Hz | Hlt]; [ discriminate | ].
    destruct (iteration_lattice_mode st) as (st1 & chunk & Hit & Hi1 & Hp1 & Hc).
    assert (Hnow : Driver.i st < Driver.total_steps cfg) by nia.
    rewrite (loop_next W cfg st st1 fuel Hnow Hit).
    destruct (IH st1 fuel) as (st' & chunks & Hl & Hi' & Hp' & Hn & Hall).
    + rewrite Hi1. lia.
    + destruct m as [| m]; [ left; reflexivity | right ].
      rewrite Hi1. lia.
    + lia.
    + exists st', (chunk :: chunks).
      split; [ exact Hl | ].
      split; [ rewrite Hi', Hi1; lia | ].
      split; [ rewrite Hp', Hp1, <- app_assoc; reflexivity | ].
      split; [ simpl; congruence | constructor; assumption ].
Qed.

End LatticeRun.

(** Without neighbor list the script always finishes.  It runs
    ceil(total_steps / print_every) chunks of [print_every] steps each, so
    the step counter ends on the first multiple of [print_every] that
    reaches [total_steps], and the position file holds
    floor(print_every / save_every) frames for every chunk. *)
Theorem lattice_mode_run (W : Driver.World) (cfg : Driver.Config)
    (state0 : Driver.State W) (fuel : nat) :
  Driver.use_neighborlist cfg = false ->
  0 < Driver.print_every cfg ->
  0 < Driver.save_every cfg ->
  0 < Driver.total_steps cfg ->
  let chunks :=
    (Driver.total_steps cfg + Driver.print_every cfg - 1) / Driver.print_every cfg in
  (Z.to_nat chunks < fuel)%nat ->
  exists st files,
    Driver.loop W cfg fuel (Driver.initial W cfg state0) = Some st
    /\ Driver.i st = Driver.print_every cfg * chunks
    /\ Driver.total_steps cfg <= Driver.i st
       < Driver.total_steps cfg + Driver.print_every cfg
    /\ Driver.main W cfg fuel state0 = Some (Ok files)
    /\ List.length (Driver.pos_npy files)
       = (Z.to_nat chunks
          * (Z.to_nat (Driver.print_every cfg) / Z.to_nat (Driver.save_every cfg)))%nat.
Proof.
  intros Hmode Hpe Hse Htot chunks Hfuel.
  pose proof (Z_div_mod_eq_full
                (Driver.total_steps cfg + Driver.print_every cfg - 1)
                (Driver.print_every cfg)) as Ediv.
  pose proof (Z.mod_pos_bound
                (Driver.total_steps cfg + Driver.print_every cfg - 1)
                (Driver.print_every cfg) Hpe) as Bmod.
  fold chunks in Ediv.
  assert (Hq : 1 <= chunks) by nia.
  destruct (loop_lattice_mode W cfg Hmode Hpe Hse (Z.to_nat chunks)
              (Driver.initial W cfg state0) fuel)
    as (st & cs & Hl & Hi & Hp & Hn & Hall).
  - simpl Driver.i. rewrite Z2Nat.id by lia. nia.
  - right. simpl Driver.i. rewrite Z2Nat.id by lia. nia.
  - exact Hfuel.
  - simpl Driver.i in Hi. rewrite Z2Nat.id in Hi by lia.
    simpl Driver.pos_traj in Hp. simpl app in Hp.
    unfold Driver.main. rewrite Hl. unfold Driver.save. rewrite Hp.
    destruct cs as [| c cs]; [ simpl in Hn; lia | ].
    eexists. eexists.
    split; [ reflexivity | ].
    split; [ lia | ].
    split; [ nia | ].
    split; [ reflexivity | ].
    change (Driver.pos_npy _) with (List.concat (c :: cs)).
    rewrite (length_concat_uniform _ _ Hall), Hn. reflexivity.
Qed.

Lemma lattice_mode_run_witness :
  Driver.use_neighborlist Toy.short_run = false
  /\ 0 < Driver.print_every Toy.short_run
  /\ 0 < Driver.save_every Toy.short_run
  /\ 0 < Driver.total_steps Toy.short_run
  /\ (Z.to_nat 1 < 5)%nat
  /\ exists st files,
       Driver.loop (Toy.world false) Toy.short_run 5
         (Driver.initial (Toy.world false) Toy.short_run Toy.state0) = Some st
       /\ Driver.i st = 2 * 1
       /\ 2 <= Driver.i st < 2 + 2
       /\ Driver.main (Toy.world false) Toy.short_run 5 Toy.state0 = Some (Ok files)
       /\ List.length (Driver.pos_npy files) = (Z.to_nat 1 * (2 / 1))%nat.
Proof.
  assert (H5 : (Z.to_nat 1 < 5)%nat) by (simpl; lia).
  split; [ reflexivity | ]. split; [ reflexivity | ].
  split; [ reflexivity | ]. split; [ reflexivity | ].
  split; [ exact H5 | ].
  exact (lattice_mode_run (Toy.world false) Toy.short_run Toy.state0 5
           eq_refl eq_refl eq_refl eq_refl H5).
Defined.

(* ------------------------------------------------------------------ *)
(** ** Runs with neighbor list that make no progress *)

Lemma loop_stuck (W : Driver.World) (cfg : Driver.Config)
    (Inv : Driver.LoopState W -> Prop) :
  (forall st, Inv st -> Driver.i st < Driver.total_steps cfg) ->
  (forall st, Inv st ->
     exists st', Driver.iteration W cfg st = (st', Driver.Next) /\ Inv st') ->
  forall fuel st, Inv st -> Driver.loop W cfg fuel st = None.
Proof.
  intros Hlt Hstep. induction fuel as [| fuel IH]; intros st Hst.
  - reflexivity.
  - destruct (Hstep st Hst) as (st' & Hit & Hst').
    rewrite (loop_next W cfg st st' fuel (Hlt st Hst) Hit).
    apply IH. exact Hst'.
Qed.

Lemma empty_chunk (W : Driver.World) (cfg : Driver.Config)
    (st : Driver.LoopState W) :
  Z.to_nat (Driver.print_every cfg / Driver.update_every st) = 0%nat ->
  Driver.chunk W cfg st = ((Driver.state st, Driver.nbrs_list st), []).
Proof. unfold Driver.chunk. intros ->. reflexivity. Qed.

(** With the neighbor list in use and [print_every] below the initial
    update granularity 5, a chunk has no steps: no iteration moves the
    step counter off 0 and the loop never ends, whatever the fuel. *)
Theorem short_print_interval_never_ends (W : Driver.World) (cfg : Driver.Config)
    (state0 : Driver.State W) (fuel : nat) :
  Driver.use_neighborlist cfg = true ->
  0 < Driver.print_every cfg < 5 ->
  0 < Driver.total_steps cfg ->
  Driver.loop W cfg fuel (Driver.initial W cfg state0) = None
  /\ Driver.main W cfg fuel state0 = None.
Proof.
  intros Hnl Hpe Htot.
  assert (Hloop : Driver.loop W cfg fuel (Driver.initial W cfg state0) = None).
  { apply (loop_stuck W cfg
             (fun st => Driver.i st = 0 /\ Driver.update_every st = 5)).
    - intros st [Hi _]. lia.
    - intros st [Hi Hu].
      destruct (report_keeps W cfg st)
        as (Hi' & Hs' & Hn' & _ & _ & Hu' & _).
      assert (Hempty : Driver.chunk W cfg (Driver.report W cfg st)
                       = ((Driver.state (Driver.report W cfg st),
                           Driver.nbrs_list (Driver.report W cfg st)), [])).
      { apply empty_chunk. rewrite Hu', Hu, Z.div_small by lia. reflexivity. }
      unfold Driver.iteration. rewrite Hnl. simpl negb. cbv iota.
      rewrite Hempty. simpl map. simpl existsb.
      destruct (existsb (Driver.did_buffer_overflow W)
                  (Driver.nbrs_list (Driver.report W cfg st))).
      + eexists. split; [ reflexivity | ].
        unfold Driver.on_nbrs_overflow.
        destruct (Driver.NBRS_FLAG (Driver.report W cfg st)); simpl;
          rewrite Hi', Hu'; auto.
      + eexists. split; [ reflexivity | ].
        simpl. rewrite Hi', Hu', Hi, Hu, Z.div_small by lia. split; reflexivity.
    - split; reflexivity. }
  split; [ exact Hloop | ].
  unfold Driver.main. rewrite Hloop. reflexivity.
Qed.

Lemma short_print_interval_never_ends_witness :
  Driver.use_neighborlist
    (Driver.mkConfig 10 4 1 true false [0; 1] 6 [6 # 10] [6 # 10]
       (10, 10, 10)%Q 1) = true
  /\ 0 < 4 < 5
  /\ 0 < 10
  /\ Driver.loop (Toy.world false)
       (Driver.mkConfig 10 4 1 true false [0; 1] 6 [6 # 10] [6 # 10]
          (10, 10, 10)%Q 1) 7
       (Driver.initial (Toy.world false)
          (Driver.mkConfig 10 4 1 true false [0; 1] 6 [6 # 10] [6 # 10]
             (10, 10, 10)%Q 1) Toy.state0) = None
  /\ Driver.main (Toy.world false)
       (Driver.mkConfig 10 4 1 true false [0; 1] 6 [6 # 10] [6 # 10]
          (10, 10, 10)%Q 1) 7 Toy.state0 = None.
Proof.
  split; [ reflexivity | ]. split; [ lia | ]. split; [ lia | ].
  exact (short_print_interval_never_ends (Toy.world false)
           (Driver.mkConfig 10 4 1 true false [0; 1] 6 [6 # 10] [6 # 10]
              (10, 10, 10)%Q 1) Toy.state0 7 eq_refl ltac:(simpl; lia)
           ltac:(simpl; lia)).
Defined.

Lemma chunk_ext (W : Driver.World) (cfg : Driver.Config)
    (st st' : Driver.LoopState W) :
  Driver.state st' = Driver.state st ->
  Driver.nbrs_list st' = Driver.nbrs_list st ->
  Driver.neighborlist st' = Driver.neighborlist st ->
  Driver.multi_steps st' = Driver.multi_steps st ->
  Driver.update_every st' = Driver.update_every st ->
  Driver.chunk W cfg st' = Driver.chunk W cfg st.
Proof.
  intros Hs Hn Hl Hm Hu. unfold Driver.chunk. rewrite Hs, Hn, Hl, Hm, Hu.
  reflexivity.
Qed.

(** With the neighbor list in use, if the first chunk of a run overflows
    the neighbor buffer the run never ends: the reallocation rebuilds the
    list from the same loader and the same positions, so every later
    chunk is the first chunk again and the step counter stays at 0. *)
Theorem first_chunk_overflow_never_ends (W : Driver.World) (cfg : Driver.Config)
    (state0 : Driver.State W) (fuel : nat) :
  Driver.use_neighborlist cfg = true ->
  0 < Driver.total_steps cfg ->
  Driver.nbrs_overflowed W cfg (Driver.initial W cfg state0) = true ->
  Driver.loop W cfg fuel (Driver.initial W cfg state0) = None
  /\ Driver.main W cfg fuel state0 = None.
Proof.
  intros Hnl Htot Hov.
  set (st0 := Driver.initial W cfg state0) in *.
  assert (Hloop : Driver.loop W cfg fuel st0 = None).
  { apply (loop_stuck W cfg
             (fun st => Driver.i st = 0
                        /\ Driver.state st = Driver.state st0
                        /\ Driver.nbrs_list st = Driver.nbrs_list st0
                        /\ Driver.neighborlist st = Driver.neighborlist st0
                        /\ Driver.multi_steps st = Driver.multi_steps st0
                        /\ Driver.update_every st = Driver.update_every st0)).
    - intros st [Hi _]. lia.
    - intros st (Hi & Hs & Hn & Hl & Hm & Hu).
      assert (Hov' : Driver.nbrs_overflowed W cfg st = true).
      { unfold Driver.nbrs_overflowed.
        rewrite (chunk_ext W cfg st0 st Hs Hn Hl Hm Hu). exact Hov. }
      destruct (report_keeps W cfg st)
        as (Hi' & Hs' & Hn' & _ & _ & Hu' & Hm' & Hl' & _).
      exists (Driver.on_nbrs_overflow W cfg (Driver.report W cfg st)).
      split; [ apply iteration_nbrs_overflow; assumption | ].
      unfold Driver.on_nbrs_overflow.
      assert (Hlist : Driver.loader_allocate W
                        (Driver.neighborlist (Driver.report W cfg st))
                        (Driver.mod_box cfg
                           (Driver.position W
                              (Driver.state (Driver.report W cfg st))))
                      = Driver.nbrs_list st0).
      { rewrite Hl', Hs', Hl, Hs. unfold st0, Driver.initial.
        simpl. rewrite Hnl. reflexivity. }
      destruct (Driver.NBRS_FLAG (Driver.report W cfg st)); simpl;
        rewrite Hlist, Hi', Hs', Hl', Hm', Hu'; auto 10.
    - repeat split; reflexivity. }
  split; [ exact Hloop | ].
  unfold Driver.main. fold st0. rewrite Hloop. reflexivity.
Qed.

Lemma first_chunk_overflow_never_ends_witness :
  Driver.use_neighborlist (Toy.settings true) = true
  /\ 0 < Driver.total_steps (Toy.settings true)
  /\ Driver.nbrs_overflowed (Toy.world true) (Toy.settings true)
       (Driver.initial (Toy.world true) (Toy.settings true) Toy.state0) = true
  /\ Driver.loop (Toy.world true) (Toy.settings true) 9
       (Driver.initial (Toy.world true) (Toy.settings true) Toy.state0) = None
  /\ Driver.main (Toy.world true) (Toy.settings true) 9 Toy.state0 = None.
Proof.
  assert (H3 : Driver.nbrs_overflowed (Toy.world true) (Toy.settings true)
                 (Driver.initial (Toy.world true) (Toy.settings true) Toy.state0)
               = true) by (vm_compute; reflexivity).
  split; [ reflexivity | ]. split; [ reflexivity | ]. split; [ exact H3 | ].
  exact (first_chunk_overflow_never_ends (Toy.world true) (Toy.settings true)
           Toy.state0 9 eq_refl eq_refl H3).
Defined.

(* ------------------------------------------------------------------ *)
(** ** What the loop of the script keeps *)

Section LoopInvariant.

Variable W : Driver.World.
Variable cfg : Driver.Config.

(** What holds of the loop variables throughout a run. *)
Let kept (st0 st : Driver.LoopState W) : Prop :=
  1 <= Driver.update_every st <= 5
  /\ Driver.multi_steps st = Driver.update_every st
  /\ Driver.neighborlist st = Driver.neighborlist st0
  /\ ((12 # 10) <= Driver.buffer_size st)%Q
  /\ Driver.vel_traj st = Driver.pos_traj st
  /\ List.length (Driver.model_devi_traj st) = List.length (Driver.pos_traj st).

Lemma buffer_size_grows (b : Q) : (b <= b + (5 # 100))%Q.
Proof.
  setoid_replace b with (b + 0)%Q at 1 by ring.
  apply Qplus_le_r. unfold Qle; simpl; lia.
Qed.

Lemma iteration_keeps (st0 st : Driver.LoopState W) :
  kept st0 st ->
  kept st0 (fst (Driver.iteration W cfg st))
  /\ Driver.update_every (fst (Driver.iteration W cfg st)) <= Driver.update_every st
  /\ (Driver.buffer_size st <= Driver.buffer_size (fst (Driver.iteration W cfg st)))%Q.
Proof.
  unfold kept. intros (Hue & Hms & Hnl & Hbs & Hvp & Hlen).
  destruct (report_keeps W cfg st)
    as (Hi & Hs & Hn & Hf & Hb & Hu & Hm & Hl & Hp & Hv & Hd).
  unfold Driver.iteration.
  destruct (negb (Driver.use_neighborlist cfg)).
  - destruct (pscan _ _ _) as [[s' n'] outs]. simpl.
    rewrite Hu, Hm, Hl, Hb, Hp, Hv, Hd, !length_app, Hvp, Hlen. simpl.
    repeat split; try assumption; try lia; apply Qle_refl.
  - destruct (Driver.chunk W cfg (Driver.report W cfg st)) as [[sn nn] outs].
    destruct (existsb _ nn).
    + simpl. unfold Driver.on_nbrs_overflow.
      destruct (Driver.NBRS_FLAG (Driver.report W cfg st)); simpl;
        rewrite Hu, Hm, Hl, Hb, Hp, Hv, Hd;
        repeat split; try assumption; try lia;
        try apply Qle_refl; try apply buffer_size_grows.
      eapply Qle_trans; [ exact Hbs | apply buffer_size_grows ].
    + destruct (existsb _ (map snd outs)).
      * unfold Driver.on_rcut_overflow, Driver.clear_flag. simpl.
        rewrite Hu.
        destruct (Z.eqb_spec (Driver.update_every st) 1); simpl;
          rewrite ?Hu, ?Hm, Hl, Hb, Hp, Hv, Hd;
          repeat split; try assumption; try lia; try apply Qle_refl.
        -- apply Z.max_lub; [ | lia ].
           apply Z.div_le_upper_bound; lia.
        -- apply Z.max_lub; [ | lia ].
           apply Z.div_le_upper_bound; lia.
      * simpl. rewrite Hu, Hm, Hl, Hb, Hp, Hv, Hd, !length_app, Hvp, Hlen. simpl.
        repeat split; try assumption; try lia; apply Qle_refl.
Qed.

(** Through every run of the script: the update granularity stays
    between 1 and 5 and never grows, the compiled multi-step always has
    the current granularity, the loader is the one built before the loop
    (its buffer factor 1.2 included), [buffer_size] never falls below 1.2
    and never shrinks, and the three recorded lists grow together. *)
Theorem run_invariants (state0 : Driver.State W) (n : nat) :
  let st0 := Driver.initial W cfg state0 in
  let st := after_iterations W cfg n st0 in
  let st' := after_iterations W cfg (S n) st0 in
  1 <= Driver.update_every st <= 5
  /\ Driver.multi_steps st = Driver.update_every st
  /\ Driver.neighborlist st = Driver.neighborlist st0
  /\ Driver.loader_size (Driver.neighborlist st) = (12 # 10)%Q
  /\ ((12 # 10) <= Driver.buffer_size st)%Q
  /\ Driver.vel_traj st = Driver.pos_traj st
  /\ List.length (Driver.model_devi_traj st) = List.length (Driver.pos_traj st)
  /\ Driver.update_every st' <= Driver.update_every st
  /\ (Driver.buffer_size st <= Driver.buffer_size st')%Q.
Proof.
  intros st0 st st'.
  assert (H : kept st0 st).
  { subst st. induction n as [| n IH].
    - unfold kept. simpl.
      repeat split; try reflexivity; try lia; apply Qle_refl.
    - apply (iteration_keeps st0 _ IH). }
  destruct (iteration_keeps st0 st H) as (_ & Hmono & Hbuf).
  unfold kept in H. destruct H as (H1 & H2 & H3 & H4 & H5 & H6).
  repeat split; try assumption; try lia.
  rewrite H3. reflexivity.
Qed.

End LoopInvariant.

Lemma after_iterations_succ_r (W : Driver.World) (cfg : Driver.Config) (n : nat)
    (st : Driver.LoopState W) :
  after_iterations W cfg (S n) st
  = after_iterations W cfg n (fst (Driver.iteration W cfg st)).
Proof.
  unfold after_iterations. induction n as [| n IH]; [ reflexivity | ].
  simpl in *. rewrite IH. reflexivity.
Qed.

(** Where the loop ends is one of the states counted by
    [after_iterations]. *)
Lemma loop_reaches (W : Driver.World) (cfg : Driver.Config) (fuel : nat) :
  forall st st' : Driver.LoopState W,
    Driver.loop W cfg fuel st = Some st' ->
    exists n, st' = after_iterations W cfg n st.
Proof.
  induction fuel as [| fuel IH]; simpl; intros st st' H; [ discriminate | ].
  destruct (Driver.i st <? Driver.total_steps cfg).
  - destruct (Driver.iteration W cfg st) as [st1 c] eqn:E.
    assert (E1 : st1 = fst (Driver.iteration W cfg st)) by (rewrite E; reflexivity).
    destruct c.
    + destruct (IH _ _ H) as (n & Hn). exists (S n).
      rewrite after_iterations_succ_r, <- E1. exact Hn.
    + inversion H; subst st'. exists 1%nat. exact E1.
  - inversion H; subst. exists 0%nat. reflexivity.
Qed.

Lemma rcut_overflow_step (W : Driver.World) (cfg : Driver.Config)
    (st : Driver.LoopState W) :
  Driver.use_neighborlist cfg = true ->
  Driver.nbrs_overflowed W cfg st = false ->
  Driver.rcut_overflowed W cfg st = true ->
  Driver.update_every st <> 1 ->
  let st' := fst (Driver.iteration W cfg st) in
  snd (Driver.iteration W cfg st) = Driver.Next
  /\ Driver.update_every st' = Z.max (Driver.update_every st / 2) 1
  /\ Driver.i st' = Driver.i st
  /\ Driver.pos_traj st' = Driver.pos_traj st.
Proof.
  intros Hnl Hov Hrc Hne st'. subst st'.
  rewrite (iteration_rcut_overflow W cfg st Hnl Hov Hrc).
  destruct (report_keeps W cfg st)
    as (Hi & _ & _ & _ & _ & Hu & _ & _ & Hp & _).
  unfold Driver.on_rcut_overflow. simpl Driver.update_every. rewrite Hu.
  destruct (Z.eqb_spec (Driver.update_every st) 1); [ contradiction | ].
  simpl. rewrite Hi, Hp. repeat split; reflexivity.
Qed.

Lemma three_rcut_overflows (W : Driver.World) (cfg : Driver.Config)
    (st0 st1 st2 : Driver.LoopState W) (fuel : nat) :
  Driver.update_every st0 = 5 ->
  Driver.i st0 = 0 ->
  Driver.pos_traj st0 = [] ->
  st1 = fst (Driver.iteration W cfg st0) ->
  st2 = fst (Driver.iteration W cfg st1) ->
  Driver.use_neighborlist cfg = true ->
  0 < Driver.total_steps cfg ->
  Driver.nbrs_overflowed W cfg st0 = false ->
  Driver.rcut_overflowed W cfg st0 = true ->
  Driver.nbrs_overflowed W cfg st1 = false ->
  Driver.rcut_overflowed W cfg st1 = true ->
  Driver.nbrs_overflowed W cfg st2 = false ->
  Driver.rcut_overflowed W cfg st2 = true ->
  exists st,
    Driver.loop W cfg (3 + fuel) st0 = Some st
    /\ Driver.i st = 0
    /\ Driver.update_every st = 1
    /\ Driver.pos_traj st = []
    /\ last (Driver.printed st) (Driver.Report 0) = Driver.RcutOverflowError.
Proof.
  intros Hu0 Hi0 Hp0 E1 E2 Hnl Htot Hn0 Hr0 Hn1 Hr1 Hn2 Hr2.
  destruct (rcut_overflow_step W cfg st0 Hnl Hn0 Hr0)
    as (Hc0 & Hu1 & Hi1 & Hp1); [ lia | ].
  rewrite <- E1 in Hu1, Hi1, Hp1. rewrite Hu0 in Hu1.
  change (Z.max (5 / 2) 1) with 2 in Hu1.
  destruct (rcut_overflow_step W cfg st1 Hnl Hn1 Hr1)
    as (Hc1 & Hu2 & Hi2 & Hp2); [ lia | ].
  rewrite <- E2 in Hu2, Hi2, Hp2. rewrite Hu1 in Hu2.
  change (Z.max (2 / 2) 1) with 1 in Hu2.
  destruct (rcut_overflow_at_granularity_one_aborts W cfg st2 Hnl Hn2 Hr2 Hu2)
    as (Hc2 & Hpr).
  assert (Hit2 := iteration_rcut_overflow W cfg st2 Hnl Hn2 Hr2).
  destruct (report_keeps W cfg st2)
    as (Hi' & _ & _ & _ & _ & Hu' & _ & _ & Hp' & _).
  assert (H3 : Driver.i (fst (Driver.iteration W cfg st2)) = 0
               /\ Driver.update_every (fst (Driver.iteration W cfg st2)) = 1
               /\ Driver.pos_traj (fst (Driver.iteration W cfg st2)) = []).
  { rewrite Hit2. unfold Driver.on_rcut_overflow.
    simpl Driver.update_every. rewrite Hu', Hu2. simpl.
    rewrite Hi', Hp', Hi2, Hi1, Hp2, Hp1, Hi0, Hp0. auto. }
  destruct H3 as (Hi3 & Hu3 & Hp3).
  exists (fst (Driver.iteration W cfg st2)).
  split; [ | split; [ exact Hi3 | split; [ exact Hu3 | split; [ exact Hp3 | ] ] ] ].
  - assert (F0 : Driver.iteration W cfg st0 = (st1, Driver.Next)).
    { rewrite E1, <- Hc0. destruct (Driver.iteration W cfg st0); reflexivity. }
    assert (F1 : Driver.iteration W cfg st1 = (st2, Driver.Next)).
    { rewrite E2, <- Hc1. destruct (Driver.iteration W cfg st1); reflexivity. }
    change (3 + fuel)%nat with (S (S (S fuel))).
    rewrite (loop_next W cfg st0 st1 _ ltac:(lia) F0).
    rewrite (loop_next W cfg st1 st2 _ ltac:(lia) F1).
    simpl.
    assert (Hlt : (Driver.i st2 <? Driver.total_steps cfg) = true)
      by (apply Z.ltb_lt; lia).
    rewrite Hlt.
    destruct (Driver.iteration W cfg st2) as [st3 c]. simpl in Hc2. subst c.
    reflexivity.
  - rewrite Hpr. apply last_last.
Qed.

(** The retries after a cutoff-buffer overflow are bounded: when each of
    the first three chunks of a run overflows the cutoff buffer (and not
    the neighbor buffer), the granularity goes 5, 2, 1 and the third
    iteration leaves the loop at step 0 with the error printed last;
    nothing was recorded, so saving the trajectory raises ValueError. *)
Theorem three_rcut_overflows_abort (W : Driver.World) (cfg : Driver.Config)
    (state0 : Driver.State W) (fuel : nat) :
  let st0 := Driver.initial W cfg state0 in
  let st1 := fst (Driver.iteration W cfg st0) in
  let st2 := fst (Driver.iteration W cfg st1) in
  Driver.use_neighborlist cfg = true ->
  0 < Driver.total_steps cfg ->
  Driver.nbrs_overflowed W cfg st0 = false ->
  Driver.rcut_overflowed W cfg st0 = true ->
  Driver.nbrs_overflowed W cfg st1 = false ->
  Driver.rcut_overflowed W cfg st1 = true ->
  Driver.nbrs_overflowed W cfg st2 = false ->
  Driver.rcut_overflowed W cfg st2 = true ->
  exists st,
    Driver.loop W cfg (3 + fuel) st0 = Some st
    /\ Driver.i st = 0
    /\ Driver.update_every st = 1
    /\ Driver.pos_traj st = []
    /\ last (Driver.printed st) (Driver.Report 0) = Driver.RcutOverflowError
    /\ Driver.main W cfg (3 + fuel) state0
       = Some (Raise (ValueError "need at least one array to concatenate")).
Proof.
  intros st0 st1 st2 Hnl Htot Hn0 Hr0 Hn1 Hr1 Hn2 Hr2.
  destruct (three_rcut_overflows W cfg st0 st1 st2 fuel eq_refl eq_refl eq_refl
              eq_refl eq_refl Hnl Htot Hn0 Hr0 Hn1 Hr1 Hn2 Hr2)
    as (st & Hloop & Hi & Hu & Hp & Hlast).
  exists st. repeat (split; [ assumption | ]).
  unfold Driver.main. fold st0. rewrite Hloop. unfold Driver.save.
  rewrite Hp. reflexivity.
Qed.

Lemma three_rcut_overflows_abort_witness :
  exists st,
    Driver.loop (Toy.world false) (Toy.settings true) (3 + 2)
      (Driver.initial (Toy.world false) (Toy.settings true) Toy.state0) = Some st
    /\ Driver.i st = 0
    /\ Driver.update_every st = 1
    /\ Driver.pos_traj st = []
    /\ last (Driver.printed st) (Driver.Report 0) = Driver.RcutOverflowError
    /\ Driver.main (Toy.world false) (Toy.settings true) (3 + 2) Toy.state0
       = Some (Raise (ValueError "need at least one array to concatenate")).
Proof.
  apply (three_rcut_overflows_abort (Toy.world false) (Toy.settings true)
           Toy.state0 2);
    vm_compute; reflexivity.
Defined.

(* ------------------------------------------------------------------ *)
(** ** What get_nm needs to return *)

Lemma smallest_k_length (k : Z) (row out : list Z) :
  NeighborList.smallest_k k row = Ok out -> Z.of_nat (List.length out) = k.
Proof.
  intros H. destruct (smallest_k_parts _ _ _ H) as (rest & _ & Hlen & _).
  exact Hlen.
Qed.

Lemma smallest_k_bounds (k : Z) (row out : list Z) :
  NeighborList.smallest_k k row = Ok out -> 0 <= k <= Z.of_nat (List.length row).
Proof.
  unfold NeighborList.smallest_k, top_k. rewrite length_map.
  destruct ((k <? 0) || (Z.of_nat (List.length row) <? k)) eqn:Eg;
    simpl; [ discriminate | ].
  apply orb_false_iff in Eg. destruct Eg as [Hk0 Hkl].
  apply Z.ltb_ge in Hk0. apply Z.ltb_ge in Hkl. intros _. lia.
Qed.

Lemma mapM_In_fwd {A B : Type} (f : A -> result B) (l : list A) (bs : list B) (a : A) :
  mapM f l = Ok bs -> In a l -> exists b, In b bs /\ f a = Ok b.
Proof.
  intros H Ha. apply In_nth_error in Ha. destruct Ha as (n & Hn).
  destruct (mapM_nth_error_fwd f l bs n a H Hn) as (b & Hb & Hf).
  exists b. split; [ eapply nth_error_In; eauto | exact Hf ].
Qed.

Lemma combine_In_r {A B : Type} (l1 : list A) :
  forall (l2 : list B) (b : B),
    List.length l1 = List.length l2 -> In b l2 -> exists a, In (a, b) (combine l1 l2).
Proof.
  induction l1 as [| x l1 IH]; intros [| y l2] b Hlen Hin; simpl in *;
    try discriminate; try contradiction.
  destruct Hin as [<- | Hin].
  - exists x. left. reflexivity.
  - injection Hlen as Hlen. destruct (IH l2 b Hlen Hin) as (a & Ha).
    exists a. right. exact Ha.
Qed.

Section GetNmReturns.

Variable K : Z.
Variable get_mask_by_device : list Z -> list bool.
Variable split : table -> list Z -> Z -> list table.
Variable JNbrs : Type.
Variable idx : JNbrs -> table.
Variable did_buffer_overflow : JNbrs -> bool.

(** [get_nm] returns only for an object that has been allocated and only
    when every row width [knbr[i]] is at least 1 and at most the width of
    every row of the neighbor table (the device mask having one entry per
    row): otherwise [top_k] or the row maximum raises. *)
Theorem get_nm_returns_only_within_bounds (self : NeighborList.t) (nbrs : JNbrs)
    (r : list (list table) * bool) :
  List.length (get_mask_by_device (NeighborList.type_count self))
  = List.length (idx nbrs) ->
  NeighborList.get_nm K get_mask_by_device split idx did_buffer_overflow self nbrs
  = Ok r ->
  exists ks,
    NeighborList.knbr self = Some ks
    /\ forall (i : nat) (row : list Z),
         (i < List.length (NeighborList.type_count self))%nat ->
         In row (idx nbrs) ->
         1 <= nth i ks 0 <= Z.of_nat (List.length row).
Proof.
  intros Hlen H.
  unfold NeighborList.get_nm, NeighborList.get_knbr in H.
  destruct (NeighborList.knbr self) as [ks |] eqn:Ek; simpl in H; [ | discriminate ].
  destruct (NeighborList.nbrs_idx_of K get_mask_by_device self ks (idx nbrs))
    as [kept |] eqn:Ekept; simpl in H; [ | discriminate ].
  destruct (mapM (NeighborList.type_overflow K self) kept) as [flags |] eqn:Ef;
    simpl in H; [ | discriminate ].
  exists ks. split; [ reflexivity | ]. intros i row Hi Hrow.
  set (fns := NeighborList.mask_fns K get_mask_by_device self) in *.
  assert (Hnth : nth_error (combine (seq 0 (List.length fns)) fns) i
                 = Some (i, mask_fn K get_mask_by_device
                              (NeighborList.type_count self) i)).
  { unfold fns, NeighborList.mask_fns, get_type_mask_fns.
    rewrite length_map, length_seq, nth_error_combine, nth_error_map,
      !nth_error_seq.
    apply Nat.ltb_lt in Hi. rewrite Hi. reflexivity. }
  unfold NeighborList.nbrs_idx_of in Ekept. fold fns in Ekept.
  destruct (mapM_nth_error_fwd _ _ _ i _ Ekept Hnth) as (tb & Htb & Etb).
  simpl in Etb.
  destruct (combine_In_r (get_mask_by_device (NeighborList.type_count self))
              (idx nbrs) row Hlen Hrow) as (km & Hkm).
  assert (Hm : exists mrow,
             In mrow (mask_fn K get_mask_by_device (NeighborList.type_count self)
                        i (idx nbrs))
             /\ List.length mrow = List.length row).
  { eexists. split.
    - unfold mask_fn. apply in_map_iff. exists (km, row).
      split; [ reflexivity | exact Hkm ].
    - apply length_map. }
  destruct Hm as (mrow & Hm & Hml).
  destruct (mapM_In_fwd _ _ _ _ Etb Hm) as (out & Hout & Es).
  pose proof (smallest_k_bounds _ _ _ Es) as Hb. rewrite Hml in Hb.
  pose proof (smallest_k_length _ _ _ Es) as Hl.
  apply nth_error_In in Htb.
  destruct (mapM_In_fwd _ _ _ _ Ef Htb) as (flag & _ & Eflag).
  unfold NeighborList.type_overflow in Eflag.
  destruct (mapM amax tb) as [maxes |] eqn:Em; simpl in Eflag; [ | discriminate ].
  destruct (mapM_In_fwd _ _ _ _ Em Hout) as (m & _ & Ea).
  destruct out as [| x out]; [ simpl in Ea; discriminate | ].
  simpl List.length in Hl. lia.
Qed.

End GetNmReturns.

Lemma get_nm_returns_only_within_bounds_witness :
  List.length (Toy.all_real (NeighborList.type_count Toy.narrow))
  = List.length Toy.star_table
  /\ (exists r, Toy.get_nm Toy.narrow Toy.star_table = Ok r)
  /\ exists ks,
       NeighborList.knbr Toy.narrow = Some ks
       /\ forall (i : nat) (row : list Z),
            (i < List.length (NeighborList.type_count Toy.narrow))%nat ->
            In row Toy.star_table ->
            1 <= nth i ks 0 <= Z.of_nat (List.length row).
Proof.
  assert (Hlen : List.length (Toy.all_real (NeighborList.type_count Toy.narrow))
                 = List.length Toy.star_table) by reflexivity.
  assert (Hr : exists r, Toy.get_nm Toy.narrow Toy.star_table = Ok r)
    by (vm_compute; eexists; reflexivity).
  split; [ exact Hlen | ]. split; [ exact Hr | ].
  destruct Hr as (r & Hr).
  exact (get_nm_returns_only_within_bounds Toy.devices Toy.all_real Toy.one_block
           table (fun nbrs => nbrs) Toy.never_overflows Toy.narrow Toy.star_table
           r Hlen Hr).
Defined.

(* ------------------------------------------------------------------ *)
(** ** The displacement of line 238 is a minimum image *)

(** In a box length [b > 0] the wrapped separation differs from the
    separation by a whole number of box lengths and lies in
    [[-b/2, b/2)]. *)
Theorem wrapped_separation_is_minimum_image (d b : Q) :
  (0 < b)%Q ->
  (exists n : Z, (NeighborList.wrap_component d b == d - b * inject_Z n)%Q)
  /\ (- (b / 2) <= NeighborList.wrap_component d b)%Q
  /\ (NeighborList.wrap_component d b < b / 2)%Q.
Proof.
  intros Hb.
  pose proof (wrap_component_nearest d b Hb) as E.
  destruct (nearest_image_range d b Hb) as [L U].
  split; [ | split ].
  - exists (Qfloor (d / b + (1 # 2))). exact E.
  - rewrite E. exact L.
  - rewrite E. exact U.
Qed.

Lemma wrapped_separation_is_minimum_image_witness :
  (0 < 10)%Q
  /\ (exists n : Z, (NeighborList.wrap_component 7 10 == 7 - 10 * inject_Z n)%Q)
  /\ (- (10 / 2) <= NeighborList.wrap_component 7 10)%Q
  /\ (NeighborList.wrap_component 7 10 < 10 / 2)%Q.
Proof.
  assert (Hb : (0 < 10)%Q) by reflexivity.
  split; [ exact Hb | ].
  exact (wrapped_separation_is_minimum_image 7 10 Hb).
Defined.

(* ------------------------------------------------------------------ *)
(** ** A chunk that is accepted *)

Lemma pscan_Forall {S O : Type} (f : S -> S * O) (P : O -> Prop) :
  (forall s, P (snd (f s))) ->
  forall n init, Forall P (snd (pscan f init n)).
Proof.
  intros Hf. induction n as [| n IH]; intros init; [ constructor | ].
  simpl. pose proof (Hf init) as H0. destruct (f init) as [s o].
  specialize (IH s). destruct (pscan f s n) as [s' os].
  simpl in *. constructor; assumption.
Qed.

Lemma multi_step_frames (W : Driver.World) (cfg : Driver.Config)
    (nl : Driver.NeighborListLoader) (steps : Z)
    (states : Driver.State W * list (Driver.Nbr W)) :
  List.length (fst (fst (snd (Driver.multi_step_fn W cfg nl steps states))))
  = Z.to_nat steps.
Proof.
  unfold Driver.multi_step_fn. destruct states as [s n].
  pose proof (pscan_length (Driver.step_fn W) (Z.to_nat steps)
                (s, Some (Driver.loader_update W nl
                            (Driver.mod_box cfg (Driver.position W s)) n)))
    as Hlen.
  destruct (pscan (Driver.step_fn W) _ (Z.to_nat steps)) as [[s' n'] outs].
  simpl in *. rewrite length_map. exact Hlen.
Qed.

Lemma chunk_frames (W : Driver.World) (cfg : Driver.Config)
    (st : Driver.LoopState W) :
  List.length (List.concat (map (fun o => fst (fst o)) (snd (Driver.chunk W cfg st))))
  = (Z.to_nat (Driver.print_every cfg / Driver.update_every st)
     * Z.to_nat (Driver.multi_steps st))%nat.
Proof.
  unfold Driver.chunk.
  set (f := Driver.multi_step_fn W cfg (Driver.neighborlist st)
              (Driver.multi_steps st)).
  set (n := Z.to_nat (Driver.print_every cfg / Driver.update_every st)).
  pose proof (pscan_length f n (Driver.state st, Driver.nbrs_list st)) as Hlen.
  pose proof (pscan_Forall f
                (fun o => List.length (fst (fst o))
                          = Z.to_nat (Driver.multi_steps st))
                (fun s => multi_step_frames W cfg _ _ s) n
                (Driver.state st, Driver.nbrs_list st)) as Hall.
  destruct (pscan f (Driver.state st, Driver.nbrs_list st) n) as [s' outs].
  simpl in *.
  rewrite (length_concat_uniform (Z.to_nat (Driver.multi_steps st))).
  - rewrite length_map, Hlen. reflexivity.
  - apply Forall_map. exact Hall.
Qed.

(** With the neighbor list in use, a chunk without overflow is accepted:
    the state and the list become those the chunk ended with, the flag of
    a previous overflow is cleared, the step counter advances by the
    largest multiple of [update_every] within [print_every], and that
    many frames, thinned by [save_every], are recorded. *)
Theorem accepted_chunk_advance (W : Driver.World) (cfg : Driver.Config)
    (st : Driver.LoopState W) :
  Driver.use_neighborlist cfg = true ->
  Driver.nbrs_overflowed W cfg st = false ->
  Driver.rcut_overflowed W cfg st = false ->
  0 < Driver.update_every st ->
  Driver.multi_steps st = Driver.update_every st ->
  0 <= Driver.print_every cfg ->
  0 < Driver.save_every cfg ->
  let st' := fst (Driver.iteration W cfg st) in
  let advance :=
    Driver.print_every cfg - Driver.print_every cfg mod Driver.update_every st in
  snd (Driver.iteration W cfg st) = Driver.Next
  /\ Driver.i st' = Driver.i st + advance
  /\ Driver.state st' = fst (fst (Driver.chunk W cfg st))
  /\ Driver.nbrs_list st' = snd (fst (Driver.chunk W cfg st))
  /\ Driver.NBRS_FLAG st' = false
  /\ exists frames,
       Driver.pos_traj st' = Driver.pos_traj st ++ [frames]
       /\ List.length frames
          = (Z.to_nat advance / Z.to_nat (Driver.save_every cfg))%nat.
Proof.
  intros Hnl Hov Hrc Hue Hms Hpe Hse st' advance. subst st'.
  destruct (report_keeps W cfg st)
    as (Hi & Hs & Hn & Hf & Hb & Hu & Hm & Hl & Hp & Hv & Hd).
  pose proof (chunk_frames W cfg st) as Hframes.
  unfold Driver.nbrs_overflowed in Hov. unfold Driver.rcut_overflowed in Hrc.
  unfold Driver.iteration. rewrite Hnl. simpl negb. cbv iota.
  rewrite (chunk_report W cfg st).
  destruct (Driver.chunk W cfg st) as [[sn nn] outs]. simpl in Hov, Hrc, Hframes.
  rewrite Hov, Hrc. simpl.
  rewrite Hi, Hu, Hp.
  assert (Eadv : Driver.update_every st
                 * (Driver.print_every cfg / Driver.update_every st) = advance).
  { unfold advance.
    pose proof (Z_div_mod_eq_full (Driver.print_every cfg) (Driver.update_every st)).
    lia. }
  split; [ reflexivity | ].
  split; [ rewrite Eadv; reflexivity | ].
  split; [ reflexivity | ]. split; [ reflexivity | ]. split; [ reflexivity | ].
  eexists. split; [ reflexivity | ].
  rewrite slice_step_length by lia.
  replace (Z.to_nat (Driver.save_every cfg) - 1
           - (Z.to_nat (Driver.save_every cfg) - 1))%nat with 0%nat by lia.
  rewrite Nat.add_0_r, Hframes, Hms, <- Eadv.
  f_equal.
  assert (Hq : 0 <= Driver.print_every cfg / Driver.update_every st)
    by (apply Z.div_pos; lia).
  rewrite Z2Nat.inj_mul by lia. lia.
Qed.

Lemma accepted_chunk_advance_witness :
  let W := Toy.world false in
  let cfg := Toy.settings true in
  let st := Driver.initial W cfg slow_state in
  let st' := fst (Driver.iteration W cfg st) in
  Driver.nbrs_overflowed W cfg st = false
  /\ Driver.rcut_overflowed W cfg st = false
  /\ snd (Driver.iteration W cfg st) = Driver.Next
  /\ Driver.i st' = Driver.i st + (10 - 10 mod 5)
  /\ Driver.state st' = fst (fst (Driver.chunk W cfg st))
  /\ Driver.nbrs_list st' = snd (fst (Driver.chunk W cfg st))
  /\ Driver.NBRS_FLAG st' = false
  /\ exists frames,
       Driver.pos_traj st' = Driver.pos_traj st ++ [frames]
       /\ List.length frames = (Z.to_nat (10 - 10 mod 5) / Z.to_nat 1)%nat.
Proof.
  cbv zeta.
  assert (H1 : Driver.nbrs_overflowed (Toy.world false) (Toy.settings true)
                 (Driver.initial (Toy.world false) (Toy.settings true) slow_state)
               = false) by (vm_compute; reflexivity).
  assert (H2 : Driver.rcut_overflowed (Toy.world false) (Toy.settings true)
                 (Driver.initial (Toy.world false) (Toy.settings true) slow_state)
               = false) by (vm_compute; reflexivity).
  split; [ exact H1 | ]. split; [ exact H2 | ].
  exact (accepted_chunk_advance (Toy.world false) (Toy.settings true)
           (Driver.initial (Toy.world false) (Toy.settings true) slow_state)
           eq_refl H1 H2 ltac:(simpl; lia) eq_refl ltac:(simpl; lia)
           ltac:(simpl; lia)).
Defined.
